(** * Playback and engagement core of the video front end (src/index.tsx)

    A shallow embedding of the two stateful React components of the
    application, [VideoPlayer] and [CommentSection] (with [CommentItem]),
    and of the helpers they call ([isValidCommentText],
    [translateTextWithGemini]).

    Conventions of the embedding:
    - a JavaScript string is its sequence of UTF-16 code units ([JsString]);
    - a JavaScript number holding a count or a clock reading is a [Z]; a
      media position or a limit (seconds, minutes) is a [Q]: positions are
      copied and compared, and the only arithmetic is minutes times 60;
    - a component is a record of its props and [useState] cells; an event
      handler is a function on that record; what the handler does to the
      outside world (the video element, [alert], [localStorage], the
      translation service) is recorded in further fields of the record;
    - an [await] splits a handler in two: the part before it and the
      continuation that runs when the promise settles. *)

From Stdlib Require Import List ZArith NArith QArith String Ascii Bool Lia.
From Stdlib Require Import DecimalString DecimalZ Sorted.
Import ListNotations.

(* ------------------------------------------------------------------ *)
(** ** JavaScript strings *)

(** A string is a list of UTF-16 code units. *)
Definition JsString := list N.

Module Js.

Local Open Scope N_scope.

Fixpoint eqb (a b : JsString) : bool :=
  match a, b with
  | [], [] => true
  | x :: a', y :: b' => N.eqb x y && eqb a' b'
  | _, _ => false
  end.

(** A literal of the source, all of whose characters are ASCII. *)
Definition lit (s : string) : JsString :=
  List.map N_of_ascii (list_ascii_of_string s).

(** [!s] on a string: only the empty string is falsy. *)
Definition falsy (s : JsString) : bool :=
  match s with [] => true | _ :: _ => false end.

(** ECMAScript WhiteSpace and LineTerminator code points: the characters
    that [String.prototype.trim] strips and that the class escape [\s]
    matches. *)
Definition isWhiteSpace (c : N) : bool :=
  ((9 <=? c) && (c <=? 13))          (* TAB LF VT FF CR *)
  || (c =? 32)                       (* SPACE *)
  || (c =? 160)                      (* U+00A0 *)
  || (c =? 5760)                     (* U+1680 *)
  || ((8192 <=? c) && (c <=? 8202))  (* U+2000 .. U+200A *)
  || (c =? 8232) || (c =? 8233)      (* U+2028 U+2029 *)
  || (c =? 8239) || (c =? 8287)      (* U+202F U+205F *)
  || (c =? 12288)                    (* U+3000 *)
  || (c =? 65279).                   (* U+FEFF *)

Fixpoint trimStart (s : JsString) : JsString :=
  match s with
  | [] => []
  | c :: s' => if isWhiteSpace c then trimStart s' else s
  end.

Definition trimEnd (s : JsString) : JsString := rev (trimStart (rev s)).

(** [String.prototype.trim]. *)
Definition trim (s : JsString) : JsString := trimEnd (trimStart s).

(** [n.toString()] for an integral number. *)
Definition toString (n : Z) : JsString :=
  lit (NilZero.string_of_int (Z.to_int n)).

End Js.

(* ------------------------------------------------------------------ *)
(** ** Helper functions of the source *)

Section Helpers.

Local Open Scope N_scope.

(** The character class of the regular expression in [isValidCommentText]:
    letters, digits, the class escape for white space, and the listed
    punctuation (the hyphen comes last and is literal). *)
Definition regexClass (c : N) : bool :=
  ((97 <=? c) && (c <=? 122))        (* a-z *)
  || ((65 <=? c) && (c <=? 90))      (* A-Z *)
  || ((48 <=? c) && (c <=? 57))      (* 0-9 *)
  || Js.isWhiteSpace c               (* \s *)
  || (c =? 46) || (c =? 44)          (* . , *)
  || (c =? 33) || (c =? 63)          (* ! ? *)
  || (c =? 39) || (c =? 34)          (* both quotes *)
  || (c =? 40) || (c =? 41)          (* ( ) *)
  || (c =? 58) || (c =? 59)          (* : ; *)
  || (c =? 10)                       (* \n *)
  || (c =? 45).                      (* - *)

(** [isValidCommentText]: the regular expression is anchored at both ends
    and is a starred class, so it tests every code unit. *)
Definition isValidCommentText (text : JsString) : bool :=
  forallb regexClass text.

(** What the Gemini call produced: a response, whose [text] may be
    missing, or a thrown error. *)
Inductive ApiResult :=
| ApiResponse (text : option JsString)
| ApiError.

(** [translateTextWithGemini] up to its [await]: either it returns at once
    or it has invoked [ai.models.generateContent] and waits for it. *)
Inductive TranslateRun :=
| Returned (result : JsString)
| AwaitingApi (text targetLanguage : JsString).

Definition translateTextWithGemini (ai : bool) (text targetLanguage : JsString)
  : TranslateRun :=
  if negb ai then
    Returned (Js.lit "Translation unavailable (API key missing): " ++ text)
  else if Js.falsy text || Js.falsy targetLanguage then Returned text
  else AwaitingApi text targetLanguage.

(** The rest of [translateTextWithGemini], once the call has settled:
    [response.text || text], or the [catch] branch. *)
Definition translateTextWithGemini_settled (text : JsString) (r : ApiResult)
  : JsString :=
  match r with
  | ApiResponse (Some t) => if Js.falsy t then text else t
  | ApiResponse None => text
  | ApiError => Js.lit "Translation failed: " ++ text
  end.

End Helpers.

(* ------------------------------------------------------------------ *)
(** ** The comment section: [CommentSection] and [CommentItem] *)

Module Engagement.

Record User := { username : JsString; email : JsString }.

Record Comment := {
  id : JsString;
  user : JsString;
  city : JsString;
  text : JsString;
  originalLang : option JsString;
  translatedText : option JsString;
  targetLang : option JsString;
  likes : Z;
  dislikes : Z;
  timestamp : Z
}.

(** The object spreads of the handlers: [{ ...c, likes: n }],
    [{ ...c, dislikes: n }] and
    [{ ...c, translatedText: t, targetLang: l }]. *)
Definition withLikes (c : Comment) (n : Z) : Comment :=
  {| id := id c; user := user c; city := city c; text := text c;
     originalLang := originalLang c; translatedText := translatedText c;
     targetLang := targetLang c; likes := n; dislikes := dislikes c;
     timestamp := timestamp c |}.

Definition withDislikes (c : Comment) (n : Z) : Comment :=
  {| id := id c; user := user c; city := city c; text := text c;
     originalLang := originalLang c; translatedText := translatedText c;
     targetLang := targetLang c; likes := likes c; dislikes := n;
     timestamp := timestamp c |}.

Definition withTranslation (c : Comment) (t l : JsString) : Comment :=
  {| id := id c; user := user c; city := city c; text := text c;
     originalLang := originalLang c; translatedText := Some t;
     targetLang := Some l; likes := likes c; dislikes := dislikes c;
     timestamp := timestamp c |}.

(** A call of [handleTranslate] suspended at its [await]: the [id] and
    [targetLang] its continuation closes over, and the run of
    [translateTextWithGemini] it waits for. *)
Record Pending := {
  p_id : JsString;
  p_targetLang : JsString;
  p_run : TranslateRun
}.

(** The component: the module constant [ai] (is a client configured), the
    prop [currentUser], the five state cells, and the environment it acts
    on: the [comments] item of [localStorage], the [alert]s shown, the
    suspended translations and the calls made to the translation service
    (text and target language, oldest first). *)
Record CommentSection := {
  ai : bool;
  currentUser : option User;
  comments : list Comment;
  newCommentText : JsString;
  userCity : JsString;
  error : JsString;
  translatingCommentId : option JsString;
  localStorage : option (list Comment);
  alerts : list JsString;
  pending : list Pending;
  translatorCalls : list (JsString * JsString)
}.

Definition setError (e : JsString) (s : CommentSection) : CommentSection :=
  {| ai := ai s; currentUser := currentUser s; comments := comments s;
     newCommentText := newCommentText s; userCity := userCity s;
     error := e; translatingCommentId := translatingCommentId s;
     localStorage := localStorage s; alerts := alerts s;
     pending := pending s; translatorCalls := translatorCalls s |}.

Definition setNewCommentText (t : JsString) (s : CommentSection)
  : CommentSection :=
  {| ai := ai s; currentUser := currentUser s; comments := comments s;
     newCommentText := t; userCity := userCity s;
     error := error s; translatingCommentId := translatingCommentId s;
     localStorage := localStorage s; alerts := alerts s;
     pending := pending s; translatorCalls := translatorCalls s |}.

Definition setTranslatingCommentId (i : option JsString) (s : CommentSection)
  : CommentSection :=
  {| ai := ai s; currentUser := currentUser s; comments := comments s;
     newCommentText := newCommentText s; userCity := userCity s;
     error := error s; translatingCommentId := i;
     localStorage := localStorage s; alerts := alerts s;
     pending := pending s; translatorCalls := translatorCalls s |}.

(** [setComments] with a fresh array, together with the effect that
    depends on [comments] and writes the array to [localStorage]. *)
Definition setComments (l : list Comment) (s : CommentSection)
  : CommentSection :=
  {| ai := ai s; currentUser := currentUser s; comments := l;
     newCommentText := newCommentText s; userCity := userCity s;
     error := error s; translatingCommentId := translatingCommentId s;
     localStorage := Some l; alerts := alerts s;
     pending := pending s; translatorCalls := translatorCalls s |}.

Definition alert (msg : JsString) (s : CommentSection) : CommentSection :=
  {| ai := ai s; currentUser := currentUser s; comments := comments s;
     newCommentText := newCommentText s; userCity := userCity s;
     error := error s; translatingCommentId := translatingCommentId s;
     localStorage := localStorage s; alerts := alerts s ++ [msg];
     pending := pending s; translatorCalls := translatorCalls s |}.

Definition setPending (ps : list Pending) (calls : list (JsString * JsString))
  (s : CommentSection) : CommentSection :=
  {| ai := ai s; currentUser := currentUser s; comments := comments s;
     newCommentText := newCommentText s; userCity := userCity s;
     error := error s; translatingCommentId := translatingCommentId s;
     localStorage := localStorage s; alerts := alerts s;
     pending := ps; translatorCalls := calls |}.

(** The component after its first render and mount effects: the saved
    comments, if any, are loaded and written back. This is the mount of a
    production build, where the effects run once. *)
Definition mount (aiConfigured : bool) (u : option User)
  (saved : option (list Comment)) : CommentSection :=
  let l := match saved with Some l => l | None => [] end in
  {| ai := aiConfigured; currentUser := u; comments := l;
     newCommentText := []; userCity := Js.lit "Mockville";
     error := []; translatingCommentId := None;
     localStorage := Some l; alerts := [];
     pending := []; translatorCalls := [] |}.

Definition msgLogin : JsString := Js.lit "You must be logged in to comment.".
Definition msgEmpty : JsString := Js.lit "Comment cannot be empty.".
Definition msgDisallowed : JsString :=
  Js.lit "Comment contains disallowed characters. Please use only letters, numbers, spaces, and basic punctuation (.,!?"
  ++ [34%N] ++ Js.lit "'():;-).".
Definition msgRemoved : JsString :=
  Js.lit "Comment removed due to reaching 2 dislikes.".

(** [handleCommentSubmit]. [nowId] and [nowTs] are the two readings of
    [Date.now()], for the id and for the timestamp. *)
Definition handleCommentSubmit (nowId nowTs : Z) (s : CommentSection)
  : CommentSection :=
  match currentUser s with
  | None => setError msgLogin s
  | Some u =>
      let trimmedComment := Js.trim (newCommentText s) in
      if Js.falsy trimmedComment then setError msgEmpty s
      else if negb (isValidCommentText trimmedComment) then
        setError msgDisallowed s
      else
        let newComment :=
          {| id := Js.toString nowId;
             user := username u;
             city := userCity s;
             text := trimmedComment;
             originalLang := None; translatedText := None;
             targetLang := None;
             likes := 0; dislikes := 0;
             timestamp := nowTs |} in
        setNewCommentText []
          (setComments (newComment :: comments s) (setError [] s))
  end.

(** [handleLike]. *)
Definition handleLike (i : JsString) (s : CommentSection) : CommentSection :=
  setComments
    (map (fun c => if Js.eqb (id c) i then withLikes c (likes c + 1) else c)
       (comments s)) s.

(** The callback mapped over the comments by [handleDislike]: [None] is
    the [null] that [filter(Boolean)] drops. *)
Definition dislikeOne (i : JsString) (c : Comment) : option Comment :=
  if Js.eqb (id c) i then
    let newDislikes := (dislikes c + 1)%Z in
    if (2 <=? newDislikes)%Z then None
    else Some (withDislikes c newDislikes)
  else Some c.

Definition isNull (o : option Comment) : bool :=
  match o with None => true | Some _ => false end.

Fixpoint filterBoolean (l : list (option Comment)) : list Comment :=
  match l with
  | [] => []
  | Some c :: l' => c :: filterBoolean l'
  | None :: l' => filterBoolean l'
  end.

(** [handleDislike]: [commentRemoved] is set when the callback returned
    [null] for some comment. *)
Definition handleDislike (i : JsString) (s : CommentSection)
  : CommentSection :=
  let mapped := map (dislikeOne i) (comments s) in
  let commentRemoved := existsb isNull mapped in
  let updatedComments := filterBoolean mapped in
  let s' := setComments updatedComments s in
  if commentRemoved then alert msgRemoved s' else s'.

(** [handleTranslate] up to its [await]. *)
Definition handleTranslate (i targetLang0 : JsString) (s : CommentSection)
  : CommentSection :=
  match find (fun c => Js.eqb (id c) i) (comments s) with
  | None => s
  | Some commentToTranslate =>
      if negb (ai s) then s
      else
        let s1 := setTranslatingCommentId (Some i) s in
        let run :=
          translateTextWithGemini (ai s) (text commentToTranslate)
            targetLang0 in
        let called :=
          match run with
          | AwaitingApi t l => [(t, l)]
          | Returned _ => []
          end in
        setPending
          (pending s1
           ++ [{| p_id := i; p_targetLang := targetLang0; p_run := run |}])
          (translatorCalls s1 ++ called) s1
  end.

(** The continuation of [handleTranslate] after the [await]: the
    functional update of the comments, then the [finally] block.
    [translateTextWithGemini] catches every error of the call itself, so
    the [catch] branch of [handleTranslate] is not reached. *)
Definition handleTranslate_resume (p : Pending) (r : ApiResult)
  (s : CommentSection) : CommentSection :=
  let translated :=
    match p_run p with
    | Returned t => t
    | AwaitingApi t _ => translateTextWithGemini_settled t r
    end in
  setTranslatingCommentId None
    (setComments
       (map (fun c => if Js.eqb (id c) (p_id p)
                      then withTranslation c translated (p_targetLang p)
                      else c)
          (comments s)) s).

Fixpoint removeNth {A : Type} (k : nat) (l : list A) : list A :=
  match k, l with
  | _, [] => []
  | O, _ :: l' => l'
  | S k', x :: l' => x :: removeNth k' l'
  end.

(** The [k]-th suspended translation settles with [r]. *)
Definition settle (k : nat) (r : ApiResult) (s : CommentSection)
  : CommentSection :=
  match nth_error (pending s) k with
  | None => s
  | Some p =>
      handleTranslate_resume p r
        (setPending (removeNth k (pending s)) (translatorCalls s) s)
  end.

(** *** [CommentItem] *)

(** The prop [isTranslating] that [CommentSection] passes for a comment. *)
Definition isTranslating (s : CommentSection) (c : Comment) : bool :=
  match translatingCommentId s with
  | Some i => Js.eqb i (id c)
  | None => false
  end.

(** The [disabled] attribute of the language select and of the Translate
    button. *)
Definition translateDisabled (s : CommentSection) (c : Comment) : bool :=
  isTranslating s c || negb (ai s).

Definition optEqb (a b : option JsString) : bool :=
  match a, b with
  | Some x, Some y => Js.eqb x y
  | None, None => true
  | _, _ => false
  end.

(** [handleTranslateClick] of the item showing [comment], whose language
    select holds [lang]. *)
Definition handleTranslateClick (comment : Comment) (lang : JsString)
  (s : CommentSection) : CommentSection :=
  if optEqb (Some (text comment)) (translatedText comment)
     && optEqb (targetLang comment) (Some lang)
  then s
  else handleTranslate (id comment) lang s.

(** A click on the Translate button of the [k]-th comment shown: a
    disabled button delivers no click. *)
Definition clickTranslate (k : nat) (lang : JsString) (s : CommentSection)
  : CommentSection :=
  match nth_error (comments s) k with
  | None => s
  | Some c =>
      if translateDisabled s c then s else handleTranslateClick c lang s
  end.

(** What can happen to a mounted comment section. *)
Inductive Event :=
| Typed (t : JsString)                    (* the textarea's onChange *)
| Submit (nowId nowTs : Z)
| Like (i : JsString)
| Dislike (i : JsString)
| ClickTranslate (k : nat) (lang : JsString)
| Settle (k : nat) (r : ApiResult).

Definition step (e : Event) (s : CommentSection) : CommentSection :=
  match e with
  | Typed t => setNewCommentText t s
  | Submit nowId nowTs => handleCommentSubmit nowId nowTs s
  | Like i => handleLike i s
  | Dislike i => handleDislike i s
  | ClickTranslate k lang => clickTranslate k lang s
  | Settle k r => settle k r s
  end.

Definition run (es : list Event) (s : CommentSection) : CommentSection :=
  fold_left (fun s e => step e s) es s.

End Engagement.

(* ------------------------------------------------------------------ *)
(** ** The video player: [VideoPlayer] and its [video] element *)

Module Playback.

Record VideoSource := { quality : JsString; url : JsString }.

Record Plan := {
  id : JsString;
  name : JsString;
  price : Q;
  timeLimitMinutes : option Q;   (* [None] is [null]: unlimited *)
  features : list JsString
}.

(** *** The media element

    The part of an [HTMLVideoElement] that the component reads and
    writes. [play()] and [pause()] change [paused] at once and queue the
    [play] or [pause] event, delivered later as a task of its own. The
    [timeupdate] that the element fires along with a [pause] event is not
    queued here: time updates arrive as [TimeUpdate] events.
    Assigning a new [src] runs the load algorithm, which sets the
    playback position to 0 and [paused] to true; [loadeddata] fires when
    the first frame of the new resource is there. *)

Inductive MediaEvent := PlayEvent | PauseEvent.

(** The closure that the quality effect installs as [onloadeddata]: the
    [currentTime] and [isVideoPlayingBeforeQualityChange] it captured. *)
Record LoadedHandler := {
  h_currentTime : Q;
  h_isVideoPlayingBeforeQualityChange : bool
}.

Record Video := {
  src : JsString;
  currentTime : Q;
  paused : bool;
  onloadeddata : option LoadedHandler;
  queued : list MediaEvent
}.

Definition videoPlay (v : Video) : Video :=
  if paused v then
    {| src := src v; currentTime := currentTime v; paused := false;
       onloadeddata := onloadeddata v; queued := queued v ++ [PlayEvent] |}
  else v.

Definition videoPause (v : Video) : Video :=
  if paused v then v
  else
    {| src := src v; currentTime := currentTime v; paused := true;
       onloadeddata := onloadeddata v; queued := queued v ++ [PauseEvent] |}.

Definition videoSeek (t : Q) (v : Video) : Video :=
  {| src := src v; currentTime := t; paused := paused v;
     onloadeddata := onloadeddata v; queued := queued v |}.

Definition videoLoad (u : JsString) (v : Video) : Video :=
  {| src := u; currentTime := 0; paused := true;
     onloadeddata := onloadeddata v; queued := queued v |}.

Definition setOnloadeddata (h : option LoadedHandler) (v : Video) : Video :=
  {| src := src v; currentTime := currentTime v; paused := paused v;
     onloadeddata := h; queued := queued v |}.

Definition setQueued (q : list MediaEvent) (v : Video) : Video :=
  {| src := src v; currentTime := currentTime v; paused := paused v;
     onloadeddata := onloadeddata v; queued := q |}.

(** *** The component *)

(** What the component does to its surroundings, oldest first: the
    directives it gives the element, the [onTimeLimitReached] callback
    and the limit [alert] (for a plan name and its minutes). *)
Inductive Effect :=
| SinkLoad (u : JsString)
| SinkSeek (t : Q)
| SinkPlay
| SinkPause
| LimitNotification
| LimitAlert (planName : JsString) (minutes : Q).

Record VideoPlayer := {
  sources : list VideoSource;                  (* prop *)
  currentPlan : Plan;                          (* prop *)
  currentSourceUrl : JsString;
  selectedQuality : JsString;
  isVideoPlayingBeforeQualityChange : bool;
  timeLimitReached : bool;
  video : Video;                               (* [videoRef.current] *)
  trace : list Effect
}.

Definition setCurrentPlan (p : Plan) (s : VideoPlayer) : VideoPlayer :=
  {| sources := sources s; currentPlan := p;
     currentSourceUrl := currentSourceUrl s;
     selectedQuality := selectedQuality s;
     isVideoPlayingBeforeQualityChange := isVideoPlayingBeforeQualityChange s;
     timeLimitReached := timeLimitReached s;
     video := video s; trace := trace s |}.

Definition setCurrentSourceUrl (u : JsString) (s : VideoPlayer) : VideoPlayer :=
  {| sources := sources s; currentPlan := currentPlan s;
     currentSourceUrl := u;
     selectedQuality := selectedQuality s;
     isVideoPlayingBeforeQualityChange := isVideoPlayingBeforeQualityChange s;
     timeLimitReached := timeLimitReached s;
     video := video s; trace := trace s |}.

Definition setSelectedQuality (q : JsString) (s : VideoPlayer) : VideoPlayer :=
  {| sources := sources s; currentPlan := currentPlan s;
     currentSourceUrl := currentSourceUrl s;
     selectedQuality := q;
     isVideoPlayingBeforeQualityChange := isVideoPlayingBeforeQualityChange s;
     timeLimitReached := timeLimitReached s;
     video := video s; trace := trace s |}.

Definition setIsVideoPlayingBeforeQualityChange (b : bool) (s : VideoPlayer)
  : VideoPlayer :=
  {| sources := sources s; currentPlan := currentPlan s;
     currentSourceUrl := currentSourceUrl s;
     selectedQuality := selectedQuality s;
     isVideoPlayingBeforeQualityChange := b;
     timeLimitReached := timeLimitReached s;
     video := video s; trace := trace s |}.

Definition setTimeLimitReached (b : bool) (s : VideoPlayer) : VideoPlayer :=
  {| sources := sources s; currentPlan := currentPlan s;
     currentSourceUrl := currentSourceUrl s;
     selectedQuality := selectedQuality s;
     isVideoPlayingBeforeQualityChange := isVideoPlayingBeforeQualityChange s;
     timeLimitReached := b;
     video := video s; trace := trace s |}.

Definition setVideo (v : Video) (s : VideoPlayer) : VideoPlayer :=
  {| sources := sources s; currentPlan := currentPlan s;
     currentSourceUrl := currentSourceUrl s;
     selectedQuality := selectedQuality s;
     isVideoPlayingBeforeQualityChange := isVideoPlayingBeforeQualityChange s;
     timeLimitReached := timeLimitReached s;
     video := v; trace := trace s |}.

Definition emit (e : Effect) (s : VideoPlayer) : VideoPlayer :=
  {| sources := sources s; currentPlan := currentPlan s;
     currentSourceUrl := currentSourceUrl s;
     selectedQuality := selectedQuality s;
     isVideoPlayingBeforeQualityChange := isVideoPlayingBeforeQualityChange s;
     timeLimitReached := timeLimitReached s;
     video := video s; trace := trace s ++ [e] |}.

(** [videoRef.current.play()], [.pause()] and [.currentTime = t] as the
    component calls them. *)
Definition callPlay (s : VideoPlayer) : VideoPlayer :=
  emit SinkPlay (setVideo (videoPlay (video s)) s).

Definition callPause (s : VideoPlayer) : VideoPlayer :=
  emit SinkPause (setVideo (videoPause (video s)) s).

Definition assignCurrentTime (t : Q) (s : VideoPlayer) : VideoPlayer :=
  emit (SinkSeek t) (setVideo (videoSeek t (video s)) s).

(** [a < b] on numbers. *)
Definition Qltb (a b : Q) : bool := negb (Qle_bool b a).

(** [t || 0] on a number: 0 is the only falsy position. *)
Definition orZero (t : Q) : Q := if Qeq_bool t 0 then 0 else t.

(** [s || ''] on an optional string. *)
Definition orEmpty (o : option JsString) : JsString :=
  match o with Some s => s | None => [] end.

(** The first effect, which depends on [selectedQuality], [sources],
    [currentSourceUrl] and [isVideoPlayingBeforeQualityChange]. *)
Definition qualityEffect (s : VideoPlayer) : VideoPlayer :=
  match find (fun so => Js.eqb (quality so) (selectedQuality s)) (sources s) with
  | Some source =>
      if negb (Js.eqb (url source) (currentSourceUrl s)) then
        let currentTime0 := orZero (currentTime (video s)) in
        let s1 := setCurrentSourceUrl (url source) s in
        setVideo
          (setOnloadeddata
             (Some {| h_currentTime := currentTime0;
                      h_isVideoPlayingBeforeQualityChange :=
                        isVideoPlayingBeforeQualityChange s |})
             (video s1)) s1
      else s
  | None => s
  end.

(** The second effect, which depends on [currentPlan] and
    [isVideoPlayingBeforeQualityChange]. *)
Definition planEffect (s : VideoPlayer) : VideoPlayer :=
  let s1 := setTimeLimitReached false s in
  if paused (video s1) && isVideoPlayingBeforeQualityChange s1 then
    match timeLimitMinutes (currentPlan s1) with
    | None => callPlay s1
    | Some m =>
        if Qltb (currentTime (video s1)) (m * 60) then callPlay s1 else s1
    end
  else s1.

(** Have the dependencies of an effect changed between the previous
    render [prev] and this one? The [sources] prop is the module constant
    [videoSources] throughout, and [currentPlan] is always an element of
    [plans], found by its id. *)
Definition qualityDepsChanged (prev s : VideoPlayer) : bool :=
  negb (Js.eqb (selectedQuality prev) (selectedQuality s))
  || negb (Js.eqb (currentSourceUrl prev) (currentSourceUrl s))
  || negb (Bool.eqb (isVideoPlayingBeforeQualityChange prev)
             (isVideoPlayingBeforeQualityChange s)).

Definition planDepsChanged (prev s : VideoPlayer) : bool :=
  negb (Js.eqb (id (currentPlan prev)) (id (currentPlan s)))
  || negb (Bool.eqb (isVideoPlayingBeforeQualityChange prev)
             (isVideoPlayingBeforeQualityChange s)).

(** The DOM update of a render: the [src] attribute follows
    [currentSourceUrl], and a new [src] starts a load. *)
Definition domCommit (s : VideoPlayer) : VideoPlayer :=
  if Js.eqb (src (video s)) (currentSourceUrl s) then s
  else
    emit (SinkLoad (currentSourceUrl s))
      (setVideo (videoLoad (currentSourceUrl s) (video s)) s).

(** One render: the DOM update, then the effects whose dependencies
    changed, in the order they are declared. *)
Definition renderRound (prev s : VideoPlayer) : VideoPlayer :=
  let s0 := domCommit s in
  let s1 := if qualityDepsChanged prev s then qualityEffect s0 else s0 in
  if planDepsChanged prev s then planEffect s1 else s1.

(** After a handler has turned the rendered component [prev] into [s]:
    the render of [s], and the render that the state set by its effects
    asks for. *)
Definition commit (prev s : VideoPlayer) : VideoPlayer :=
  renderRound s (renderRound prev s).

Definition initialRender (srcs : list VideoSource) (plan : Plan)
  : VideoPlayer :=
  let u := orEmpty (option_map url (nth_error srcs 0)) in
  {| sources := srcs; currentPlan := plan;
     currentSourceUrl := u;
     selectedQuality := orEmpty (option_map quality (nth_error srcs 0));
     isVideoPlayingBeforeQualityChange := false;
     timeLimitReached := false;
     video := {| src := u; currentTime := 0; paused := true;
                 onloadeddata := None; queued := [] |};
     trace := [] |}.

(** The mounted component: the first render, both effects, and the render
    they ask for. *)
Definition mount (srcs : list VideoSource) (plan : Plan) : VideoPlayer :=
  let s := initialRender srcs plan in
  renderRound s (planEffect (qualityEffect s)).

(** [handleQualityChange], for the selected option's value. *)
Definition handleQualityChange (value : JsString) (s : VideoPlayer)
  : VideoPlayer :=
  let s1 :=
    if negb (paused (video s)) then
      callPause (setIsVideoPlayingBeforeQualityChange true s)
    else setIsVideoPlayingBeforeQualityChange false s in
  setSelectedQuality value s1.

(** [handleTimeUpdate]. *)
Definition handleTimeUpdate (s : VideoPlayer) : VideoPlayer :=
  match timeLimitMinutes (currentPlan s) with
  | Some m =>
      if negb (timeLimitReached s) then
        let limitSeconds := m * 60 in
        if Qle_bool limitSeconds (currentTime (video s)) then
          emit (LimitAlert (name (currentPlan s)) m)
            (emit LimitNotification
               (setTimeLimitReached true (callPause s)))
        else s
      else s
  | None => s
  end.

(** The [onPlay] and [onPause] props of the element. *)
Definition onPlay (s : VideoPlayer) : VideoPlayer :=
  setIsVideoPlayingBeforeQualityChange true s.

Definition onPause (s : VideoPlayer) : VideoPlayer :=
  setIsVideoPlayingBeforeQualityChange false s.

(** The [loadeddata] event: the installed closure, if any, runs and
    removes itself. *)
Definition fireLoadedData (s : VideoPlayer) : VideoPlayer :=
  match onloadeddata (video s) with
  | None => s
  | Some h =>
      let s1 :=
        if Qltb 0 (h_currentTime h)
        then assignCurrentTime (h_currentTime h) s else s in
      let s2 :=
        if h_isVideoPlayingBeforeQualityChange h && paused (video s1)
        then callPlay s1 else s1 in
      setVideo (setOnloadeddata None (video s2)) s2
  end.

(** The oldest queued media event is delivered to its handler. *)
Definition dispatch (s : VideoPlayer) : VideoPlayer :=
  match queued (video s) with
  | [] => s
  | ev :: q =>
      let s1 := setVideo (setQueued q (video s)) s in
      match ev with
      | PlayEvent => onPlay s1
      | PauseEvent => onPause s1
      end
  end.

(** What can happen to a mounted player. [TimeUpdate t] is a
    [timeupdate] event at which the element reports position [t];
    [UserPlay] and [UserPause] are the element's own controls;
    [SetPlan p] is a render of the parent with a new [currentPlan]. *)
Inductive Event :=
| QualityChange (value : JsString)
| TimeUpdate (t : Q)
| UserPlay
| UserPause
| Dispatch
| LoadedData
| SetPlan (p : Plan).

Definition handle (e : Event) (s : VideoPlayer) : VideoPlayer :=
  match e with
  | QualityChange value => handleQualityChange value s
  | TimeUpdate t => handleTimeUpdate (setVideo (videoSeek t (video s)) s)
  | UserPlay => setVideo (videoPlay (video s)) s
  | UserPause => setVideo (videoPause (video s)) s
  | Dispatch => dispatch s
  | LoadedData => fireLoadedData s
  | SetPlan p => setCurrentPlan p s
  end.

(** A handler runs, then React renders: the state that the handler set
    is rendered, and the effects of that render have run, before the next
    event is handled. *)
Definition step (e : Event) (s : VideoPlayer) : VideoPlayer :=
  commit s (handle e s).

Definition run (es : list Event) (s : VideoPlayer) : VideoPlayer :=
  fold_left (fun s e => step e s) es s.

(** The module constants [videoSources] and [plans]. *)
Definition videoSources : list VideoSource :=
  [ {| quality := Js.lit "360p";
       url := Js.lit "http://commondatastorage.googleapis.com/gtv-videos-bucket/sample/ForBiggerFun.mp4" |};
    {| quality := Js.lit "480p";
       url := Js.lit "http://commondatastorage.googleapis.com/gtv-videos-bucket/sample/ForBiggerJoyrides.mp4" |};
    {| quality := Js.lit "720p";
       url := Js.lit "http://commondatastorage.googleapis.com/gtv-videos-bucket/sample/ForBiggerBlazes.mp4" |};
    {| quality := Js.lit "1080p";
       url := Js.lit "http://commondatastorage.googleapis.com/gtv-videos-bucket/sample/ForBiggerEscapes.mp4" |} ].

Definition freePlan : Plan :=
  {| id := Js.lit "free"; name := Js.lit "Free"; price := 0;
     timeLimitMinutes := Some 5;
     features := [Js.lit "Watch videos for 5 minutes"] |}.

Definition bronzePlan : Plan :=
  {| id := Js.lit "bronze"; name := Js.lit "Bronze"; price := 10;
     timeLimitMinutes := Some 7;
     features := [Js.lit "Watch videos for 7 minutes";
                  Js.lit "Basic Support"] |}.

Definition silverPlan : Plan :=
  {| id := Js.lit "silver"; name := Js.lit "Silver"; price := 50;
     timeLimitMinutes := Some 10;
     features := [Js.lit "Watch videos for 10 minutes";
                  Js.lit "Email Support"] |}.

Definition goldPlan : Plan :=
  {| id := Js.lit "gold"; name := Js.lit "Gold"; price := 100;
     timeLimitMinutes := None;
     features := [Js.lit "Unlimited video watching";
                  Js.lit "Priority Support"] |}.

Definition plans : list Plan := [freePlan; bronzePlan; silverPlan; goldPlan].

(** The element shows the source the component selected. *)
Definition synced (s : VideoPlayer) : Prop :=
  src (video s) = currentSourceUrl s.

(** The states of a mounted player. *)
Inductive reachable : VideoPlayer -> Prop :=
| reach_mount srcs plan : reachable (mount srcs plan)
| reach_step e s : reachable s -> reachable (step e s).

Definition isLimitNotification (e : Effect) : bool :=
  match e with LimitNotification => true | _ => false end.

(** How often [onTimeLimitReached] has been called. *)
Definition notifications (s : VideoPlayer) : nat :=
  List.length (filter isLimitNotification (trace s)).

(** *** Scenarios *)

Definition q480p : JsString := Js.lit "480p".
Definition q720p : JsString := Js.lit "720p".

(** The free plan, playing, 42 seconds in. *)
Definition watching42 : VideoPlayer :=
  run [UserPlay; Dispatch; TimeUpdate 42] (mount videoSources freePlan).

(** One quality change, its load completing. *)
Definition oneSwitch : VideoPlayer :=
  run [QualityChange q480p; Dispatch; LoadedData; Dispatch] watching42.

(** A second quality change before the load of the first completes. *)
Definition twoSwitches : VideoPlayer :=
  run [QualityChange q480p; Dispatch; QualityChange q720p; LoadedData;
       Dispatch] watching42.

(** The free plan's five minutes are reached while playing. *)
Definition atLimit : VideoPlayer :=
  run [UserPlay; Dispatch; TimeUpdate 299; TimeUpdate 300]
    (mount videoSources freePlan).

(** The element's [pause] event has been delivered and a further
    [timeupdate] has come in at the limit. *)
Definition locked : VideoPlayer :=
  run [Dispatch; TimeUpdate 300] atLimit.


End Playback.

(* ------------------------------------------------------------------ *)
(** ** The specification's vocabulary and the scenarios used below *)

Module Scenario.

Import Engagement.

(** The allow-list as the specification words it: letters, digits,
    the space, the newline and the listed punctuation. *)
Definition specAllowed (c : N) : bool :=
  (((97 <=? c) && (c <=? 122))
   || ((65 <=? c) && (c <=? 90))
   || ((48 <=? c) && (c <=? 57))
   || (c =? 32) || (c =? 10)
   || (c =? 46) || (c =? 44) || (c =? 33) || (c =? 63)
   || (c =? 39) || (c =? 34) || (c =? 40) || (c =? 41)
   || (c =? 58) || (c =? 59) || (c =? 45))%N.

Definition alice : User :=
  {| username := Js.lit "alice"; email := Js.lit "alice@example.com" |}.

Definition comment (i t : string) (d : Z) : Comment :=
  {| id := Js.lit i; user := Js.lit "alice"; city := Js.lit "Mockville";
     text := Js.lit t; originalLang := None; translatedText := None;
     targetLang := None; likes := 0; dislikes := d; timestamp := 0 |}.

Definition es : JsString := Js.lit "es".
Definition fr : JsString := Js.lit "fr".

(** A signed-in section with two stored comments, the first of them one
    dislike away from removal. *)
Definition twoComments (aiConfigured : bool) : CommentSection :=
  mount aiConfigured (Some alice)
    (Some [comment "1" "Hello" 1; comment "2" "Good morning" 0]).

(** The text [a<TAB>b]. *)
Definition tabbed : JsString := [97; 9; 98]%N.

Definition typedTabbed : CommentSection :=
  step (Typed tabbed) (mount true (Some alice) None).

Definition hola : ApiResult := ApiResponse (Some (Js.lit "Hola")).

(** The first comment has been translated to Spanish. *)
Definition afterHola : CommentSection :=
  run [ClickTranslate 0 es; Settle 0 hola] (twoComments true).

(** Three clicks with nothing settled in between: first comment, second
    comment, first comment again. *)
Definition threeClicks : CommentSection :=
  run [ClickTranslate 0 es; ClickTranslate 1 es; ClickTranslate 0 fr]
    (twoComments true).

(** The first comment is removed by a dislike while its translation is
    outstanding. *)
Definition deletedWhileTranslating : CommentSection :=
  run [ClickTranslate 0 es; Dislike (Js.lit "1")] (twoComments true).

(** Two submissions for which [Date.now()] reads the same millisecond. *)
Definition sameMillisecond : CommentSection :=
  run [Typed (Js.lit "first"); Submit 1700000000000 1700000000000;
       Typed (Js.lit "second"); Submit 1700000000000 1700000000000]
    (mount true (Some alice) None).

End Scenario.

(* ------------------------------------------------------------------ *)
(** ** Notions used to state further properties of the comment section *)

Module EngagementNotions.

Import Engagement.

(** What [handleCommentSubmit] and the other handlers keep true of a
    comment: its text is what validation let through (not empty, every
    character in the class, nothing left to trim), its counters are not
    negative, it has fewer than 2 dislikes, and it has a translated text
    exactly when it has a target language. *)
Definition wellFormed (c : Comment) : Prop :=
  text c <> []
  /\ isValidCommentText (text c) = true
  /\ Js.trim (text c) = text c
  /\ (0 <= likes c)%Z
  /\ (0 <= dislikes c < 2)%Z
  /\ (translatedText c = None <-> targetLang c = None).

(** The readings of [Date.now()] that the submissions of a run take
    their ids from, oldest first. *)
Fixpoint submitClocks (es : list Event) : list Z :=
  match es with
  | [] => []
  | Submit nowId _ :: es' => nowId :: submitClocks es'
  | _ :: es' => submitClocks es'
  end.

End EngagementNotions.

(* ------------------------------------------------------------------ *)
(** ** Mounting the comment section, effect by effect

    [Engagement.mount] gives the comment section once its mount effects
    and the render they ask for are done. Here the two effects run one
    by one: the load effect reads the [comments] item and queues a
    [setComments], the save effect writes the [comments] of the render
    it belongs to, which is the empty array at first. Under
    [React.StrictMode], which wraps [App], a development build runs the
    effects of a mounted component a second time at once, before the
    queued updates are rendered; the two effects have no cleanup. *)

Module CommentMount.

Import Engagement.

(** The [comments] that the render saw, the [setComments] calls that are
    not rendered yet (oldest first), and the [comments] item of
    [localStorage]. *)
Record Mounting := {
  rendered : list Comment;
  updates : list (list Comment);
  item : option (list Comment)
}.

(** The first effect: an item that is there is the text of an array,
    which is truthy also for the empty array. *)
Definition loadEffect (m : Mounting) : Mounting :=
  match item m with
  | Some savedComments =>
      {| rendered := rendered m; updates := updates m ++ [savedComments];
         item := item m |}
  | None => m
  end.

(** The second effect. *)
Definition saveEffect (m : Mounting) : Mounting :=
  {| rendered := rendered m; updates := updates m;
     item := Some (rendered m) |}.

(** The effects of a mount, in the order they are declared. *)
Definition runEffects (m : Mounting) : Mounting := saveEffect (loadEffect m).

(** The render of the queued updates: the last value set is the state,
    and since it is another array than before the save effect runs. *)
Definition rerender (m : Mounting) : Mounting :=
  match rev (updates m) with
  | [] => m
  | l :: _ => saveEffect {| rendered := l; updates := []; item := item m |}
  end.

Definition firstRender (saved : option (list Comment)) : Mounting :=
  {| rendered := []; updates := []; item := saved |}.

(** The mount, in a production build or in a development build under
    [React.StrictMode]. *)
Definition mountEffects (strictDevelopment : bool)
  (saved : option (list Comment)) : Mounting :=
  let m1 := runEffects (firstRender saved) in
  let m2 := if strictDevelopment then runEffects m1 else m1 in
  rerender m2.

End CommentMount.

(* ------------------------------------------------------------------ *)
(** ** The application shell: [App], [Navbar], [LoginPage], [SignupPage]
       and [SubscriptionsPage]

    [mockUserStore] is an object used as a map from emails to users. An
    email reaches it only from an [input] of type [email] that is
    [required], which the browser lets through only if it is not empty
    and holds an [@]; no property inherited from [Object.prototype] has
    such a name, so a lookup sees the object's own properties only, and
    it is modelled as a list of bindings. [localStorage] is modelled by
    the items the application writes, each absent or holding a value it
    wrote; the [userPlan_<email>] items are kept by email. *)

Module Dict.

(** [m[k]] on own properties. *)
Fixpoint lookup {V : Type} (k : JsString) (m : list (JsString * V))
  : option V :=
  match m with
  | [] => None
  | (k', v) :: m' => if Js.eqb k' k then Some v else lookup k m'
  end.

(** [m[k] = v]. *)
Definition assign {V : Type} (k : JsString) (v : V) (m : list (JsString * V))
  : list (JsString * V) :=
  (k, v) :: filter (fun kv => negb (Js.eqb (fst kv) k)) m.

End Dict.

(** What the browser asks of the value of a required email input, as far
    as the store is concerned: it holds an [@]. *)
Definition emailInputValid (email : JsString) : bool :=
  existsb (N.eqb 64) email.

(** [User & { passwordHash: string }]. *)
Record StoredUser := {
  userDetails : Engagement.User;
  passwordHash : JsString
}.

Definition mockOtp : JsString := Js.lit "123456".

Module LoginPage.

Record State := {
  email : JsString;
  password : JsString;
  otp : JsString;
  showOtpInput : bool;
  loginError : JsString;
  otpMessage : JsString
}.

Definition initial : State :=
  {| email := []; password := []; otp := []; showOtpInput := false;
     loginError := []; otpMessage := [] |}.

Definition setEmail (v : JsString) (s : State) : State :=
  {| email := v; password := password s; otp := otp s;
     showOtpInput := showOtpInput s; loginError := loginError s;
     otpMessage := otpMessage s |}.

Definition setPassword (v : JsString) (s : State) : State :=
  {| email := email s; password := v; otp := otp s;
     showOtpInput := showOtpInput s; loginError := loginError s;
     otpMessage := otpMessage s |}.

Definition setOtp (v : JsString) (s : State) : State :=
  {| email := email s; password := password s; otp := v;
     showOtpInput := showOtpInput s; loginError := loginError s;
     otpMessage := otpMessage s |}.

Definition setLoginError (v : JsString) (s : State) : State :=
  {| email := email s; password := password s; otp := otp s;
     showOtpInput := showOtpInput s; loginError := v;
     otpMessage := otpMessage s |}.

Definition showOtp (message : JsString) (s : State) : State :=
  {| email := email s; password := password s; otp := otp s;
     showOtpInput := true; loginError := loginError s;
     otpMessage := message |}.

Definition msgRequired : JsString := Js.lit "Email and password are required.".
Definition msgInvalid : JsString := Js.lit "Invalid email or password.".
Definition msgInvalidOtp : JsString := Js.lit "Invalid OTP.".
Definition msgOtpByEmail : JsString :=
  Js.lit "OTP will be sent via Email for verification (Simulated South India User).".
Definition msgOtpByMobile : JsString :=
  Js.lit "OTP will be sent via Mobile Number for verification (Simulated Other Location).".
Definition msgEnterOtp : JsString := Js.lit " Please enter mock OTP '123456'.".

(** [handleSubmitAttempt]: the new state and the text alerted, if any. *)
Definition handleSubmitAttempt (isSouthIndiaSimulated : bool)
  (mockUserStore : list (JsString * StoredUser)) (s : State)
  : State * option JsString :=
  if Js.falsy (email s) || Js.falsy (password s) then
    (setLoginError msgRequired s, None)
  else
    let s1 := setLoginError [] s in
    match Dict.lookup (email s) mockUserStore with
    | None => (setLoginError msgInvalid s1, None)
    | Some u =>
        if negb (Js.eqb (passwordHash u) (password s)) then
          (setLoginError msgInvalid s1, None)
        else
          let message :=
            if isSouthIndiaSimulated then msgOtpByEmail else msgOtpByMobile in
          (showOtp message s1, Some (message ++ msgEnterOtp))
    end.

(** [handleOtpSubmit]: the new state and the arguments of [onLogin], if
    it is called. *)
Definition handleOtpSubmit (s : State) : State * option (JsString * JsString) :=
  if Js.eqb (otp s) mockOtp then (s, Some (email s, otp s))
  else (setLoginError msgInvalidOtp s, None).

End LoginPage.

Module SignupPage.

Record State := {
  username : JsString;
  email : JsString;
  password : JsString;
  otp : JsString;
  showOtpInput : bool;
  signupError : JsString
}.

Definition initial : State :=
  {| username := []; email := []; password := []; otp := [];
     showOtpInput := false; signupError := [] |}.

Definition setUsername (v : JsString) (s : State) : State :=
  {| username := v; email := email s; password := password s; otp := otp s;
     showOtpInput := showOtpInput s; signupError := signupError s |}.

Definition setEmail (v : JsString) (s : State) : State :=
  {| username := username s; email := v; password := password s;
     otp := otp s; showOtpInput := showOtpInput s;
     signupError := signupError s |}.

Definition setPassword (v : JsString) (s : State) : State :=
  {| username := username s; email := email s; password := v; otp := otp s;
     showOtpInput := showOtpInput s; signupError := signupError s |}.

Definition setOtp (v : JsString) (s : State) : State :=
  {| username := username s; email := email s; password := password s;
     otp := v; showOtpInput := showOtpInput s;
     signupError := signupError s |}.

Definition setSignupError (v : JsString) (s : State) : State :=
  {| username := username s; email := email s; password := password s;
     otp := otp s; showOtpInput := showOtpInput s; signupError := v |}.

Definition setShowOtpInput (b : bool) (s : State) : State :=
  {| username := username s; email := email s; password := password s;
     otp := otp s; showOtpInput := b; signupError := signupError s |}.

Definition msgRequired : JsString := Js.lit "All fields are required.".
Definition msgExists : JsString :=
  Js.lit "User with this email already exists. Please login.".
Definition msgInvalidOtp : JsString := Js.lit "Invalid OTP.".
Definition msgOtpSent : JsString :=
  Js.lit "Mock OTP '123456' has been sent to your email. Please enter it below.".

(** [handleSubmitAttempt]: the new state, the store after it, and the
    text alerted, if any. The user is stored before the OTP is asked
    for. *)
Definition handleSubmitAttempt
  (mockUserStore : list (JsString * StoredUser)) (s : State)
  : State * list (JsString * StoredUser) * option JsString :=
  if Js.falsy (username s) || Js.falsy (email s) || Js.falsy (password s) then
    (setSignupError msgRequired s, mockUserStore, None)
  else
    let s1 := setSignupError [] s in
    match Dict.lookup (email s) mockUserStore with
    | Some _ => (setSignupError msgExists s1, mockUserStore, None)
    | None =>
        (setShowOtpInput true s1,
         Dict.assign (email s)
           {| userDetails :=
                {| Engagement.username := username s;
                   Engagement.email := email s |};
              passwordHash := password s |}
           mockUserStore,
         Some msgOtpSent)
    end.

(** [handleOtpSubmit]: the new state and the arguments of [onSignup], if
    it is called. *)
Definition handleOtpSubmit (s : State)
  : State * option (JsString * JsString * JsString) :=
  if Js.eqb (otp s) mockOtp then (s, Some (username s, email s, otp s))
  else (setSignupError msgInvalidOtp s, None).

End SignupPage.

Module App.

Inductive Page := login | signup | home | library | subscriptions | watch.

Inductive Theme := light | dark.

Definition pageEqb (a b : Page) : bool :=
  match a, b with
  | login, login | signup, signup | home, home | library, library
  | subscriptions, subscriptions | watch, watch => true
  | _, _ => false
  end.

(** The items of [localStorage] that [App] reads and writes.
    [item_isAuthenticated] says whether the item is there (it is only
    ever written as ['true']); [item_currentUser] is the JSON text of a
    user or of [null]. *)
Record Storage := {
  item_isAuthenticated : bool;
  item_currentUser : option (option Engagement.User);
  item_currentPage : option Page;
  item_currentPlanId : option JsString;
  item_userPlan : list (JsString * JsString)
}.

Definition emptyStorage : Storage :=
  {| item_isAuthenticated := false; item_currentUser := None;
     item_currentPage := None; item_currentPlanId := None;
     item_userPlan := [] |}.

(** What [alert] showed. *)
Inductive Alert :=
| AlertText (msg : JsString)
| LoginWelcome (username : JsString)
| LoginFailed
| SignupWelcome (username : JsString)
| SignupFailed
| LoggedOut
| PaymentDone (plan : Playback.Plan)
| PleaseLogin.

(** The component: its six state cells, the state of the page component
    it renders when that is [LoginPage] or [SignupPage], and what it acts
    on: [localStorage], [mockUserStore], the hour [new Date().getHours()]
    reads, and the alerts shown, oldest first. *)
Record App := {
  isAuthenticated : bool;
  currentUser : option Engagement.User;
  currentPage : Page;
  currentPlanId : JsString;
  theme : Theme;
  isSouthIndiaSimulated : bool;
  loginPage : LoginPage.State;
  signupPage : SignupPage.State;
  localStorage : Storage;
  mockUserStore : list (JsString * StoredUser);
  hour : Z;
  alerts : list Alert
}.

Definition setIsAuthenticated (b : bool) (s : App) : App :=
  {| isAuthenticated := b; currentUser := currentUser s;
     currentPage := currentPage s; currentPlanId := currentPlanId s;
     theme := theme s; isSouthIndiaSimulated := isSouthIndiaSimulated s;
     loginPage := loginPage s; signupPage := signupPage s;
     localStorage := localStorage s; mockUserStore := mockUserStore s;
     hour := hour s; alerts := alerts s |}.

Definition setCurrentUser (u : option Engagement.User) (s : App) : App :=
  {| isAuthenticated := isAuthenticated s; currentUser := u;
     currentPage := currentPage s; currentPlanId := currentPlanId s;
     theme := theme s; isSouthIndiaSimulated := isSouthIndiaSimulated s;
     loginPage := loginPage s; signupPage := signupPage s;
     localStorage := localStorage s; mockUserStore := mockUserStore s;
     hour := hour s; alerts := alerts s |}.

Definition setCurrentPage (p : Page) (s : App) : App :=
  {| isAuthenticated := isAuthenticated s; currentUser := currentUser s;
     currentPage := p; currentPlanId := currentPlanId s;
     theme := theme s; isSouthIndiaSimulated := isSouthIndiaSimulated s;
     loginPage := loginPage s; signupPage := signupPage s;
     localStorage := localStorage s; mockUserStore := mockUserStore s;
     hour := hour s; alerts := alerts s |}.

Definition setCurrentPlanId (i : JsString) (s : App) : App :=
  {| isAuthenticated := isAuthenticated s; currentUser := currentUser s;
     currentPage := currentPage s; currentPlanId := i;
     theme := theme s; isSouthIndiaSimulated := isSouthIndiaSimulated s;
     loginPage := loginPage s; signupPage := signupPage s;
     localStorage := localStorage s; mockUserStore := mockUserStore s;
     hour := hour s; alerts := alerts s |}.

Definition setTheme (t : Theme) (s : App) : App :=
  {| isAuthenticated := isAuthenticated s; currentUser := currentUser s;
     currentPage := currentPage s; currentPlanId := currentPlanId s;
     theme := t; isSouthIndiaSimulated := isSouthIndiaSimulated s;
     loginPage := loginPage s; signupPage := signupPage s;
     localStorage := localStorage s; mockUserStore := mockUserStore s;
     hour := hour s; alerts := alerts s |}.

Definition setIsSouthIndiaSimulated (b : bool) (s : App) : App :=
  {| isAuthenticated := isAuthenticated s; currentUser := currentUser s;
     currentPage := currentPage s; currentPlanId := currentPlanId s;
     theme := theme s; isSouthIndiaSimulated := b;
     loginPage := loginPage s; signupPage := signupPage s;
     localStorage := localStorage s; mockUserStore := mockUserStore s;
     hour := hour s; alerts := alerts s |}.

Definition setLoginPage (l : LoginPage.State) (s : App) : App :=
  {| isAuthenticated := isAuthenticated s; currentUser := currentUser s;
     currentPage := currentPage s; currentPlanId := currentPlanId s;
     theme := theme s; isSouthIndiaSimulated := isSouthIndiaSimulated s;
     loginPage := l; signupPage := signupPage s;
     localStorage := localStorage s; mockUserStore := mockUserStore s;
     hour := hour s; alerts := alerts s |}.

Definition setSignupPage (l : SignupPage.State) (s : App) : App :=
  {| isAuthenticated := isAuthenticated s; currentUser := currentUser s;
     currentPage := currentPage s; currentPlanId := currentPlanId s;
     theme := theme s; isSouthIndiaSimulated := isSouthIndiaSimulated s;
     loginPage := loginPage s; signupPage := l;
     localStorage := localStorage s; mockUserStore := mockUserStore s;
     hour := hour s; alerts := alerts s |}.

Definition setLocalStorage (st : Storage) (s : App) : App :=
  {| isAuthenticated := isAuthenticated s; currentUser := currentUser s;
     currentPage := currentPage s; currentPlanId := currentPlanId s;
     theme := theme s; isSouthIndiaSimulated := isSouthIndiaSimulated s;
     loginPage := loginPage s; signupPage := signupPage s;
     localStorage := st; mockUserStore := mockUserStore s;
     hour := hour s; alerts := alerts s |}.

Definition setMockUserStore (m : list (JsString * StoredUser)) (s : App)
  : App :=
  {| isAuthenticated := isAuthenticated s; currentUser := currentUser s;
     currentPage := currentPage s; currentPlanId := currentPlanId s;
     theme := theme s; isSouthIndiaSimulated := isSouthIndiaSimulated s;
     loginPage := loginPage s; signupPage := signupPage s;
     localStorage := localStorage s; mockUserStore := m;
     hour := hour s; alerts := alerts s |}.

Definition setHour (h : Z) (s : App) : App :=
  {| isAuthenticated := isAuthenticated s; currentUser := currentUser s;
     currentPage := currentPage s; currentPlanId := currentPlanId s;
     theme := theme s; isSouthIndiaSimulated := isSouthIndiaSimulated s;
     loginPage := loginPage s; signupPage := signupPage s;
     localStorage := localStorage s; mockUserStore := mockUserStore s;
     hour := h; alerts := alerts s |}.

Definition alert (a : Alert) (s : App) : App :=
  {| isAuthenticated := isAuthenticated s; currentUser := currentUser s;
     currentPage := currentPage s; currentPlanId := currentPlanId s;
     theme := theme s; isSouthIndiaSimulated := isSouthIndiaSimulated s;
     loginPage := loginPage s; signupPage := signupPage s;
     localStorage := localStorage s; mockUserStore := mockUserStore s;
     hour := hour s; alerts := alerts s ++ [a] |}.

(** [localStorage.setItem('userPlan_' + email, planId)]. *)
Definition storeUserPlan (email planId : JsString) (st : Storage) : Storage :=
  {| item_isAuthenticated := item_isAuthenticated st;
     item_currentUser := item_currentUser st;
     item_currentPage := item_currentPage st;
     item_currentPlanId := item_currentPlanId st;
     item_userPlan := Dict.assign email planId (item_userPlan st) |}.

(** The three [removeItem] calls of [handleLogout] and of the second
    effect. *)
Definition removeSession (st : Storage) : Storage :=
  {| item_isAuthenticated := false;
     item_currentUser := None;
     item_currentPage := None;
     item_currentPlanId := item_currentPlanId st;
     item_userPlan := item_userPlan st |}.

(** [plans.find(p => p.id === currentPlanId) || plans[0]]. *)
Definition planOf (planId : JsString) : Playback.Plan :=
  match find (fun p => Js.eqb (Playback.id p) planId) Playback.plans with
  | Some p => p
  | None => Playback.freePlan
  end.

Definition currentPlan (s : App) : Playback.Plan := planOf (currentPlanId s).

(** *** The effects *)

(** The first effect, which depends on [currentPlanId]. *)
Definition planIdEffect (s : App) : App :=
  setLocalStorage
    {| item_isAuthenticated := item_isAuthenticated (localStorage s);
       item_currentUser := item_currentUser (localStorage s);
       item_currentPage := item_currentPage (localStorage s);
       item_currentPlanId := Some (currentPlanId s);
       item_userPlan := item_userPlan (localStorage s) |} s.

(** The second effect, which depends on [isAuthenticated], [currentUser]
    and [currentPage]. *)
Definition authEffect (s : App) : App :=
  if isAuthenticated s then
    setLocalStorage
      {| item_isAuthenticated := true;
         item_currentUser := Some (currentUser s);
         item_currentPage := Some (currentPage s);
         item_currentPlanId := item_currentPlanId (localStorage s);
         item_userPlan := item_userPlan (localStorage s) |} s
  else setLocalStorage (removeSession (localStorage s)) s.

(** The theme effect, which depends on [isSouthIndiaSimulated]. *)
Definition themeEffect (s : App) : App :=
  let currentHour := hour s in
  let newTheme :=
    if isSouthIndiaSimulated s
       && ((10 <=? currentHour)%Z && (currentHour <? 12)%Z)
    then light else dark in
  setTheme newTheme s.

Definition isSome {A : Type} (o : option A) : bool :=
  match o with Some _ => true | None => false end.

(** Has a dependency of the second effect changed since the render
    [prev]? [userReplaced] says that the handler gave [setCurrentUser] a
    new object. *)
Definition authDepsChanged (prev : App) (userReplaced : bool) (s : App)
  : bool :=
  negb (Bool.eqb (isAuthenticated prev) (isAuthenticated s))
  || userReplaced
  || negb (Bool.eqb (isSome (currentUser prev)) (isSome (currentUser s)))
  || negb (pageEqb (currentPage prev) (currentPage s)).

(** *** What is rendered *)

Inductive Rendered := RSignup | RLogin | RHome | RLibrary | RSubscriptions.

(** [renderPage]. *)
Definition renderPage (s : App) : Rendered :=
  if negb (isAuthenticated s) then
    match currentPage s with signup => RSignup | _ => RLogin end
  else
    match currentPage s with
    | home => RHome
    | library => RLibrary
    | subscriptions => RSubscriptions
    | _ => RHome
    end.

(** A page component that is not rendered has no state: when it is
    rendered again it starts from its initial state. *)
Definition unmountHidden (s : App) : App :=
  let s1 :=
    match renderPage s with
    | RLogin => s
    | _ => setLoginPage LoginPage.initial s
    end in
  match renderPage s1 with
  | RSignup => s1
  | _ => setSignupPage SignupPage.initial s1
  end.

(** The render after a handler turned the rendered [prev] into [s]: the
    effects whose dependencies changed run in the order they are
    declared. *)
Definition commit (prev : App) (userReplaced : bool) (s : App) : App :=
  let s1 :=
    if negb (Js.eqb (currentPlanId prev) (currentPlanId s))
    then planIdEffect s else s in
  let s2 := if authDepsChanged prev userReplaced s then authEffect s1 else s1 in
  let s3 :=
    if negb (Bool.eqb (isSouthIndiaSimulated prev) (isSouthIndiaSimulated s))
    then themeEffect s2 else s2 in
  unmountHidden s3.

(** The component after a page load at hour [h]: the state initialisers
    read [localStorage], the user store is empty again, and the three
    effects run. *)
Definition mount (st : Storage) (h : Z) : App :=
  let auth := item_isAuthenticated st in
  themeEffect
    (authEffect
       (planIdEffect
          {| isAuthenticated := auth;
             currentUser :=
               match item_currentUser st with Some u => u | None => None end;
             currentPage :=
               if auth then
                 match item_currentPage st with Some p => p | None => home end
               else login;
             currentPlanId :=
               match item_currentPlanId st with
               | Some i => if Js.falsy i then Playback.id Playback.freePlan else i
               | None => Playback.id Playback.freePlan
               end;
             theme := light;
             isSouthIndiaSimulated := false;
             loginPage := LoginPage.initial;
             signupPage := SignupPage.initial;
             localStorage := st;
             mockUserStore := [];
             hour := h;
             alerts := [] |})).

(** *** The handlers *)

(** [handleNavigate]. *)
Definition handleNavigate (page : Page) (s : App) : App :=
  match page with
  | login | signup =>
      if isAuthenticated s then setCurrentPage home s
      else setCurrentPage page s
  | _ => setCurrentPage page s
  end.

(** [handleLogin]; the OTP was checked by [LoginPage]. *)
Definition handleLogin (email : JsString) (s : App) : App :=
  match Dict.lookup email (mockUserStore s) with
  | Some user =>
      let s1 := setCurrentUser (Some (userDetails user)) s in
      let s2 := setIsAuthenticated true s1 in
      let s3 := setCurrentPage home s2 in
      let s4 := alert (LoginWelcome (Engagement.username (userDetails user))) s3 in
      let userPlan :=
        match Dict.lookup email (item_userPlan (localStorage s4)) with
        | Some i => if Js.falsy i then Playback.id Playback.freePlan else i
        | None => Playback.id Playback.freePlan
        end in
      setCurrentPlanId userPlan s4
  | None => alert LoginFailed s
  end.

(** [handleSignup]; the user was stored by [SignupPage]. *)
Definition handleSignup (username email : JsString) (s : App) : App :=
  match Dict.lookup email (mockUserStore s) with
  | Some user =>
      let s1 := setCurrentUser (Some (userDetails user)) s in
      let s2 := setIsAuthenticated true s1 in
      let s3 := setCurrentPage home s2 in
      let s4 := setCurrentPlanId (Playback.id Playback.freePlan) s3 in
      let s5 :=
        setLocalStorage
          (storeUserPlan email (Playback.id Playback.freePlan) (localStorage s4))
          s4 in
      alert (SignupWelcome username) s5
  | None => alert SignupFailed s
  end.

(** [handleLogout]. *)
Definition handleLogout (s : App) : App :=
  let s1 := setIsAuthenticated false s in
  let s2 := setCurrentUser None s1 in
  let s3 := setCurrentPage login s2 in
  let s4 := setLocalStorage (removeSession (localStorage s3)) s3 in
  alert LoggedOut s4.

(** [handleUpgradePlan]. *)
Definition handleUpgradePlan (planId : JsString) (s : App) : App :=
  match find (fun p => Js.eqb (Playback.id p) planId) Playback.plans,
        currentUser s with
  | Some newPlan, Some u =>
      let s1 := setCurrentPlanId planId s in
      let s2 :=
        setLocalStorage
          (storeUserPlan (Engagement.email u) planId (localStorage s1)) s1 in
      alert (PaymentDone newPlan) s2
  | _, None => setCurrentPage login (alert PleaseLogin s)
  | None, Some _ => s
  end.

(** *** What can happen *)

Inductive LoginField := LEmail | LPassword | LOtp.
Inductive SignupField := SUsername | SEmail | SPassword | SOtp.

(** The user's actions on what is rendered, the passing of time, and a
    reload of the page. *)
Inductive Event :=
| ClickLogo
| ClickNav (p : Page)
| ClickSignUp
| ClickLogIn
| ClickLogout
| ToggleSouthIndia
| HourIs (h : Z)
| LoginInput (f : LoginField) (v : JsString)
| LoginContinue
| LoginOtpSubmit
| LoginToSignup
| SignupInput (f : SignupField) (v : JsString)
| SignupSubmit
| SignupOtpSubmit
| SignupToLogin
| ClickUpgrade (planId : JsString)
| Reload.

Definition optAlert (o : option JsString) (s : App) : App :=
  match o with Some m => alert (AlertText m) s | None => s end.

(** The handler of an event, with whether it gave [setCurrentUser] a new
    object. A control that is not rendered, or is disabled, delivers no
    event, and the browser does not submit a form with an empty required
    field or an email input without an [@]. *)
Definition handle (e : Event) (s : App) : App * bool :=
  match e with
  | ClickLogo =>
      (handleNavigate (if isAuthenticated s then home else login) s, false)
  | ClickNav p =>
      if isAuthenticated s
         && (pageEqb p home || pageEqb p library || pageEqb p subscriptions)
      then (handleNavigate p s, false) else (s, false)
  | ClickSignUp =>
      if isAuthenticated s && isSome (currentUser s) then (s, false)
      else (handleNavigate signup s, false)
  | ClickLogIn =>
      if isAuthenticated s && isSome (currentUser s) then (s, false)
      else (handleNavigate login s, false)
  | ClickLogout =>
      if isAuthenticated s && isSome (currentUser s)
      then (handleLogout s, false) else (s, false)
  | ToggleSouthIndia =>
      (setIsSouthIndiaSimulated (negb (isSouthIndiaSimulated s)) s, false)
  | HourIs h => (setHour h s, false)
  | LoginInput f v =>
      match renderPage s, f, LoginPage.showOtpInput (loginPage s) with
      | RLogin, LEmail, false =>
          (setLoginPage (LoginPage.setEmail v (loginPage s)) s, false)
      | RLogin, LPassword, false =>
          (setLoginPage (LoginPage.setPassword v (loginPage s)) s, false)
      | RLogin, LOtp, true =>
          (setLoginPage (LoginPage.setOtp v (loginPage s)) s, false)
      | _, _, _ => (s, false)
      end
  | LoginContinue =>
      match renderPage s with
      | RLogin =>
          if negb (LoginPage.showOtpInput (loginPage s))
             && emailInputValid (LoginPage.email (loginPage s))
             && negb (Js.falsy (LoginPage.password (loginPage s)))
          then
            let '(l, a) :=
              LoginPage.handleSubmitAttempt (isSouthIndiaSimulated s)
                (mockUserStore s) (loginPage s) in
            (optAlert a (setLoginPage l s), false)
          else (s, false)
      | _ => (s, false)
      end
  | LoginOtpSubmit =>
      match renderPage s with
      | RLogin =>
          if LoginPage.showOtpInput (loginPage s)
             && negb (Js.falsy (LoginPage.otp (loginPage s)))
          then
            match LoginPage.handleOtpSubmit (loginPage s) with
            | (l, Some (email, _)) =>
                let s1 := handleLogin email (setLoginPage l s) in
                (s1, isSome (Dict.lookup email (mockUserStore s)))
            | (l, None) => (setLoginPage l s, false)
            end
          else (s, false)
      | _ => (s, false)
      end
  | LoginToSignup =>
      match renderPage s with
      | RLogin => (setCurrentPage signup s, false)
      | _ => (s, false)
      end
  | SignupInput f v =>
      match renderPage s, f, SignupPage.showOtpInput (signupPage s) with
      | RSignup, SUsername, false =>
          (setSignupPage (SignupPage.setUsername v (signupPage s)) s, false)
      | RSignup, SEmail, false =>
          (setSignupPage (SignupPage.setEmail v (signupPage s)) s, false)
      | RSignup, SPassword, false =>
          (setSignupPage (SignupPage.setPassword v (signupPage s)) s, false)
      | RSignup, SOtp, true =>
          (setSignupPage (SignupPage.setOtp v (signupPage s)) s, false)
      | _, _, _ => (s, false)
      end
  | SignupSubmit =>
      match renderPage s with
      | RSignup =>
          if negb (SignupPage.showOtpInput (signupPage s))
             && negb (Js.falsy (SignupPage.username (signupPage s)))
             && emailInputValid (SignupPage.email (signupPage s))
             && negb (Js.falsy (SignupPage.password (signupPage s)))
          then
            let '(l, m, a) :=
              SignupPage.handleSubmitAttempt (mockUserStore s) (signupPage s) in
            (optAlert a (setMockUserStore m (setSignupPage l s)), false)
          else (s, false)
      | _ => (s, false)
      end
  | SignupOtpSubmit =>
      match renderPage s with
      | RSignup =>
          if SignupPage.showOtpInput (signupPage s)
             && negb (Js.falsy (SignupPage.otp (signupPage s)))
          then
            match SignupPage.handleOtpSubmit (signupPage s) with
            | (l, Some (username, email, _)) =>
                let s1 := handleSignup username email (setSignupPage l s) in
                (s1, isSome (Dict.lookup email (mockUserStore s)))
            | (l, None) => (setSignupPage l s, false)
            end
          else (s, false)
      | _ => (s, false)
      end
  | SignupToLogin =>
      match renderPage s with
      | RSignup => (setCurrentPage login s, false)
      | _ => (s, false)
      end
  | ClickUpgrade planId =>
      match renderPage s with
      | RSubscriptions =>
          if existsb (fun p => Js.eqb (Playback.id p) planId) Playback.plans
             && negb (Js.eqb planId (currentPlanId s))
          then (handleUpgradePlan planId s, false) else (s, false)
      | _ => (s, false)
      end
  | Reload => (s, false)
  end.

(** A handler runs, then React renders; a reload mounts the application
    anew from [localStorage]. *)
Definition step (e : Event) (s : App) : App :=
  match e with
  | Reload => mount (localStorage s) (hour s)
  | _ => let '(s1, userReplaced) := handle e s in commit s userReplaced s1
  end.

Definition run (es : list Event) (s : App) : App :=
  fold_left (fun s e => step e s) es s.

(** The states of the application, from a first visit at some hour. *)
Inductive reachable : App -> Prop :=
| reach_first h : reachable (mount emptyStorage h)
| reach_step e s : reachable s -> reachable (step e s).

End App.

(* ------------------------------------------------------------------ *)
(** ** Notions used to state properties of the application shell *)

Module AppNotions.

Import App.

(** The id of one of the four plans. *)
Definition knownPlanId (i : JsString) : Prop :=
  In i (map Playback.id Playback.plans).

(** [localStorage] holds the session and the plan id of the state. *)
Definition mirrored (s : App) : Prop :=
  item_isAuthenticated (localStorage s) = isAuthenticated s
  /\ item_currentUser (localStorage s)
     = (if isAuthenticated s then Some (currentUser s) else None)
  /\ item_currentPage (localStorage s)
     = (if isAuthenticated s then Some (currentPage s) else None)
  /\ item_currentPlanId (localStorage s) = Some (currentPlanId s).

(** Every stored user is stored under the own email, which passed the
    email input, with a name and a password that are not empty. *)
Definition storeSound (m : list (JsString * StoredUser)) : Prop :=
  forall k u,
    Dict.lookup k m = Some u ->
    Engagement.email (userDetails u) = k
    /\ emailInputValid k = true
    /\ Engagement.username (userDetails u) <> []
    /\ passwordHash u <> [].

(** A page that shows its OTP form has checked its first form against
    the store: [LoginPage] found the email with the password typed,
    [SignupPage] stored what was typed. *)
Definition otpStageSound (s : App) : Prop :=
  (LoginPage.showOtpInput (loginPage s) = true ->
     exists u,
       Dict.lookup (LoginPage.email (loginPage s)) (mockUserStore s) = Some u
       /\ passwordHash u = LoginPage.password (loginPage s))
  /\ (SignupPage.showOtpInput (signupPage s) = true ->
        Dict.lookup (SignupPage.email (signupPage s)) (mockUserStore s)
        = Some {| userDetails :=
                    {| Engagement.username := SignupPage.username (signupPage s);
                       Engagement.email := SignupPage.email (signupPage s) |};
                  passwordHash := SignupPage.password (signupPage s) |}).

(** What holds in every state of the application. *)
Definition consistent (s : App) : Prop :=
  (isAuthenticated s = true <-> currentUser s <> None)
  /\ (isAuthenticated s = true ->
        currentPage s <> login /\ currentPage s <> signup)
  /\ mirrored s
  /\ knownPlanId (currentPlanId s)
  /\ (forall k i,
        Dict.lookup k (item_userPlan (localStorage s)) = Some i ->
        knownPlanId i)
  /\ (theme s = light -> isSouthIndiaSimulated s = true)
  /\ (renderPage s <> RLogin -> loginPage s = LoginPage.initial)
  /\ (renderPage s <> RSignup -> signupPage s = SignupPage.initial)
  /\ storeSound (mockUserStore s)
  /\ otpStageSound s.

(** [localStorage.getItem('userPlan_' + email) || plans[0].id]. *)
Definition storedPlanOr (email : JsString) (s : App) : JsString :=
  match Dict.lookup email (item_userPlan (localStorage s)) with
  | Some i => if Js.falsy i then Playback.id Playback.freePlan else i
  | None => Playback.id Playback.freePlan
  end.

(** What a handler that turned state [s] into [s1] leaves for the render
    after it, [r] saying whether it gave [setCurrentUser] a new object. *)
Definition handled (s s1 : App) (r : bool) : Prop :=
  (isAuthenticated s1 = true <-> currentUser s1 <> None)
  /\ (isAuthenticated s1 = true ->
        currentPage s1 <> login /\ currentPage s1 <> signup)
  /\ item_currentPlanId (localStorage s1) = item_currentPlanId (localStorage s)
  /\ ((item_isAuthenticated (localStorage s1)
       = item_isAuthenticated (localStorage s)
       /\ item_currentUser (localStorage s1) = item_currentUser (localStorage s)
       /\ item_currentPage (localStorage s1) = item_currentPage (localStorage s)
       /\ (currentUser s1 = currentUser s \/ r = true))
      \/ (isAuthenticated s1 = false
          /\ item_isAuthenticated (localStorage s1) = false
          /\ item_currentUser (localStorage s1) = None
          /\ item_currentPage (localStorage s1) = None))
  /\ knownPlanId (currentPlanId s1)
  /\ (forall k i,
        Dict.lookup k (item_userPlan (localStorage s1)) = Some i ->
        knownPlanId i)
  /\ theme s1 = theme s
  /\ storeSound (mockUserStore s1)
  /\ otpStageSound s1.

End AppNotions.

(* ------------------------------------------------------------------ *)
(** ** Sessions of the application shell used as examples *)

Module AppScenario.

Import App.

Definition aliceEmail : JsString := Js.lit "alice@example.com".
Definition alicePassword : JsString := Js.lit "secret".

(** A first visit at eleven in the morning. *)
Definition firstVisit : App := mount emptyStorage 11.

(** The signup form was filled in and sent, and the OTP typed. *)
Definition registering : App :=
  run [ClickSignUp;
       SignupInput SUsername (Js.lit "alice");
       SignupInput SEmail aliceEmail;
       SignupInput SPassword alicePassword;
       SignupSubmit;
       SignupInput SOtp mockOtp]
    firstVisit.

Definition signedUp : App := step SignupOtpSubmit registering.

(** The new user bought the gold plan. *)
Definition upgraded : App :=
  run [ClickNav subscriptions; ClickUpgrade (Js.lit "gold")] signedUp.

(** With alice stored but her OTP not sent, the signup page is left and
    opened again, and the form filled in with her email, another name
    and another password. *)
Definition duplicateSignup : App :=
  run [SignupToLogin;
       LoginToSignup;
       SignupInput SUsername (Js.lit "mallory");
       SignupInput SEmail aliceEmail;
       SignupInput SPassword (Js.lit "other")]
    registering.

(** The user logged out, filled in the login form and typed the OTP. *)
Definition returning : App :=
  run [ClickLogout;
       LoginInput LEmail aliceEmail;
       LoginInput LPassword alicePassword;
       LoginContinue;
       LoginInput LOtp mockOtp]
    upgraded.

End AppScenario.

(* ------------------------------------------------------------------ *)
(** ** The call section: [VoIPSection]

    A [MediaStream] is known by the number of the request that produced
    it. [handleStartCall] and [handleScreenShare] wait for the browser:
    the part after the [await] runs when the request is settled, and a
    second click can come before that. *)

Module VoIP.

Inductive Alert :=
| CallStarted
| NoMediaAccess
| CallEnded
| StartCallFirst
| ShareAttempt
| ShareAcquired
| ShareFailed
| Recording
| CannotRecord.

(** The two state cells, the [srcObject] of the two video elements, the
    streams whose tracks were stopped, the requests that are not settled
    yet, and the alerts shown, oldest first. *)
Record VoIPSection := {
  localStream : option N;
  isCallActive : bool;
  localSrcObject : option N;
  remoteSrcObject : option N;
  stopped : list N;
  pendingUserMedia : nat;
  pendingDisplayMedia : nat;
  alerts : list Alert
}.

Definition mount : VoIPSection :=
  {| localStream := None; isCallActive := false; localSrcObject := None;
     remoteSrcObject := None; stopped := []; pendingUserMedia := 0;
     pendingDisplayMedia := 0; alerts := [] |}.

Definition alert (a : Alert) (s : VoIPSection) : VoIPSection :=
  {| localStream := localStream s; isCallActive := isCallActive s;
     localSrcObject := localSrcObject s; remoteSrcObject := remoteSrcObject s;
     stopped := stopped s; pendingUserMedia := pendingUserMedia s;
     pendingDisplayMedia := pendingDisplayMedia s;
     alerts := alerts s ++ [a] |}.

(** [handleStartCall] up to the [await]. *)
Definition handleStartCall (s : VoIPSection) : VoIPSection :=
  if isCallActive s then s
  else
    {| localStream := localStream s; isCallActive := isCallActive s;
       localSrcObject := localSrcObject s;
       remoteSrcObject := remoteSrcObject s;
       stopped := stopped s; pendingUserMedia := S (pendingUserMedia s);
       pendingDisplayMedia := pendingDisplayMedia s; alerts := alerts s |}.

(** [handleStartCall] after the [await]: [getUserMedia] gave a stream
    or was rejected. *)
Definition handleStartCall_resume (r : option N) (s : VoIPSection)
  : VoIPSection :=
  match pendingUserMedia s with
  | O => s
  | S n =>
      match r with
      | Some stream =>
          alert CallStarted
            {| localStream := Some stream; isCallActive := true;
               localSrcObject := Some stream;
               remoteSrcObject := remoteSrcObject s;
               stopped := stopped s; pendingUserMedia := n;
               pendingDisplayMedia := pendingDisplayMedia s;
               alerts := alerts s |}
      | None =>
          alert NoMediaAccess
            {| localStream := localStream s; isCallActive := isCallActive s;
               localSrcObject := localSrcObject s;
               remoteSrcObject := remoteSrcObject s;
               stopped := stopped s; pendingUserMedia := n;
               pendingDisplayMedia := pendingDisplayMedia s;
               alerts := alerts s |}
      end
  end.

(** [handleEndCall]. *)
Definition handleEndCall (s : VoIPSection) : VoIPSection :=
  alert CallEnded
    {| localStream := None; isCallActive := false;
       localSrcObject := None; remoteSrcObject := None;
       stopped :=
         match localStream s with
         | Some stream => stopped s ++ [stream]
         | None => stopped s
         end;
       pendingUserMedia := pendingUserMedia s;
       pendingDisplayMedia := pendingDisplayMedia s;
       alerts := alerts s |}.

(** [handleScreenShare] up to the [await]. *)
Definition handleScreenShare (s : VoIPSection) : VoIPSection :=
  if negb (isCallActive s) then alert StartCallFirst s
  else
    let s1 := alert ShareAttempt s in
    {| localStream := localStream s1; isCallActive := isCallActive s1;
       localSrcObject := localSrcObject s1;
       remoteSrcObject := remoteSrcObject s1;
       stopped := stopped s1; pendingUserMedia := pendingUserMedia s1;
       pendingDisplayMedia := S (pendingDisplayMedia s1);
       alerts := alerts s1 |}.

(** [handleScreenShare] after the [await]. *)
Definition handleScreenShare_resume (acquired : bool) (s : VoIPSection)
  : VoIPSection :=
  match pendingDisplayMedia s with
  | O => s
  | S n =>
      alert (if acquired then ShareAcquired else ShareFailed)
        {| localStream := localStream s; isCallActive := isCallActive s;
           localSrcObject := localSrcObject s;
           remoteSrcObject := remoteSrcObject s;
           stopped := stopped s; pendingUserMedia := pendingUserMedia s;
           pendingDisplayMedia := n; alerts := alerts s |}
  end.

(** [handleRecordSession]. *)
Definition handleRecordSession (s : VoIPSection) : VoIPSection :=
  let s1 := alert Recording s in
  if negb (App.isSome (localStream s1)) && negb (isCallActive s1)
  then alert CannotRecord s1 else s1.

(** The clicks, and the browser settling a request. The first button is
    Start Call while no call is active and End Call otherwise; the
    other two buttons are disabled while no call is active. *)
Inductive Event :=
| ClickStart
| ClickEnd
| ClickShare
| ClickRecord
| UserMedia (r : option N)
| DisplayMedia (acquired : bool).

Definition step (e : Event) (s : VoIPSection) : VoIPSection :=
  match e with
  | ClickStart => if isCallActive s then s else handleStartCall s
  | ClickEnd => if isCallActive s then handleEndCall s else s
  | ClickShare => if isCallActive s then handleScreenShare s else s
  | ClickRecord => if isCallActive s then handleRecordSession s else s
  | UserMedia r => handleStartCall_resume r s
  | DisplayMedia a => handleScreenShare_resume a s
  end.

Definition run (es : list Event) (s : VoIPSection) : VoIPSection :=
  fold_left (fun s e => step e s) es s.

Inductive reachable : VoIPSection -> Prop :=
| reach_mount : reachable mount
| reach_step e s : reachable s -> reachable (step e s).

(** Start Call is clicked twice before the browser answers, then both
    requests are granted. *)
Definition twoGrants : VoIPSection :=
  run [ClickStart; ClickStart; UserMedia (Some 1%N); UserMedia (Some 2%N)]
    mount.

End VoIP.

(* ------------------------------------------------------------------ *)
(** ** The home page: [HomePage]

    [HomePage] renders the player with the plan in force, and the comment
    section with the current user. *)

Module HomePage.

(** The comment section as [HomePage] mounts it, with the comments found
    in [localStorage]. *)
Definition commentSection (aiConfigured : bool)
  (saved : option (list Engagement.Comment)) (s : App.App)
  : Engagement.CommentSection :=
  Engagement.mount aiConfigured (App.currentUser s) saved.

End HomePage.

(* ------------------------------------------------------------------ *)
(** ** String comparison *)

Module JsFacts.

Lemma eqb_eq (a b : JsString) : Js.eqb a b = true <-> a = b.
Proof.
  revert b; induction a as [|x a IH]; intros [|y b]; simpl;
    try (split; [discriminate | discriminate]); try tauto.
  rewrite andb_true_iff, N.eqb_eq, IH.
  split; [intros [-> ->]; reflexivity | intros H; inversion H; auto].
Qed.

Lemma eqb_refl (a : JsString) : Js.eqb a a = true.
Proof. apply eqb_eq; reflexivity. Qed.

Lemma eqb_neq (a b : JsString) : Js.eqb a b = false <-> a <> b.
Proof.
  destruct (Js.eqb a b) eqn:E.
  - apply eqb_eq in E. split; [discriminate | congruence].
  - split; [intros _ H; apply eqb_eq in H; congruence | reflexivity].
Qed.

Lemma falsy_nil (s : JsString) : Js.falsy s = true <-> s = [].
Proof. destruct s; simpl; split; congruence. Qed.

Lemma lit_inj (a b : string) : Js.lit a = Js.lit b -> a = b.
Proof.
  unfold Js.lit. intros H.
  rewrite <- (string_of_list_ascii_of_string a),
          <- (string_of_list_ascii_of_string b).
  f_equal.
  revert H. generalize (list_ascii_of_string a) (list_ascii_of_string b).
  induction l as [|x l IH]; intros [|y l']; simpl; try discriminate; auto.
  intros H. injection H as Hxy Hl. f_equal; auto.
  rewrite <- (ascii_N_embedding x), <- (ascii_N_embedding y), Hxy.
  reflexivity.
Qed.

Lemma to_int_proper (n : Z) :
  Z.to_int n <> Decimal.Pos Decimal.Nil /\ Z.to_int n <> Decimal.Neg Decimal.Nil.
Proof.
  destruct n as [|p|p]; simpl; split; try discriminate;
    intros H; injection H as H; exact (DecimalPos.Unsigned.to_uint_nonnil p H).
Qed.

(** [toString] tells integers apart. *)
Lemma toString_inj (n n' : Z) : Js.toString n = Js.toString n' -> n = n'.
Proof.
  unfold Js.toString. intros H. apply lit_inj in H.
  apply DecimalZ.to_int_inj.
  destruct (to_int_proper n) as [Hp Hn].
  destruct (to_int_proper n') as [Hp' Hn'].
  pose proof (NilZero.isi (Z.to_int n) Hp Hn) as E.
  pose proof (NilZero.isi (Z.to_int n') Hp' Hn') as E'.
  rewrite H in E. congruence.
Qed.

End JsFacts.

(* ------------------------------------------------------------------ *)
(** ** Properties of the comment section *)

Module EngagementFacts.

Import Engagement Scenario JsFacts.

(** The class of the regular expression is the specification's allow-list
    widened by every white-space character. *)
Lemma regexClass_spec (c : N) :
  regexClass c = specAllowed c || Js.isWhiteSpace c.
Proof.
  assert (Hsp : c = 32%N -> Js.isWhiteSpace c = true) by (intros ->; reflexivity).
  assert (Hnl : c = 10%N -> Js.isWhiteSpace c = true) by (intros ->; reflexivity).
  unfold regexClass, specAllowed.
  destruct (Js.isWhiteSpace c).
  - rewrite !orb_true_r. reflexivity.
  - destruct (N.eqb_spec c 32) as [E|_]; [specialize (Hsp E); discriminate|].
    destruct (N.eqb_spec c 10) as [E|_]; [specialize (Hnl E); discriminate|].
    rewrite !orb_false_r. reflexivity.
Qed.

Lemma forallb_false_exists (A : Type) (f : A -> bool) (l : list A) :
  forallb f l = false <-> exists x, In x l /\ f x = false.
Proof.
  induction l as [|a l IH]; simpl.
  - split; [discriminate | intros [x [[] _]]].
  - rewrite andb_false_iff, IH. split.
    + intros [H | [x [Hx Hf]]]; eauto.
    + intros [x [[-> | Hx] Hf]]; eauto.
Qed.

Lemma msgLogin_nonempty : msgLogin <> [].
Proof. discriminate. Qed.

Lemma msgEmpty_nonempty : msgEmpty <> [].
Proof. discriminate. Qed.

Lemma msgDisallowed_nonempty : msgDisallowed <> [].
Proof. discriminate. Qed.

(** *** Submitting a comment *)

(** C4, as the claim words it, fails on the code: the text [a<TAB>b] is
    its own trimmed form and holds a tab, which is outside the
    specification's allow-list, and yet the submission is accepted: no
    error is set and the comment is stored as the newest entry. *)
Lemma submit_accepts_tab :
  Js.trim (newCommentText typedTabbed) = tabbed
  /\ In 9%N tabbed /\ specAllowed 9%N = false
  /\ error (handleCommentSubmit 1700000000000 1700000000000 typedTabbed) = []
  /\ map text
       (comments (handleCommentSubmit 1700000000000 1700000000000 typedTabbed))
     = [tabbed].
Proof. vm_compute. repeat split; auto. Qed.

(** C4, amended: [handleCommentSubmit] rejects (sets an error message and
    leaves the collection and its stored copy alone) exactly when no user
    is signed in, or the trimmed text is empty, or the trimmed text holds
    a character that is neither in the specification's allow-list nor a
    white-space character; otherwise it clears the error, puts a new
    comment with no likes, no dislikes and no translation at the head of
    the collection, and stores the collection. *)
Theorem submit_validation (nowId nowTs : Z) (s : CommentSection) :
  let s' := handleCommentSubmit nowId nowTs s in
  let t := Js.trim (newCommentText s) in
  (error s' <> [] <->
     currentUser s = None \/ t = [] \/
     exists c, In c t /\ specAllowed c = false /\ Js.isWhiteSpace c = false)
  /\ (error s' <> [] ->
        comments s' = comments s /\ localStorage s' = localStorage s)
  /\ (error s' = [] ->
        exists u c,
          currentUser s = Some u
          /\ comments s' = c :: comments s
          /\ localStorage s' = Some (comments s')
          /\ newCommentText s' = []
          /\ id c = Js.toString nowId /\ user c = username u
          /\ text c = t /\ timestamp c = nowTs
          /\ likes c = 0%Z /\ dislikes c = 0%Z
          /\ translatedText c = None /\ targetLang c = None).
Proof.
  intros s' t. subst s' t. unfold handleCommentSubmit.
  destruct (currentUser s) as [u|] eqn:Hu.
  2:{ simpl. pose proof msgLogin_nonempty.
      repeat split; auto; intros; congruence. }
  destruct (Js.falsy (Js.trim (newCommentText s))) eqn:Hf.
  { apply falsy_nil in Hf. simpl. pose proof msgEmpty_nonempty.
    repeat split; auto; intros; congruence. }
  assert (Hne : Js.trim (newCommentText s) <> []).
  { intros E. apply falsy_nil in E. congruence. }
  destruct (isValidCommentText (Js.trim (newCommentText s))) eqn:Hv; simpl.
  - split; [|split].
    + split; [congruence|].
      intros [H | [H | [c [Hin [Hs Hw]]]]]; [discriminate | contradiction |].
      unfold isValidCommentText in Hv. rewrite forallb_forall in Hv.
      specialize (Hv c Hin). rewrite regexClass_spec, Hs, Hw in Hv.
      discriminate.
    + congruence.
    + intros _. eexists u, _. repeat split; reflexivity.
  - pose proof msgDisallowed_nonempty.
    split; [|split]; auto; [|intros; congruence].
    split; [|auto]. intros _. right; right.
    unfold isValidCommentText in Hv.
    apply forallb_false_exists in Hv. destruct Hv as [c [Hin Hc]].
    rewrite regexClass_spec in Hc. apply orb_false_iff in Hc.
    exists c. tauto.
Qed.

(** *** Likes and dislikes *)

Section Dislike.

Variable i : JsString.

(** The comments that [handleDislike] keeps. *)
Let kept (l : list Comment) : list Comment :=
  filterBoolean (map (dislikeOne i) l).

Lemma dislikeOne_other (c : Comment) : id c <> i -> dislikeOne i c = Some c.
Proof. intros H. unfold dislikeOne. apply eqb_neq in H. rewrite H. reflexivity. Qed.

Lemma dislikeOne_below (c : Comment) :
  id c = i -> (dislikes c + 1 < 2)%Z ->
  dislikeOne i c = Some (withDislikes c (dislikes c + 1)).
Proof.
  intros H Hd. unfold dislikeOne. apply eqb_eq in H. rewrite H.
  destruct (Z.leb_spec 2 (dislikes c + 1)); [lia | reflexivity].
Qed.

Lemma dislikeOne_reached (c : Comment) :
  id c = i -> (2 <= dislikes c + 1)%Z -> dislikeOne i c = None.
Proof.
  intros H Hd. unfold dislikeOne. apply eqb_eq in H. rewrite H.
  destruct (Z.leb_spec 2 (dislikes c + 1)); [reflexivity | lia].
Qed.

Lemma dislikeOne_cases (c : Comment) :
  (id c <> i /\ dislikeOne i c = Some c)
  \/ (id c = i /\ (dislikes c + 1 < 2)%Z
      /\ dislikeOne i c = Some (withDislikes c (dislikes c + 1)))
  \/ (id c = i /\ (2 <= dislikes c + 1)%Z /\ dislikeOne i c = None).
Proof.
  destruct (Js.eqb (id c) i) eqn:E.
  - apply eqb_eq in E. destruct (Z.lt_ge_cases (dislikes c + 1) 2).
    + right; left. auto using dislikeOne_below.
    + right; right. auto using dislikeOne_reached.
  - apply eqb_neq in E. left. auto using dislikeOne_other.
Qed.

Lemma kept_survivor (l : list Comment) (c : Comment) :
  In c l -> id c = i -> (dislikes c + 1 < 2)%Z ->
  In (withDislikes c (dislikes c + 1)) (kept l).
Proof.
  unfold kept. induction l as [|a l IH]; simpl; [tauto|].
  intros [-> | Hin] Hi Hd.
  - rewrite dislikeOne_below by assumption. left; reflexivity.
  - destruct (dislikeOne i a); simpl; auto.
Qed.

Lemma kept_origin (l : list Comment) (c' : Comment) :
  In c' (kept l) ->
  (id c' <> i /\ In c' l)
  \/ (id c' = i /\ (dislikes c' < 2)%Z
      /\ exists c, In c l /\ id c = i /\ c' = withDislikes c (dislikes c + 1)).
Proof.
  unfold kept. induction l as [|a l IH]; simpl; [tauto|].
  destruct (dislikeOne_cases a) as [[Ha E] | [[Ha [Hd E]] | [Ha [Hd E]]]];
    rewrite E; simpl.
  - intros [<- | H]; [left; auto|].
    destruct (IH H) as [[? ?] | [? [? [c [? ?]]]]]; [left; auto|].
    right. repeat split; auto. exists c. tauto.
  - intros [<- | H].
    + right. simpl. repeat split; auto. exists a. auto.
    + destruct (IH H) as [[? ?] | [? [? [c [? ?]]]]]; [left; auto|].
      right. repeat split; auto. exists c. tauto.
  - intros H.
    destruct (IH H) as [[? ?] | [? [? [c [? ?]]]]]; [left; auto|].
    right. repeat split; auto. exists c. tauto.
Qed.

Lemma kept_other (l : list Comment) (c' : Comment) :
  id c' <> i -> (In c' (kept l) <-> In c' l).
Proof.
  intros Hc. unfold kept. induction l as [|a l IH]; simpl; [tauto|].
  destruct (dislikeOne_cases a) as [[Ha E] | [[Ha [Hd E]] | [Ha [Hd E]]]];
    rewrite E; simpl.
  - tauto.
  - split.
    + intros [<- | H]; [simpl in Hc; contradiction | tauto].
    + intros [-> | H]; [contradiction | tauto].
  - split; [tauto|]. intros [-> | H]; [contradiction | tauto].
Qed.

Lemma removed_iff (l : list Comment) :
  existsb isNull (map (dislikeOne i) l) = true <->
  exists c, In c l /\ id c = i /\ (2 <= dislikes c + 1)%Z.
Proof.
  induction l as [|a l IH]; simpl.
  - split; [discriminate | intros [c [[] _]]].
  - rewrite orb_true_iff, IH.
    destruct (dislikeOne_cases a) as [[Ha E] | [[Ha [Hd E]] | [Ha [Hd E]]]];
      rewrite E; simpl.
    + split.
      * intros [H | [c [? ?]]]; [discriminate | exists c; tauto].
      * intros [c [[-> | ?] [? ?]]]; [contradiction | right; exists c; tauto].
    + split.
      * intros [H | [c [? ?]]]; [discriminate | exists c; tauto].
      * intros [c [[-> | ?] [? ?]]]; [lia | right; exists c; tauto].
    + split; [|auto]. intros _. exists a. auto.
Qed.

Lemma kept_length (l : list Comment) :
  (List.length (kept l)
   + List.length (filter (fun c => Js.eqb (id c) i && (2 <=? dislikes c + 1)%Z) l)
   = List.length l)%nat.
Proof.
  unfold kept. induction l as [|a l IH]; simpl; [reflexivity|].
  unfold dislikeOne at 1.
  destruct (Js.eqb (id a) i); simpl; [|lia].
  destruct (2 <=? dislikes a + 1)%Z; simpl; lia.
Qed.

Lemma kept_absent (l : list Comment) :
  (forall c, In c l -> id c <> i) -> kept l = l.
Proof.
  unfold kept. induction l as [|a l IH]; simpl; [reflexivity|].
  intros H. rewrite dislikeOne_other by auto. simpl. f_equal. auto.
Qed.

Lemma kept_app (l1 l2 : list Comment) : kept (l1 ++ l2) = kept l1 ++ kept l2.
Proof.
  unfold kept. induction l1 as [|a l1 IH]; simpl; [reflexivity|].
  destruct (dislikeOne i a); simpl; [f_equal|]; exact IH.
Qed.

Lemma kept_unique (l1 l2 : list Comment) (c : Comment) :
  id c = i ->
  (forall x, In x (l1 ++ l2) -> id x <> i) ->
  kept (l1 ++ c :: l2)
  = l1 ++ (if (2 <=? dislikes c + 1)%Z then []
           else [withDislikes c (dislikes c + 1)]) ++ l2.
Proof.
  intros Hi Hu.
  change (c :: l2) with ([c] ++ l2). rewrite !kept_app.
  rewrite (kept_absent l1), (kept_absent l2)
    by (intros x Hx; apply Hu, in_or_app; auto).
  f_equal. f_equal. unfold kept, dislikeOne. simpl.
  apply eqb_eq in Hi. rewrite Hi.
  destruct (2 <=? dislikes c + 1)%Z; reflexivity.
Qed.

Lemma liked_absent (l : list Comment) :
  (forall c, In c l -> id c <> i) ->
  map (fun c => if Js.eqb (id c) i then withLikes c (likes c + 1) else c) l
  = l.
Proof.
  induction l as [|a l IH]; simpl; [reflexivity|].
  intros H. assert (Ha : id a <> i) by auto.
  apply eqb_neq in Ha. rewrite Ha. f_equal. auto.
Qed.

(** C5: [handleDislike i] adds one to the dislikes of every comment with
    id [i] whose count stays below 2 and keeps it in the collection: the
    collection afterwards holds a comment whose [dislikes] is one more
    and whose other fields are those of the old comment, and every
    comment with id [i] that is left is such a copy of an old one. A
    comment with id [i] whose count reaches 2 is gone from the collection
    (every comment with id [i] that is left is a survivor below 2, and the
    collection is shorter by the number of comments that reached 2), with
    the removal [alert] raised then and only then; comments with other ids
    are untouched; the collection is stored. When exactly one comment has
    id [i], the collection afterwards is the old one with that comment
    replaced by its incremented copy, or with its place closed up if the
    count reached 2. When no comment has id [i],
    [handleLike i] and [handleDislike i] leave the collection as it is and
    raise neither an alert nor an error. *)
Theorem dislike_threshold_removal (s : CommentSection) :
  let s' := handleDislike i s in
  (forall c, In c (comments s) -> id c = i -> (dislikes c + 1 < 2)%Z ->
     In (withDislikes c (dislikes c + 1)) (comments s'))
  /\ (forall c', In c' (comments s') -> id c' = i ->
        (dislikes c' < 2)%Z
        /\ exists c, In c (comments s) /\ id c = i
                     /\ c' = withDislikes c (dislikes c + 1))
  /\ (forall c, In c (comments s) -> id c = i -> (dislikes c + 1 < 2)%Z ->
        exists c', In c' (comments s')
          /\ dislikes c' = (dislikes c + 1)%Z
          /\ id c' = id c /\ user c' = user c /\ city c' = city c
          /\ text c' = text c /\ originalLang c' = originalLang c
          /\ translatedText c' = translatedText c
          /\ targetLang c' = targetLang c
          /\ likes c' = likes c /\ timestamp c' = timestamp c)
  /\ (forall c', In c' (comments s') -> id c' = i ->
        exists c, In c (comments s)
          /\ dislikes c' = (dislikes c + 1)%Z
          /\ id c' = id c /\ user c' = user c /\ city c' = city c
          /\ text c' = text c /\ originalLang c' = originalLang c
          /\ translatedText c' = translatedText c
          /\ targetLang c' = targetLang c
          /\ likes c' = likes c /\ timestamp c' = timestamp c)
  /\ (List.length (comments s')
      + List.length (filter (fun c => Js.eqb (id c) i && (2 <=? dislikes c + 1)%Z)
                  (comments s))
      = List.length (comments s))%nat
  /\ (forall c', id c' <> i -> (In c' (comments s') <-> In c' (comments s)))
  /\ ((exists c, In c (comments s) /\ id c = i /\ (2 <= dislikes c + 1)%Z) ->
        alerts s' = alerts s ++ [msgRemoved])
  /\ ((forall c, In c (comments s) -> id c = i -> (dislikes c + 1 < 2)%Z) ->
        alerts s' = alerts s)
  /\ localStorage s' = Some (comments s')
  /\ error s' = error s
  /\ (forall l1 c l2,
        comments s = l1 ++ c :: l2 -> id c = i ->
        (forall x, In x (l1 ++ l2) -> id x <> i) ->
        comments s'
        = l1 ++ (if (2 <=? dislikes c + 1)%Z then []
                 else [withDislikes c (dislikes c + 1)]) ++ l2)
  /\ ((forall c, In c (comments s) -> id c <> i) ->
        comments s' = comments s /\ alerts s' = alerts s
        /\ comments (handleLike i s) = comments s
        /\ alerts (handleLike i s) = alerts s
        /\ error (handleLike i s) = error s).
Proof.
  intros s'. subst s'. unfold handleDislike.
  fold (kept (comments s)).
  set (removed := existsb isNull (map (dislikeOne i) (comments s))).
  assert (Hc : comments (if removed
                         then alert msgRemoved (setComments (kept (comments s)) s)
                         else setComments (kept (comments s)) s)
               = kept (comments s)) by (destruct removed; reflexivity).
  rewrite Hc.
  split; [intros; apply kept_survivor; assumption|].
  split.
  { intros c' Hin Hi. destruct (kept_origin _ _ Hin) as [[? ?] | [? ?]];
      [contradiction | tauto]. }
  split.
  { intros c Hin Hi Hd. exists (withDislikes c (dislikes c + 1)).
    split; [apply kept_survivor; assumption|].
    simpl. repeat split; reflexivity. }
  split.
  { intros c' Hin Hi.
    destruct (kept_origin _ _ Hin) as [[Hn _] | [_ [_ [c [Hold [_ ->]]]]]];
      [contradiction|].
    exists c. split; [exact Hold|]. simpl. repeat split; reflexivity. }
  split; [apply kept_length|].
  split; [intros; apply kept_other; assumption|].
  split.
  { intros H. apply removed_iff in H. fold removed in H. rewrite H.
    reflexivity. }
  split.
  { intros H. destruct removed eqn:E; [|reflexivity].
    apply removed_iff in E. destruct E as [c [Hin [Hi Hd]]].
    specialize (H c Hin Hi). lia. }
  split; [destruct removed; reflexivity|].
  split; [destruct removed; reflexivity|].
  split.
  { intros l1 c l2 Hl Hi Hu. rewrite Hl. apply kept_unique; assumption. }
  intros Habs. rewrite (kept_absent _ Habs).
  split; [reflexivity|].
  split.
  { destruct removed eqn:E; [|reflexivity].
    apply removed_iff in E. destruct E as [c [Hin [Hi _]]].
    destruct (Habs c Hin Hi). }
  unfold handleLike. simpl. rewrite (liked_absent _ Habs). auto.
Qed.

End Dislike.

(** *** Translations *)

Lemma untranslated_absent (i : JsString) (f : Comment -> Comment)
  (l : list Comment) :
  (forall c, In c l -> id c <> i) ->
  map (fun c => if Js.eqb (id c) i then f c else c) l = l.
Proof.
  induction l as [|a l IH]; simpl; [reflexivity|].
  intros H. assert (Ha : id a <> i) by auto.
  apply eqb_neq in Ha. rewrite Ha. f_equal. auto.
Qed.

Lemma find_shown (l : list Comment) (k : nat) (c : Comment) :
  nth_error l k = Some c ->
  exists c0, find (fun x => Js.eqb (id x) (id c)) l = Some c0 /\ id c0 = id c.
Proof.
  revert k; induction l as [|a l IH]; intros [|k]; simpl; try discriminate.
  - intros [= ->]. rewrite eqb_refl. eauto.
  - intros H. destruct (Js.eqb (id a) (id c)) eqn:E.
    + apply eqb_eq in E. eauto.
    + eauto.
Qed.

Lemma optEqb_eq (a b : option JsString) : optEqb a b = true <-> a = b.
Proof.
  destruct a as [x|], b as [y|]; simpl; try (split; congruence).
  rewrite eqb_eq. split; congruence.
Qed.

(** C6, as the claim words it, fails on the code. With the first comment
    already translated to Spanish (translation stored, nothing
    outstanding), asking for Spanish again calls the translation service
    a second time; and with three clicks in a row (first comment, second
    comment, first comment) two requests for the first comment are
    outstanding together, nothing having been refused. *)
Lemma translation_requested_again :
  map translatedText (comments afterHola) = [Some (Js.lit "Hola"); None]
  /\ map targetLang (comments afterHola) = [Some es; None]
  /\ translatorCalls afterHola = [(Js.lit "Hello", es)]
  /\ translatorCalls (clickTranslate 0 es afterHola)
     = [(Js.lit "Hello", es); (Js.lit "Hello", es)]
  /\ map p_id (pending threeClicks) = [Js.lit "1"; Js.lit "2"; Js.lit "1"]
  /\ List.length (translatorCalls threeClicks) = 3%nat
  /\ error threeClicks = [].
Proof. vm_compute. repeat split. Qed.

(** C6, amended: a click on the Translate button of a shown comment is
    ignored, with no error, while that comment's id is the one tracked in
    [translatingCommentId], and is skipped without a call when the stored
    translation is the comment's own text for the chosen language. With a
    client configured, the comment not tracked and no request for it
    outstanding, every other click is taken, whatever translation is
    stored: the tracked id becomes this comment's, a new request is
    outstanding, and the translation service is called for a non-empty
    text and language. *)
Theorem translate_click_guards (s : CommentSection) (k : nat) (c : Comment)
  (lang : JsString) :
  nth_error (comments s) k = Some c ->
  (translatingCommentId s = Some (id c) -> clickTranslate k lang s = s)
  /\ (translatedText c = Some (text c) -> targetLang c = Some lang ->
        clickTranslate k lang s = s)
  /\ (ai s = true ->
      translatingCommentId s <> Some (id c) ->
      (forall p, In p (pending s) -> p_id p <> id c) ->
      translatedText c <> Some (text c) \/ targetLang c <> Some lang ->
      exists c0,
        find (fun x => Js.eqb (id x) (id c)) (comments s) = Some c0
        /\ comments (clickTranslate k lang s) = comments s
        /\ error (clickTranslate k lang s) = error s
        /\ translatingCommentId (clickTranslate k lang s) = Some (id c)
        /\ pending (clickTranslate k lang s)
           = pending s
             ++ [{| p_id := id c; p_targetLang := lang;
                    p_run := translateTextWithGemini true (text c0) lang |}]
        /\ (text c0 <> [] -> lang <> [] ->
              translatorCalls (clickTranslate k lang s)
              = translatorCalls s ++ [(text c0, lang)])).
Proof.
  intros Hk. unfold clickTranslate. rewrite Hk.
  split; [|split].
  - intros Ht. unfold translateDisabled, isTranslating. rewrite Ht, eqb_refl.
    reflexivity.
  - intros Htx Htl. destruct (translateDisabled s c); [reflexivity|].
    unfold handleTranslateClick. rewrite Htx, Htl. simpl.
    rewrite !eqb_refl. reflexivity.
  - intros Hai Hnt _ Hnc.
    assert (Hd : translateDisabled s c = false).
    { unfold translateDisabled, isTranslating. rewrite Hai.
      destruct (translatingCommentId s) as [j|]; [|reflexivity].
      simpl. rewrite orb_false_r. apply eqb_neq. congruence. }
    rewrite Hd. unfold handleTranslateClick.
    assert (Hc : optEqb (Some (text c)) (translatedText c)
                 && optEqb (targetLang c) (Some lang) = false).
    { apply andb_false_iff. destruct Hnc as [H | H]; [left | right].
      - destruct (optEqb (Some (text c)) (translatedText c)) eqn:E; auto.
        apply optEqb_eq in E. congruence.
      - destruct (optEqb (targetLang c) (Some lang)) eqn:E; auto.
        apply optEqb_eq in E. congruence. }
    rewrite Hc. destruct (find_shown _ _ _ Hk) as [c0 [Hf _]].
    exists c0. unfold handleTranslate. rewrite Hf, Hai. simpl.
    repeat split.
    intros Ht Hl. unfold translateTextWithGemini. simpl.
    destruct (text c0); [congruence|]. destruct lang; [congruence|].
    reflexivity.
Qed.

(** The amended C6 at work on the translated comment of [afterHola]:
    nothing is tracked and the stored translation differs from the text,
    so the request is taken and the service is called again. *)
Lemma translate_click_guards_witness :
  nth_error (comments afterHola) 0
  = Some (withTranslation (comment "1" "Hello" 1) (Js.lit "Hola") es)
  /\ translatorCalls (clickTranslate 0 es afterHola)
     = translatorCalls afterHola ++ [(Js.lit "Hello", es)].
Proof.
  split; [reflexivity|].
  destruct (translate_click_guards afterHola 0
              (withTranslation (comment "1" "Hello" 1) (Js.lit "Hola") es)
              es eq_refl) as [_ [_ H]].
  destruct H as [c0 [Hf [_ [_ [_ [_ H]]]]]];
    [reflexivity | discriminate | intros p [] | left; discriminate |].
  injection Hf as <-. apply H; discriminate.
Defined.

(** C7: when the translation awaited by a suspended [handleTranslate]
    settles and no comment has its id any more, the continuation leaves
    the collection, the error message and the alerts as they are and
    calls nothing; the stored copy is the unchanged collection. *)
Theorem stale_translation_discarded (s : CommentSection) (k : nat)
  (p : Pending) (r : ApiResult) :
  nth_error (pending s) k = Some p ->
  (forall c, In c (comments s) -> id c <> p_id p) ->
  comments (settle k r s) = comments s
  /\ localStorage (settle k r s) = Some (comments s)
  /\ error (settle k r s) = error s
  /\ alerts (settle k r s) = alerts s
  /\ translatorCalls (settle k r s) = translatorCalls s
  /\ pending (settle k r s) = removeNth k (pending s).
Proof.
  intros Hk Habs. unfold settle. rewrite Hk.
  unfold handleTranslate_resume. simpl.
  rewrite (untranslated_absent _ _ _ Habs). repeat split.
Qed.

(** C7 at work: the first comment of [twoComments] is removed by a
    dislike while its translation is outstanding; the response that
    arrives afterwards changes nothing. *)
Lemma stale_translation_discarded_witness :
  map id (comments deletedWhileTranslating) = [Js.lit "2"]
  /\ map p_id (pending deletedWhileTranslating) = [Js.lit "1"]
  /\ comments (settle 0 hola deletedWhileTranslating)
     = comments deletedWhileTranslating
  /\ error (settle 0 hola deletedWhileTranslating) = [].
Proof.
  split; [reflexivity|]. split; [reflexivity|].
  destruct (stale_translation_discarded deletedWhileTranslating 0
              {| p_id := Js.lit "1"; p_targetLang := es;
                 p_run := AwaitingApi (Js.lit "Hello") es |}
              hola eq_refl) as [Hc [_ [He _]]].
  - intros c [<- | []]. discriminate.
  - split; [exact Hc | exact He].
Defined.

(** C8, as the claim words it, fails on the code: with no client
    configured, a translation request for a stored comment changes
    nothing at all, so no failed translation is recorded for the comment:
    its translation fields stay absent. *)
Lemma absent_translator_records_nothing :
  ai (twoComments false) = false
  /\ handleTranslate (Js.lit "1") es (twoComments false) = twoComments false
  /\ map translatedText (comments (handleTranslate (Js.lit "1") es (twoComments false)))
     = [None; None]
  /\ map targetLang (comments (handleTranslate (Js.lit "1") es (twoComments false)))
     = [None; None].
Proof. vm_compute. repeat split. Qed.

(** C8, amended: with no client configured, [handleTranslate] and a click
    on a Translate button leave the whole component as it is (no
    translation state is stored, nothing becomes outstanding and the
    service is not called), every Translate button is disabled, and
    [translateTextWithGemini] itself returns its unavailable text at once
    instead of calling the service. *)
Theorem translator_absent_noop (s : CommentSection) :
  ai s = false ->
  (forall i lang, handleTranslate i lang s = s)
  /\ (forall k lang, clickTranslate k lang s = s)
  /\ (forall c, translateDisabled s c = true)
  /\ (forall t lang,
        translateTextWithGemini (ai s) t lang
        = Returned (Js.lit "Translation unavailable (API key missing): " ++ t)).
Proof.
  intros Hai.
  assert (Hd : forall c, translateDisabled s c = true).
  { intros c. unfold translateDisabled. rewrite Hai. apply orb_true_r. }
  repeat split.
  - intros i lang. unfold handleTranslate.
    destruct (find _ _); [|reflexivity]. rewrite Hai. reflexivity.
  - intros k lang. unfold clickTranslate.
    destruct (nth_error _ _) as [c|]; [|reflexivity]. rewrite Hd. reflexivity.
  - exact Hd.
  - intros t lang. rewrite Hai. reflexivity.
Qed.

(** The amended C8 on [twoComments] without a client. *)
Lemma translator_absent_noop_witness :
  clickTranslate 0 es (twoComments false) = twoComments false
  /\ translateDisabled (twoComments false) (comment "1" "Hello" 1) = true.
Proof.
  destruct (translator_absent_noop (twoComments false) eq_refl)
    as [_ [Hc [Hd _]]].
  split; [apply Hc | apply Hd].
Defined.

(** *** Comment ids *)

(** Ids stay pairwise distinct as long as every accepted submission
    reads a clock value whose text is not yet an id of the collection;
    two different clock readings never give the same id. *)
Lemma submit_fresh_id (nowId nowTs : Z) (s : CommentSection) :
  NoDup (map id (comments s)) ->
  (forall c, In c (comments s) -> id c <> Js.toString nowId) ->
  NoDup (map id (comments (handleCommentSubmit nowId nowTs s))).
Proof.
  intros Hnd Hfresh. unfold handleCommentSubmit.
  destruct (currentUser s); [|exact Hnd].
  destruct (Js.falsy _); [exact Hnd|].
  destruct (negb _); [exact Hnd|]. simpl.
  constructor; [|exact Hnd].
  intros Hin. apply in_map_iff in Hin. destruct Hin as [c [Hc Hin]].
  exact (Hfresh c Hin Hc).
Qed.

Lemma distinct_readings_distinct_ids (n n' : Z) :
  n <> n' -> Js.toString n <> Js.toString n'.
Proof. intros H E. apply H. apply toString_inj. exact E. Qed.

(** C10 on the code: two accepted submissions for which [Date.now()]
    reads the same millisecond give two comments, with different texts,
    that carry the same id. *)
Theorem same_clock_reading_same_id :
  map text (comments sameMillisecond) = [Js.lit "second"; Js.lit "first"]
  /\ map id (comments sameMillisecond)
     = [Js.toString 1700000000000; Js.toString 1700000000000]
  /\ ~ NoDup (map id (comments sameMillisecond)).
Proof.
  split; [reflexivity|]. split; [reflexivity|].
  intros H. inversion H as [|x l Hnin _]. apply Hnin. left. reflexivity.
Qed.

End EngagementFacts.

(* ------------------------------------------------------------------ *)
(** ** Properties of the video player *)

Module PlaybackFacts.

Import Playback JsFacts.

Lemma bool_eqb_refl (b : bool) : Bool.eqb b b = true.
Proof. destruct b; reflexivity. Qed.

Lemma Qle_bool_false (a b : Q) : Qle_bool a b = false <-> b < a.
Proof.
  destruct (Qle_bool a b) eqn:E.
  - apply Qle_bool_iff in E. split; [discriminate|].
    intros H. exfalso. exact (Qlt_not_le _ _ H E).
  - split; [|reflexivity]. intros _. apply Qnot_le_lt. intros H.
    apply Qle_bool_iff in H. congruence.
Qed.

Lemma Qltb_true (a b : Q) : Qltb a b = true <-> a < b.
Proof.
  unfold Qltb. rewrite negb_true_iff. apply Qle_bool_false.
Qed.

(** *** Rendering *)

Lemma domCommit_synced (s : VideoPlayer) : synced (domCommit s).
Proof.
  unfold domCommit, synced.
  destruct (Js.eqb (src (video s)) (currentSourceUrl s)) eqn:E.
  - apply eqb_eq. exact E.
  - reflexivity.
Qed.

Lemma domCommit_idle (s : VideoPlayer) : synced s -> domCommit s = s.
Proof.
  unfold domCommit, synced. intros ->. rewrite eqb_refl. reflexivity.
Qed.

(** A render after which nothing the effects depend on has changed does
    nothing. *)
Lemma renderRound_idle (prev s : VideoPlayer) :
  synced s ->
  selectedQuality prev = selectedQuality s ->
  currentSourceUrl prev = currentSourceUrl s ->
  isVideoPlayingBeforeQualityChange prev = isVideoPlayingBeforeQualityChange s ->
  id (currentPlan prev) = id (currentPlan s) ->
  renderRound prev s = s.
Proof.
  intros Hs Hq Hu Hf Hp. unfold renderRound, qualityDepsChanged, planDepsChanged.
  rewrite Hq, Hu, Hf, Hp, !eqb_refl, bool_eqb_refl. simpl.
  apply domCommit_idle. exact Hs.
Qed.

Lemma commit_idle (prev s : VideoPlayer) :
  synced s ->
  selectedQuality prev = selectedQuality s ->
  currentSourceUrl prev = currentSourceUrl s ->
  isVideoPlayingBeforeQualityChange prev = isVideoPlayingBeforeQualityChange s ->
  id (currentPlan prev) = id (currentPlan s) ->
  commit prev s = s.
Proof.
  intros Hs Hq Hu Hf Hp. unfold commit.
  rewrite (renderRound_idle prev s Hs Hq Hu Hf Hp).
  apply renderRound_idle; auto.
Qed.

(** What the effects and the DOM update leave alone. *)

Lemma qualityEffect_frame (s : VideoPlayer) :
  selectedQuality (qualityEffect s) = selectedQuality s
  /\ sources (qualityEffect s) = sources s
  /\ isVideoPlayingBeforeQualityChange (qualityEffect s)
     = isVideoPlayingBeforeQualityChange s
  /\ currentPlan (qualityEffect s) = currentPlan s
  /\ src (video (qualityEffect s)) = src (video s)
  /\ (currentSourceUrl (qualityEffect s) = currentSourceUrl s
      \/ exists so,
           find (fun x => Js.eqb (quality x) (selectedQuality s)) (sources s)
           = Some so
           /\ currentSourceUrl (qualityEffect s) = url so).
Proof.
  unfold qualityEffect.
  destruct (find _ (sources s)) as [so|] eqn:Hf; [|repeat split; auto].
  destruct (Js.eqb (url so) (currentSourceUrl s)); simpl; [repeat split; auto|].
  repeat split; auto. right. exists so. auto.
Qed.

Lemma qualityEffect_settled (s : VideoPlayer) (so : VideoSource) :
  find (fun x => Js.eqb (quality x) (selectedQuality s)) (sources s) = Some so ->
  url so = currentSourceUrl s ->
  qualityEffect s = s.
Proof.
  intros Hf Hu. unfold qualityEffect. rewrite Hf, Hu, eqb_refl. reflexivity.
Qed.

Lemma planEffect_frame (s : VideoPlayer) :
  selectedQuality (planEffect s) = selectedQuality s
  /\ sources (planEffect s) = sources s
  /\ isVideoPlayingBeforeQualityChange (planEffect s)
     = isVideoPlayingBeforeQualityChange s
  /\ currentPlan (planEffect s) = currentPlan s
  /\ src (video (planEffect s)) = src (video s)
  /\ currentSourceUrl (planEffect s) = currentSourceUrl s.
Proof.
  destruct s as [ss pl u q f tl [sr ct pa h qu] tr].
  unfold planEffect, callPlay, videoPlay. simpl.
  destruct pa, f; simpl; auto 10.
  destruct (timeLimitMinutes pl); simpl; auto 10.
  destruct (Qltb _ _); simpl; auto 10.
Qed.

Lemma domCommit_frame (s : VideoPlayer) :
  selectedQuality (domCommit s) = selectedQuality s
  /\ sources (domCommit s) = sources s
  /\ isVideoPlayingBeforeQualityChange (domCommit s)
     = isVideoPlayingBeforeQualityChange s
  /\ currentPlan (domCommit s) = currentPlan s
  /\ currentSourceUrl (domCommit s) = currentSourceUrl s.
Proof.
  unfold domCommit. destruct (Js.eqb _ _); simpl; repeat split; auto.
Qed.

Lemma renderRound_frame (prev s : VideoPlayer) :
  selectedQuality (renderRound prev s) = selectedQuality s
  /\ sources (renderRound prev s) = sources s
  /\ isVideoPlayingBeforeQualityChange (renderRound prev s)
     = isVideoPlayingBeforeQualityChange s
  /\ currentPlan (renderRound prev s) = currentPlan s
  /\ (currentSourceUrl (renderRound prev s) = currentSourceUrl s
      \/ exists so,
           find (fun x => Js.eqb (quality x) (selectedQuality s)) (sources s)
           = Some so
           /\ currentSourceUrl (renderRound prev s) = url so).
Proof.
  unfold renderRound.
  destruct (domCommit_frame s) as [Dq [Ds [Df [Dp Du]]]].
  set (s1 := if qualityDepsChanged prev s
             then qualityEffect (domCommit s) else domCommit s).
  assert (H1 : selectedQuality s1 = selectedQuality s
               /\ sources s1 = sources s
               /\ isVideoPlayingBeforeQualityChange s1
                  = isVideoPlayingBeforeQualityChange s
               /\ currentPlan s1 = currentPlan s
               /\ (currentSourceUrl s1 = currentSourceUrl s
                   \/ exists so,
                        find (fun x => Js.eqb (quality x) (selectedQuality s))
                          (sources s) = Some so
                        /\ currentSourceUrl s1 = url so)).
  { subst s1. destruct (qualityDepsChanged prev s); [|tauto].
    destruct (qualityEffect_frame (domCommit s))
      as [Eq [Es [Ef [Ep [_ Eu]]]]].
    rewrite Eq, Es, Ef, Ep, Dq, Ds, Df, Dp. repeat split; auto.
    rewrite Dq, Ds, Du in Eu. exact Eu. }
  destruct (planDepsChanged prev s); [|exact H1].
  destruct (planEffect_frame s1) as [Pq [Ps [Pf [Pp [_ Pu]]]]].
  rewrite Pq, Ps, Pf, Pp, Pu. exact H1.
Qed.

(** After a handler and its renders the element shows the selected
    source. *)
Lemma commit_synced (prev s : VideoPlayer) : synced (commit prev s).
Proof.
  unfold commit.
  destruct (renderRound_frame prev s) as [Rq [Rs [Rf [Rp Ru]]]].
  set (s1 := renderRound prev s) in *.
  assert (Hplan : planDepsChanged s s1 = false).
  { unfold planDepsChanged. rewrite Rf, Rp, eqb_refl, bool_eqb_refl.
    reflexivity. }
  unfold renderRound. rewrite Hplan.
  destruct (qualityDepsChanged s s1) eqn:Hq; [|apply domCommit_synced].
  destruct Ru as [Ru | [so [Hf Hu]]].
  - unfold qualityDepsChanged in Hq.
    rewrite Rq, Rf, Ru, !eqb_refl, bool_eqb_refl in Hq. discriminate.
  - destruct (domCommit_frame s1) as [Dq [Ds [_ [_ Du]]]].
    rewrite (qualityEffect_settled (domCommit s1) so).
    + apply domCommit_synced.
    + rewrite Dq, Ds, Rq, Rs. exact Hf.
    + rewrite Du. symmetry. exact Hu.
Qed.

Lemma mount_initialRender (srcs : list VideoSource) (plan : Plan) :
  mount srcs plan = initialRender srcs plan.
Proof.
  unfold mount.
  assert (Hq : qualityEffect (initialRender srcs plan) = initialRender srcs plan).
  { destruct srcs as [|a srcs]; [reflexivity|].
    apply (qualityEffect_settled _ a); simpl; [|reflexivity].
    rewrite eqb_refl. reflexivity. }
  rewrite Hq.
  assert (Hp : planEffect (initialRender srcs plan) = initialRender srcs plan)
    by reflexivity.
  rewrite Hp. apply renderRound_idle; reflexivity.
Qed.

(** Every state of a mounted player has the element on the selected
    source. *)
Lemma reachable_synced (s : VideoPlayer) : reachable s -> synced s.
Proof.
  induction 1 as [srcs plan | e s _ _].
  - rewrite mount_initialRender. reflexivity.
  - apply commit_synced.
Qed.

Lemma reachable_run (es : list Event) (s : VideoPlayer) :
  reachable s -> reachable (run es s).
Proof.
  revert s. induction es as [|e es IH]; intros s Hs; simpl.
  - exact Hs.
  - apply IH. apply reach_step. exact Hs.
Qed.

(** *** The time limit *)

Lemma handleTimeUpdate_below (s : VideoPlayer) (m : Q) :
  timeLimitMinutes (currentPlan s) = Some m ->
  currentTime (video s) < m * 60 ->
  handleTimeUpdate s = s.
Proof.
  intros Hm Ht. unfold handleTimeUpdate. rewrite Hm.
  apply Qle_bool_false in Ht. rewrite Ht.
  destruct (negb (timeLimitReached s)); reflexivity.
Qed.

Lemma handleTimeUpdate_reached (s : VideoPlayer) (m : Q) :
  timeLimitMinutes (currentPlan s) = Some m ->
  timeLimitReached s = false ->
  m * 60 <= currentTime (video s) ->
  handleTimeUpdate s
  = emit (LimitAlert (name (currentPlan s)) m)
      (emit LimitNotification (setTimeLimitReached true (callPause s))).
Proof.
  intros Hm Hl Ht. unfold handleTimeUpdate. rewrite Hm, Hl.
  apply Qle_bool_iff in Ht. rewrite Ht. reflexivity.
Qed.

(** While the flag is set a time update does nothing. *)
Lemma handleTimeUpdate_latched (s : VideoPlayer) :
  timeLimitReached s = true -> handleTimeUpdate s = s.
Proof.
  intros Hl. unfold handleTimeUpdate. rewrite Hl.
  destruct (timeLimitMinutes (currentPlan s)); reflexivity.
Qed.

Lemma videoPause_paused (v : Video) : paused (videoPause v) = true.
Proof. unfold videoPause. destruct (paused v) eqn:E; [exact E | reflexivity]. Qed.

Lemma videoPause_src (v : Video) : src (videoPause v) = src v.
Proof. unfold videoPause. destruct (paused v); reflexivity. Qed.

Lemma videoPlay_src (v : Video) : src (videoPlay v) = src v.
Proof. unfold videoPlay. destruct (paused v); reflexivity. Qed.

Lemma videoPlay_paused (v : Video) : paused (videoPlay v) = false.
Proof. unfold videoPlay. destruct (paused v) eqn:E; [reflexivity | exact E]. Qed.

(** C2, as the claim words it, fails on the code: in [locked] the limit
    flag is set and the element is paused, and a play request through the
    element's controls is not refused: the element leaves the paused state
    and no notification is sent. *)
Lemma play_not_rejected_when_locked :
  timeLimitMinutes (currentPlan locked) = Some 5
  /\ timeLimitReached locked = true
  /\ paused (video locked) = true
  /\ paused (video (step UserPlay locked)) = false
  /\ trace (step UserPlay locked) = trace locked.
Proof. vm_compute. repeat split. Qed.

(** C2, amended: for a mounted player whose plan has a limit of [m]
    minutes, a time update at a position below [m * 60] seconds leaves a
    playing element playing, leaves the limit flag as it was and sends
    nothing; a time update at or beyond [m * 60] seconds while the limit
    flag is clear pauses the element, sets the flag and sends the pause
    directive, the notification and the alert, in this order; and while
    the flag is set and the element paused, a play request is not refused:
    the element starts playing, the flag stays set and nothing is sent. *)
Theorem limit_enforcement (s : VideoPlayer) (m : Q) :
  reachable s ->
  timeLimitMinutes (currentPlan s) = Some m ->
  (forall t, paused (video s) = false -> t < m * 60 ->
     paused (video (step (TimeUpdate t) s)) = false
     /\ timeLimitReached (step (TimeUpdate t) s) = timeLimitReached s
     /\ trace (step (TimeUpdate t) s) = trace s)
  /\ (forall t, timeLimitReached s = false -> m * 60 <= t ->
     paused (video (step (TimeUpdate t) s)) = true
     /\ timeLimitReached (step (TimeUpdate t) s) = true
     /\ trace (step (TimeUpdate t) s)
        = trace s ++ [SinkPause; LimitNotification;
                      LimitAlert (name (currentPlan s)) m])
  /\ (timeLimitReached s = true -> paused (video s) = true ->
     paused (video (step UserPlay s)) = false
     /\ timeLimitReached (step UserPlay s) = true
     /\ trace (step UserPlay s) = trace s).
Proof.
  intros Hr Hm. apply reachable_synced in Hr. unfold synced in Hr.
  split; [|split].
  - intros t Hp Ht. unfold step, handle.
    rewrite handleTimeUpdate_below with (m := m); auto.
    rewrite commit_idle; auto.
  - intros t Hl Ht. unfold step, handle.
    rewrite handleTimeUpdate_reached with (m := m); auto.
    rewrite commit_idle; simpl; auto.
    + rewrite videoPause_paused, <- !app_assoc. auto.
    + unfold synced. simpl. rewrite videoPause_src. exact Hr.
  - intros Hl Hp. unfold step, handle.
    rewrite commit_idle; simpl; auto.
    + rewrite videoPlay_paused. auto.
    + unfold synced. simpl. rewrite videoPlay_src. exact Hr.
Qed.

(** The amended C2 on the free plan (five minutes): playing at 299
    seconds, a time update at 300 seconds locks the player. *)
Lemma limit_enforcement_witness :
  paused (video (step (TimeUpdate 300)
                   (run [UserPlay; Dispatch; TimeUpdate 299]
                      (mount videoSources freePlan)))) = true
  /\ timeLimitReached (step (TimeUpdate 300)
                         (run [UserPlay; Dispatch; TimeUpdate 299]
                            (mount videoSources freePlan))) = true.
Proof.
  destruct (limit_enforcement
              (run [UserPlay; Dispatch; TimeUpdate 299]
                 (mount videoSources freePlan)) 5) as [_ [H _]].
  - apply reachable_run, reach_mount.
  - reflexivity.
  - destruct (H 300) as [Hp [Hl _]]; [reflexivity | discriminate |].
    split; assumption.
Defined.

(** *** When the limit flag is cleared *)

Lemma domCommit_limit (s : VideoPlayer) :
  timeLimitReached (domCommit s) = timeLimitReached s.
Proof. unfold domCommit. destruct (Js.eqb _ _); reflexivity. Qed.

Lemma qualityEffect_limit (s : VideoPlayer) :
  timeLimitReached (qualityEffect s) = timeLimitReached s.
Proof.
  unfold qualityEffect. destruct (find _ _); [|reflexivity].
  destruct (negb _); reflexivity.
Qed.

Lemma planEffect_limit (s : VideoPlayer) :
  timeLimitReached (planEffect s) = false.
Proof.
  destruct s as [ss pl u q f tl [sr ct pa h qu] tr].
  unfold planEffect, callPlay. simpl.
  destruct pa, f; simpl; auto.
  destruct (timeLimitMinutes pl); simpl; auto.
  destruct (Qltb _ _); simpl; auto.
Qed.

(** The renders after a handler that changed a dependency of the second
    effect leave the limit flag clear. *)
Lemma commit_clears_limit (prev s : VideoPlayer) :
  planDepsChanged prev s = true -> timeLimitReached (commit prev s) = false.
Proof.
  intros Hd. unfold commit.
  destruct (renderRound_frame prev s) as [_ [_ [Rf [Rp _]]]].
  assert (H1 : timeLimitReached (renderRound prev s) = false).
  { unfold renderRound. rewrite Hd. apply planEffect_limit. }
  set (r := renderRound prev s) in *. clearbody r.
  assert (Hplan : planDepsChanged s r = false).
  { unfold planDepsChanged. rewrite Rf, Rp, eqb_refl, bool_eqb_refl.
    reflexivity. }
  unfold renderRound. rewrite Hplan.
  destruct (qualityDepsChanged s r);
    rewrite ?qualityEffect_limit, domCommit_limit; exact H1.
Qed.

(** A delivered [play] or [pause] event that changes
    [isVideoPlayingBeforeQualityChange] clears the limit flag, whatever
    the plan. *)
Lemma dispatch_flip_clears_limit (s : VideoPlayer) (ev : MediaEvent)
  (q : list MediaEvent) :
  queued (video s) = ev :: q ->
  isVideoPlayingBeforeQualityChange s
  = match ev with PlayEvent => false | PauseEvent => true end ->
  timeLimitReached (step Dispatch s) = false.
Proof.
  intros Hq Hf. unfold step. apply commit_clears_limit.
  unfold handle, dispatch, planDepsChanged. rewrite Hq, Hf.
  destruct ev; simpl; rewrite eqb_refl; reflexivity.
Qed.

(** A render with another plan clears the limit flag. *)
Lemma setPlan_clears_limit (s : VideoPlayer) (p : Plan) :
  id p <> id (currentPlan s) ->
  timeLimitReached (step (SetPlan p) s) = false.
Proof.
  intros Hp. unfold step. apply commit_clears_limit.
  unfold handle, planDepsChanged. simpl.
  assert (E : Js.eqb (id (currentPlan s)) (id p) = false)
    by (apply eqb_neq; congruence).
  rewrite E. reflexivity.
Qed.

(** C3 on the code: on the free plan the time update at 300 seconds sets
    the limit flag, notifies once and queues the element's [pause] event;
    the delivery of that event, with the plan unchanged, clears the flag
    again (the second effect depends on
    [isVideoPlayingBeforeQualityChange], which [onPause] has just
    changed), and the next time update at the limit notifies a second
    time. *)
Theorem limit_flag_cleared_by_pause_event :
  timeLimitReached atLimit = true
  /\ notifications atLimit = 1%nat
  /\ queued (video atLimit) = [PauseEvent]
  /\ timeLimitReached (step Dispatch atLimit) = false
  /\ currentPlan (step Dispatch atLimit) = currentPlan atLimit
  /\ notifications (run [Dispatch; TimeUpdate 300] atLimit) = 2%nat.
Proof. vm_compute. repeat split. Qed.

(** *** Quality changes *)

(** One quality change, from the start of the load to its completion. *)

Lemma planEffect_handler (s : VideoPlayer) :
  onloadeddata (video (planEffect s)) = onloadeddata (video s).
Proof.
  destruct s as [ss pl u q f tl [sr ct pa h qu] tr].
  unfold planEffect, callPlay, videoPlay. simpl.
  destruct pa, f; simpl; auto.
  destruct (timeLimitMinutes pl); simpl; auto.
  destruct (Qltb _ _); simpl; auto.
Qed.

Lemma handleQualityChange_fields (value : JsString) (s : VideoPlayer) :
  selectedQuality (handleQualityChange value s) = value
  /\ currentSourceUrl (handleQualityChange value s) = currentSourceUrl s
  /\ sources (handleQualityChange value s) = sources s
  /\ currentPlan (handleQualityChange value s) = currentPlan s
  /\ isVideoPlayingBeforeQualityChange (handleQualityChange value s)
     = negb (paused (video s))
  /\ src (video (handleQualityChange value s)) = src (video s)
  /\ currentTime (video (handleQualityChange value s)) = currentTime (video s)
  /\ paused (video (handleQualityChange value s)) = true.
Proof.
  destruct s as [ss pl u q f tl [sr ct pa h qu] tr].
  unfold handleQualityChange, callPause, videoPause. simpl.
  destruct pa; simpl; auto 10.
Qed.

Lemma qualityEffect_switch (s : VideoPlayer) (so : VideoSource) :
  find (fun x => Js.eqb (quality x) (selectedQuality s)) (sources s) = Some so ->
  url so <> currentSourceUrl s ->
  qualityEffect s
  = setVideo
      (setOnloadeddata
         (Some {| h_currentTime := orZero (currentTime (video s));
                  h_isVideoPlayingBeforeQualityChange :=
                    isVideoPlayingBeforeQualityChange s |})
         (video s))
      (setCurrentSourceUrl (url so) s).
Proof.
  intros Hf Hu. unfold qualityEffect. rewrite Hf.
  apply eqb_neq in Hu. rewrite Hu. reflexivity.
Qed.

Lemma fireLoadedData_restores (s : VideoPlayer) (h : LoadedHandler) :
  onloadeddata (video s) = Some h ->
  paused (video s) = true ->
  currentTime (video s) = 0 ->
  currentTime (video (fireLoadedData s))
  = (if Qltb 0 (h_currentTime h) then h_currentTime h else 0)
  /\ paused (video (fireLoadedData s))
     = negb (h_isVideoPlayingBeforeQualityChange h)
  /\ onloadeddata (video (fireLoadedData s)) = None
  /\ src (video (fireLoadedData s)) = src (video s)
  /\ selectedQuality (fireLoadedData s) = selectedQuality s
  /\ currentSourceUrl (fireLoadedData s) = currentSourceUrl s
  /\ isVideoPlayingBeforeQualityChange (fireLoadedData s)
     = isVideoPlayingBeforeQualityChange s
  /\ currentPlan (fireLoadedData s) = currentPlan s.
Proof.
  destruct s as [ss pl u q f tl [sr ct pa h0 qu] tr]. simpl.
  intros -> -> ->. destruct h as [t b].
  unfold fireLoadedData, assignCurrentTime, callPlay, videoPlay, videoSeek.
  simpl. destruct (Qltb 0 t), b; simpl; auto 10.
Qed.

Lemma orZero_restored (t : Q) :
  0 <= t -> (if Qltb 0 (orZero t) then orZero t else 0) == t.
Proof.
  intros Ht. unfold orZero. destruct (Qeq_bool t 0) eqn:E.
  - apply Qeq_bool_iff in E. simpl. symmetry. exact E.
  - destruct (Qltb 0 t) eqn:L; [reflexivity|].
    unfold Qltb in L. apply negb_false_iff, Qle_bool_iff in L.
    apply Qle_antisym; assumption.
Qed.

Section OneQualityChange.

Variable s : VideoPlayer.
Variable value : JsString.
Variable so : VideoSource.

Hypothesis Hreach : reachable s.
Hypothesis Hfind :
  find (fun x => Js.eqb (quality x) value) (sources s) = Some so.
Hypothesis Hother : value <> selectedQuality s.
Hypothesis Hurl : url so <> currentSourceUrl s.

(** The handler the quality effect installs for this change. *)
Let installed : LoadedHandler :=
  {| h_currentTime := orZero (currentTime (video s));
     h_isVideoPlayingBeforeQualityChange := negb (paused (video s)) |}.

Lemma quality_change_first_render :
  let h := handleQualityChange value s in
  selectedQuality (renderRound s h) = value
  /\ sources (renderRound s h) = sources s
  /\ isVideoPlayingBeforeQualityChange (renderRound s h)
     = isVideoPlayingBeforeQualityChange h
  /\ currentPlan (renderRound s h) = currentPlan h
  /\ currentSourceUrl (renderRound s h) = url so
  /\ src (video (renderRound s h)) = currentSourceUrl s
  /\ onloadeddata (video (renderRound s h)) = Some installed.
Proof.
  intros h.
  destruct (handleQualityChange_fields value s)
    as [Hq [Hu [Hs [Hp [Hf [Hsrc [Hct Hpa]]]]]]].
  fold h in Hq, Hu, Hs, Hp, Hf, Hsrc, Hct, Hpa. clearbody h.
  pose proof (reachable_synced s Hreach) as Hsync. unfold synced in Hsync.
  assert (Hh : synced h) by (unfold synced; congruence).
  assert (Hdeps : qualityDepsChanged s h = true).
  { unfold qualityDepsChanged. rewrite Hq.
    assert (E : Js.eqb (selectedQuality s) value = false)
      by (apply eqb_neq; congruence).
    rewrite E. reflexivity. }
  assert (He : qualityEffect h
               = setVideo (setOnloadeddata (Some installed) (video h))
                   (setCurrentSourceUrl (url so) h)).
  { rewrite (qualityEffect_switch h so).
    - unfold installed. rewrite Hct, Hf. reflexivity.
    - rewrite Hq, Hs. exact Hfind.
    - rewrite Hu. exact Hurl. }
  unfold renderRound. rewrite (domCommit_idle h Hh), Hdeps, He.
  set (e := setVideo (setOnloadeddata (Some installed) (video h))
              (setCurrentSourceUrl (url so) h)).
  assert (Fe : selectedQuality e = value /\ sources e = sources s
               /\ isVideoPlayingBeforeQualityChange e
                  = isVideoPlayingBeforeQualityChange h
               /\ currentPlan e = currentPlan h
               /\ currentSourceUrl e = url so
               /\ src (video e) = currentSourceUrl s
               /\ onloadeddata (video e) = Some installed).
  { subst e. simpl. rewrite Hq, Hs, Hsrc, Hsync. auto 10. }
  destruct (planDepsChanged s h); [|exact Fe].
  destruct (planEffect_frame e) as [Pq [Ps [Pf [Pp [Psrc Pu]]]]].
  rewrite Pq, Ps, Pf, Pp, Psrc, Pu, planEffect_handler. exact Fe.
Qed.

(** While the new source loads: the element is on the new source, at
    position 0 and paused, and the handler holds the position and the
    playing state of the moment of the change. *)
Lemma quality_change_loading :
  let s1 := step (QualityChange value) s in
  selectedQuality s1 = value
  /\ currentSourceUrl s1 = url so
  /\ src (video s1) = url so
  /\ currentTime (video s1) = 0
  /\ paused (video s1) = true
  /\ onloadeddata (video s1) = Some installed.
Proof.
  intros s1. subst s1. unfold step, commit, handle.
  destruct quality_change_first_render as [Rq [Rs [Rf [Rp [Ru [Rsrc Rh]]]]]].
  destruct (handleQualityChange_fields value s)
    as [Hq [Hu [Hs [Hp _]]]].
  set (h := handleQualityChange value s) in *. clearbody h.
  set (r := renderRound s h) in *. clearbody r.
  assert (Hplan : planDepsChanged h r = false).
  { unfold planDepsChanged. rewrite Rf, Rp, eqb_refl, bool_eqb_refl.
    reflexivity. }
  assert (Hload : domCommit r
                  = emit (SinkLoad (url so))
                      (setVideo (videoLoad (url so) (video r)) r)).
  { unfold domCommit. rewrite Rsrc, Ru.
    assert (E : Js.eqb (currentSourceUrl s) (url so) = false)
      by (apply eqb_neq; congruence).
    rewrite E. reflexivity. }
  assert (Hsettled : qualityEffect (domCommit r) = domCommit r).
  { apply (qualityEffect_settled _ so); rewrite Hload; simpl.
    - rewrite Rq, Rs. exact Hfind.
    - symmetry. exact Ru. }
  unfold renderRound. rewrite Hplan.
  assert (Hres : (if qualityDepsChanged h r
                  then qualityEffect (domCommit r) else domCommit r)
                 = domCommit r)
    by (destruct (qualityDepsChanged h r); [exact Hsettled | reflexivity]).
  rewrite Hres, Hload. simpl. rewrite Rq, Ru, Rh. auto 10.
Qed.

(** A quality change to another source, made on a mounted player at
    a position that is not negative, followed by the completion of the
    load, when the renders after the change are done before any media
    event is delivered: the element is back at the position it had at the
    change, and it is playing exactly when it was playing at the
    change. *)
Theorem quality_change_restores_position :
  0 <= currentTime (video s) ->
  let s2 := run [QualityChange value; LoadedData] s in
  currentTime (video s2) == currentTime (video s)
  /\ paused (video s2) = paused (video s)
  /\ onloadeddata (video s2) = None
  /\ currentSourceUrl s2 = url so
  /\ selectedQuality s2 = value.
Proof.
  intros Hpos s2. subst s2. simpl.
  destruct quality_change_loading as [Lq [Lu [Lsrc [Lct [Lpa Lh]]]]].
  set (s1 := step (QualityChange value) s) in *.
  destruct (fireLoadedData_restores s1 installed Lh Lpa Lct)
    as [Fct [Fpa [Fh [Fsrc [Fq [Fu [Ff Fp]]]]]]].
  clearbody s1. unfold step, handle.
  assert (Hsync : synced (fireLoadedData s1))
    by (unfold synced; congruence).
  rewrite (commit_idle s1 (fireLoadedData s1) Hsync
             (eq_sym Fq) (eq_sym Fu) (eq_sym Ff) (f_equal id (eq_sym Fp))).
  rewrite Fpa, Fh, Fu, Fq.
  assert (Hi : negb (h_isVideoPlayingBeforeQualityChange installed)
               = paused (video s))
    by (unfold installed; simpl; apply negb_involutive).
  rewrite Hi. repeat split; auto.
  rewrite Fct. unfold installed. simpl. apply orZero_restored. exact Hpos.
Qed.

End OneQualityChange.

(** The same on [watching42], changed to 480p. *)
Lemma quality_change_restores_position_witness :
  currentTime (video (run [QualityChange q480p; LoadedData] watching42)) == 42
  /\ paused (video (run [QualityChange q480p; LoadedData] watching42)) = false.
Proof.
  destruct (quality_change_restores_position watching42 q480p
              (nth 1 videoSources {| quality := []; url := [] |}))
    as [Hc [Hp _]].
  - apply reachable_run, reach_mount.
  - vm_compute. reflexivity.
  - vm_compute. discriminate.
  - vm_compute. discriminate.
  - vm_compute. discriminate.
  - split; assumption.
Defined.

(** C1 on the code: playing at 42 seconds, one quality change brings the
    element back to 42 seconds and playing once the new source has
    loaded; a second quality change made before that load completes
    captures the position 0 and the paused state of the loading element,
    and the player ends at 0 seconds, paused, with nothing left to
    restore the position. *)
Theorem second_switch_loses_position :
  currentTime (video watching42) = 42
  /\ paused (video watching42) = false
  /\ currentTime (video oneSwitch) = 42
  /\ paused (video oneSwitch) = false
  /\ currentTime (video twoSwitches) = 0
  /\ paused (video twoSwitches) = true
  /\ onloadeddata (video twoSwitches) = None
  /\ queued (video twoSwitches) = [].
Proof. vm_compute. repeat split. Qed.

(** *** Creation *)

(** C9, as the claim words it, fails on the code: mounting the player
    with no sources gives a session, with no sources, an empty source
    locator and an empty selected quality. *)
Lemma empty_sources_session_constructed :
  sources (mount [] freePlan) = []
  /\ currentSourceUrl (mount [] freePlan) = []
  /\ selectedQuality (mount [] freePlan) = []
  /\ trace (mount [] freePlan) = [].
Proof. vm_compute. repeat split. Qed.

(** C9, amended: mounting the player never fails; with an empty source
    list the session is constructed with an empty source locator and an
    empty selected quality, paused at position 0 with no limit reached,
    and a later quality change finds no source and loads nothing. *)
Theorem mount_empty_sources (plan : Plan) :
  mount [] plan
  = {| sources := []; currentPlan := plan;
       currentSourceUrl := []; selectedQuality := [];
       isVideoPlayingBeforeQualityChange := false;
       timeLimitReached := false;
       video := {| src := []; currentTime := 0; paused := true;
                   onloadeddata := None; queued := [] |};
       trace := [] |}
  /\ forall value,
       currentSourceUrl (step (QualityChange value) (mount [] plan)) = []
       /\ trace (step (QualityChange value) (mount [] plan)) = [].
Proof.
  rewrite mount_initialRender. split; [reflexivity|].
  intros value. unfold step, commit.
  set (s := handle (QualityChange value) (initialRender [] plan)).
  assert (H1 : renderRound (initialRender [] plan) s = s).
  { unfold renderRound, planDepsChanged. simpl. rewrite eqb_refl. simpl.
    destruct (qualityDepsChanged _ _); reflexivity. }
  rewrite H1.
  assert (H2 : renderRound s s = s) by (apply renderRound_idle; reflexivity).
  rewrite H2. split; reflexivity.
Qed.

End PlaybackFacts.

(* ------------------------------------------------------------------ *)
(** ** Further properties of the video player *)

Module PlaybackLaws.

Import Playback JsFacts PlaybackFacts.

(** *** The renders after a handler *)

(** The second render only updates the DOM: its effects change nothing. *)
Lemma commit_second_round (prev s : VideoPlayer) :
  commit prev s = domCommit (renderRound prev s).
Proof.
  unfold commit.
  destruct (renderRound_frame prev s) as [Rq [Rs [Rf [Rp Ru]]]].
  set (r := renderRound prev s) in *. clearbody r.
  assert (Hplan : planDepsChanged s r = false).
  { unfold planDepsChanged. rewrite Rf, Rp, eqb_refl, bool_eqb_refl.
    reflexivity. }
  unfold renderRound. rewrite Hplan.
  destruct (qualityDepsChanged s r) eqn:Hq; [|reflexivity].
  destruct Ru as [Ru | [so [Hf Hu]]].
  - unfold qualityDepsChanged in Hq.
    rewrite Rq, Rf, Ru, !eqb_refl, bool_eqb_refl in Hq. discriminate.
  - destruct (domCommit_frame r) as [Dq [Ds [_ [_ Du]]]].
    apply (qualityEffect_settled (domCommit r) so).
    + rewrite Dq, Ds, Rq, Rs. exact Hf.
    + rewrite Du. symmetry. exact Hu.
Qed.

(** The effects do not feed each other: whatever a handler did to the
    rendered component [prev], after the two renders of [commit] a
    further render finds the element on the selected source and no
    dependency changed, and does nothing. *)
Theorem third_render_is_idle (prev s : VideoPlayer) :
  renderRound (renderRound prev s) (commit prev s) = commit prev s.
Proof.
  pose proof (commit_synced prev s) as Hs.
  rewrite commit_second_round in *.
  destruct (domCommit_frame (renderRound prev s)) as [Dq [Ds [Df [Dp Du]]]].
  apply renderRound_idle; auto using eq_sym.
  rewrite Dp. reflexivity.
Qed.

(** *** The selected source *)

Lemma handle_sources (e : Event) (s : VideoPlayer) :
  sources (handle e s) = sources s.
Proof.
  destruct s as [ss pl u q f tl [sr ct pa h qu] tr].
  destruct e; simpl; try reflexivity.
  - unfold handleQualityChange, callPause, videoPause. simpl.
    destruct pa; reflexivity.
  - unfold handleTimeUpdate, callPause, videoPause. simpl.
    destruct (timeLimitMinutes pl); [|reflexivity].
    destruct tl; simpl; [reflexivity|].
    destruct (Qle_bool _ _); [|reflexivity]. destruct pa; reflexivity.
  - unfold dispatch. simpl. destruct qu as [|[] qu]; reflexivity.
  - unfold fireLoadedData, assignCurrentTime, callPlay, videoPlay. simpl.
    destruct h as [[t b]|]; [|reflexivity]. simpl.
    destruct (Qltb 0 t), b, pa; reflexivity.
Qed.

Lemma qualityEffect_selects (s : VideoPlayer) (so : VideoSource) :
  find (fun x => Js.eqb (quality x) (selectedQuality s)) (sources s) = Some so ->
  currentSourceUrl (qualityEffect s) = url so.
Proof.
  intros Hf. unfold qualityEffect. rewrite Hf.
  destruct (Js.eqb (url so) (currentSourceUrl s)) eqn:E; simpl.
  - apply eqb_eq in E. symmetry. exact E.
  - reflexivity.
Qed.

Lemma commit_selects (prev s : VideoPlayer) (so : VideoSource) :
  (qualityDepsChanged prev s = false -> currentSourceUrl s = url so) ->
  find (fun x => Js.eqb (quality x) (selectedQuality s)) (sources s) = Some so ->
  currentSourceUrl (commit prev s) = url so.
Proof.
  intros Hkeep Hf. rewrite commit_second_round.
  destruct (domCommit_frame (renderRound prev s)) as [_ [_ [_ [_ Du]]]].
  rewrite Du. unfold renderRound.
  destruct (domCommit_frame s) as [Dq [Ds [_ [_ Dus]]]].
  assert (H1 : currentSourceUrl
                 (if qualityDepsChanged prev s
                  then qualityEffect (domCommit s) else domCommit s)
               = url so).
  { destruct (qualityDepsChanged prev s).
    - apply qualityEffect_selects. rewrite Dq, Ds. exact Hf.
    - rewrite Dus. apply Hkeep. reflexivity. }
  destruct (planDepsChanged prev s); [|exact H1].
  destruct (planEffect_frame
              (if qualityDepsChanged prev s
               then qualityEffect (domCommit s) else domCommit s))
    as [_ [_ [_ [_ [_ Pu]]]]].
  rewrite Pu. exact H1.
Qed.

Lemma commit_quality_sources (prev s : VideoPlayer) :
  selectedQuality (commit prev s) = selectedQuality s
  /\ sources (commit prev s) = sources s.
Proof.
  rewrite commit_second_round.
  destruct (domCommit_frame (renderRound prev s)) as [Dq [Ds _]].
  destruct (renderRound_frame prev s) as [Rq [Rs _]].
  rewrite Dq, Ds, Rq, Rs. auto.
Qed.

(** In every state of a mounted player, when the selected quality names a
    source, the element is on the locator of the first source of that
    quality. *)
Theorem selected_source_is_shown (s : VideoPlayer) (so : VideoSource) :
  reachable s ->
  find (fun x => Js.eqb (quality x) (selectedQuality s)) (sources s) = Some so ->
  currentSourceUrl s = url so /\ src (video s) = url so.
Proof.
  intros Hr Hf. pose proof (reachable_synced s Hr) as Hs. unfold synced in Hs.
  rewrite Hs. cut (currentSourceUrl s = url so); [auto|]. clear Hs.
  revert so Hf. induction Hr as [srcs plan | e s Hr IH]; intros so Hf.
  - rewrite mount_initialRender in *. destruct srcs as [|a srcs]; simpl in *.
    + discriminate.
    + rewrite eqb_refl in Hf. injection Hf as <-. reflexivity.
  - unfold step in *.
    destruct (commit_quality_sources s (handle e s)) as [Cq Cs].
    rewrite Cq, Cs in Hf.
    apply commit_selects; [|exact Hf].
    intros Hd. unfold qualityDepsChanged in Hd.
    apply orb_false_iff in Hd. destruct Hd as [Hd _].
    apply orb_false_iff in Hd. destruct Hd as [Hq Hu].
    apply negb_false_iff, eqb_eq in Hq. apply negb_false_iff, eqb_eq in Hu.
    rewrite <- Hu. apply IH.
    rewrite Hq, <- (handle_sources e s). exact Hf.
Qed.

(** The same on [watching42] after a change to 720p and its load. *)
Lemma selected_source_is_shown_witness :
  src (video (run [QualityChange q720p; LoadedData] watching42))
  = url (nth 2 videoSources {| quality := []; url := [] |}).
Proof.
  apply (selected_source_is_shown
           (run [QualityChange q720p; LoadedData] watching42)
           (nth 2 videoSources {| quality := []; url := [] |})).
  - apply reachable_run, reachable_run, reach_mount.
  - vm_compute. reflexivity.
Defined.

(** *** A plan without a limit *)

Lemma tick_on_unlimited_plan (s : VideoPlayer) (t : Q) :
  reachable s ->
  timeLimitMinutes (currentPlan s) = None ->
  step (TimeUpdate t) s = setVideo (videoSeek t (video s)) s.
Proof.
  intros Hr Hn. apply reachable_synced in Hr. unfold synced in Hr.
  unfold step, handle.
  assert (Hh : handleTimeUpdate (setVideo (videoSeek t (video s)) s)
               = setVideo (videoSeek t (video s)) s).
  { unfold handleTimeUpdate. simpl. rewrite Hn. reflexivity. }
  rewrite Hh. apply commit_idle; auto.
Qed.

Lemma notifications_emit (e : Effect) (s : VideoPlayer) :
  isLimitNotification e = false -> notifications (emit e s) = notifications s.
Proof.
  intros He. unfold notifications, emit. simpl.
  rewrite filter_app. simpl. rewrite He. rewrite app_nil_r. reflexivity.
Qed.

Lemma domCommit_notifications (s : VideoPlayer) :
  notifications (domCommit s) = notifications s.
Proof.
  unfold domCommit. destruct (Js.eqb _ _); [reflexivity|].
  rewrite notifications_emit; reflexivity.
Qed.

Lemma qualityEffect_notifications (s : VideoPlayer) :
  notifications (qualityEffect s) = notifications s.
Proof.
  unfold qualityEffect. destruct (find _ _); [|reflexivity].
  destruct (negb _); reflexivity.
Qed.

Lemma planEffect_notifications (s : VideoPlayer) :
  notifications (planEffect s) = notifications s.
Proof.
  unfold planEffect.
  destruct (paused _ && _); [|reflexivity].
  destruct (timeLimitMinutes _); [destruct (Qltb _ _)|];
    try reflexivity; unfold callPlay; rewrite notifications_emit; reflexivity.
Qed.

Lemma renderRound_notifications (prev s : VideoPlayer) :
  notifications (renderRound prev s) = notifications s.
Proof.
  unfold renderRound.
  destruct (planDepsChanged prev s); rewrite ?planEffect_notifications;
    destruct (qualityDepsChanged prev s);
    rewrite ?qualityEffect_notifications; apply domCommit_notifications.
Qed.

Lemma renderRound_limit_false (prev s : VideoPlayer) :
  timeLimitReached s = false -> timeLimitReached (renderRound prev s) = false.
Proof.
  intros H. unfold renderRound.
  destruct (planDepsChanged prev s); [apply planEffect_limit|].
  destruct (qualityDepsChanged prev s);
    rewrite ?qualityEffect_limit, domCommit_limit; exact H.
Qed.

(** A handler on a plan without a limit sends no notification and leaves
    the limit flag alone. *)
Lemma handle_unlimited (e : Event) (s : VideoPlayer) :
  timeLimitMinutes (currentPlan s) = None ->
  notifications (handle e s) = notifications s
  /\ timeLimitReached (handle e s) = timeLimitReached s
  /\ currentPlan (handle e s)
     = match e with SetPlan p => p | _ => currentPlan s end.
Proof.
  intros Hn. destruct e as [value | t | | | | | p]; simpl.
  - unfold handleQualityChange. destruct (negb _); simpl;
      [|repeat split; reflexivity].
    split; [|split; reflexivity].
    unfold notifications. simpl. rewrite filter_app. simpl.
    rewrite app_nil_r. reflexivity.
  - unfold handleTimeUpdate. simpl. rewrite Hn. repeat split; reflexivity.
  - repeat split; reflexivity.
  - repeat split; reflexivity.
  - unfold dispatch. destruct (queued _) as [|[|] q]; repeat split; reflexivity.
  - unfold fireLoadedData. destruct (onloadeddata _) as [h|];
      [|repeat split; reflexivity].
    destruct (Qltb 0 (h_currentTime h)); simpl;
      destruct (h_isVideoPlayingBeforeQualityChange h && _); simpl;
      repeat split; try reflexivity;
      unfold notifications; simpl; rewrite ?filter_app; simpl;
      rewrite ?app_nil_r; reflexivity.
  - repeat split; reflexivity.
Qed.

Lemma step_unlimited (e : Event) (s : VideoPlayer) :
  timeLimitMinutes (currentPlan s) = None ->
  (forall p, e = SetPlan p -> timeLimitMinutes p = None) ->
  notifications (step e s) = notifications s
  /\ (timeLimitReached s = false -> timeLimitReached (step e s) = false)
  /\ timeLimitMinutes (currentPlan (step e s)) = None.
Proof.
  intros Hn Hp. destruct (handle_unlimited e s Hn) as [Ht [Hl Hc]].
  unfold step, commit.
  destruct (renderRound_frame s (handle e s)) as [_ [_ [_ [P1 _]]]].
  destruct (renderRound_frame (handle e s) (renderRound s (handle e s)))
    as [_ [_ [_ [P2 _]]]].
  rewrite !renderRound_notifications, Ht, P2, P1, Hc.
  split; [reflexivity|]. split.
  - intros Hf. apply renderRound_limit_false, renderRound_limit_false.
    rewrite Hl. exact Hf.
  - destruct e; try exact Hn. apply Hp. reflexivity.
Qed.

(** A player mounted with a plan without a time limit, and given only
    such plans afterwards, never calls [onTimeLimitReached] and never
    sets the limit flag, whatever happens and in whatever order; and a
    time update only records the position, with nothing paused, set or
    sent. *)
Theorem unlimited_plan_never_limits (srcs : list VideoSource) (p : Plan)
  (es : list Event) :
  timeLimitMinutes p = None ->
  (forall q, In (SetPlan q) es -> timeLimitMinutes q = None) ->
  notifications (run es (mount srcs p)) = 0%nat
  /\ timeLimitReached (run es (mount srcs p)) = false
  /\ timeLimitMinutes (currentPlan (run es (mount srcs p))) = None
  /\ forall t,
       step (TimeUpdate t) (run es (mount srcs p))
       = setVideo (videoSeek t (video (run es (mount srcs p))))
           (run es (mount srcs p)).
Proof.
  intros Hn Hes.
  assert (H : notifications (run es (mount srcs p)) = 0%nat
              /\ timeLimitReached (run es (mount srcs p)) = false
              /\ timeLimitMinutes (currentPlan (run es (mount srcs p))) = None).
  { assert (H0 : notifications (mount srcs p) = 0%nat
                 /\ timeLimitReached (mount srcs p) = false
                 /\ timeLimitMinutes (currentPlan (mount srcs p)) = None).
    { rewrite mount_initialRender. simpl. auto. }
    revert H0 Hes. generalize (mount srcs p).
    induction es as [|e es IH]; intros s [H1 [H2 H3]] Hes.
    - simpl. auto.
    - change (run (e :: es) s) with (run es (step e s)).
      destruct (step_unlimited e s H3) as [S1 [S2 S3]].
      + intros q ->. apply Hes. left. reflexivity.
      + apply IH.
        * split; [rewrite S1; exact H1|]. split; [exact (S2 H2) | exact S3].
        * intros q Hq. apply Hes. right. exact Hq. }
  destruct H as [H1 [H2 H3]].
  split; [exact H1|]. split; [exact H2|]. split; [exact H3|].
  intros t. apply tick_on_unlimited_plan; [|exact H3].
  apply reachable_run, reach_mount.
Qed.

(** On the unlimited plan, an hour in, after a change of quality. *)
Lemma unlimited_plan_never_limits_witness :
  notifications
    (run [UserPlay; Dispatch; TimeUpdate 3600; QualityChange q480p;
          Dispatch; LoadedData; Dispatch; TimeUpdate 3601]
       (mount videoSources goldPlan)) = 0%nat
  /\ timeLimitReached
       (run [UserPlay; Dispatch; TimeUpdate 3600; QualityChange q480p;
             Dispatch; LoadedData; Dispatch; TimeUpdate 3601]
          (mount videoSources goldPlan)) = false.
Proof.
  destruct (unlimited_plan_never_limits videoSources goldPlan
              [UserPlay; Dispatch; TimeUpdate 3600; QualityChange q480p;
               Dispatch; LoadedData; Dispatch; TimeUpdate 3601])
    as [H1 [H2 _]].
  - reflexivity.
  - simpl. intros q H.
    repeat (destruct H as [H | H]; [discriminate H|]). destruct H.
  - split; [exact H1 | exact H2].
Defined.

(** *** A change of plan *)

Lemma setPlan_is_planEffect (s : VideoPlayer) (p : Plan) :
  synced s -> id p <> id (currentPlan s) ->
  step (SetPlan p) s = planEffect (setCurrentPlan p s).
Proof.
  intros Hs Hp. unfold synced in Hs. unfold step, handle, commit.
  assert (E : Js.eqb (id (currentPlan s)) (id p) = false)
    by (apply eqb_neq; congruence).
  assert (H1 : renderRound s (setCurrentPlan p s)
               = planEffect (setCurrentPlan p s)).
  { unfold renderRound, qualityDepsChanged, planDepsChanged. simpl.
    rewrite !eqb_refl, bool_eqb_refl, E. simpl.
    rewrite domCommit_idle; [reflexivity | exact Hs]. }
  rewrite H1.
  destruct (planEffect_frame (setCurrentPlan p s))
    as [Pq [Ps [Pf [Pp [Psrc Pu]]]]].
  apply renderRound_idle; auto using eq_sym.
  - unfold synced. rewrite Psrc, Pu. exact Hs.
  - rewrite Pp. reflexivity.
Qed.

(** The two outcomes of the second effect. *)
Lemma planEffect_cases (s : VideoPlayer) :
  (paused (video s) = true
   /\ isVideoPlayingBeforeQualityChange s = true
   /\ match timeLimitMinutes (currentPlan s) with
      | None => True
      | Some m => currentTime (video s) < m * 60
      end
   /\ paused (video (planEffect s)) = false
   /\ currentTime (video (planEffect s)) = currentTime (video s)
   /\ trace (planEffect s) = trace s ++ [SinkPlay])
  \/ ((paused (video s) = false
       \/ isVideoPlayingBeforeQualityChange s = false
       \/ exists m, timeLimitMinutes (currentPlan s) = Some m
                    /\ m * 60 <= currentTime (video s))
      /\ video (planEffect s) = video s
      /\ trace (planEffect s) = trace s).
Proof.
  destruct s as [ss pl u q f tl [sr ct pa h qu] tr].
  unfold planEffect, callPlay, videoPlay. simpl.
  destruct pa; simpl; [|right; auto].
  destruct f; simpl; [|right; auto].
  destruct (timeLimitMinutes pl) as [m|]; simpl.
  - destruct (Qltb ct (m * 60)) eqn:E; simpl.
    + left. apply Qltb_true in E. auto 10.
    + right. split; [|auto]. right; right. exists m. split; [reflexivity|].
      unfold Qltb in E. apply negb_false_iff, Qle_bool_iff in E. exact E.
  - left. auto 10.
Qed.

(** A render of a mounted player with another plan makes that plan the
    current one and clears the limit flag. It resumes a paused element
    (one play directive, the position kept) exactly when
    [isVideoPlayingBeforeQualityChange] is set and the position is below
    the new plan's limit, if it has one; otherwise the element and the
    trace stay as they are. *)
Theorem plan_change_resumes_within_limit (s : VideoPlayer) (p : Plan) :
  reachable s ->
  id p <> id (currentPlan s) ->
  currentPlan (step (SetPlan p) s) = p
  /\ timeLimitReached (step (SetPlan p) s) = false
  /\ ((paused (video s) = true
       /\ isVideoPlayingBeforeQualityChange s = true
       /\ match timeLimitMinutes p with
          | None => True
          | Some m => currentTime (video s) < m * 60
          end
       /\ paused (video (step (SetPlan p) s)) = false
       /\ currentTime (video (step (SetPlan p) s)) = currentTime (video s)
       /\ trace (step (SetPlan p) s) = trace s ++ [SinkPlay])
      \/ ((paused (video s) = false
           \/ isVideoPlayingBeforeQualityChange s = false
           \/ exists m, timeLimitMinutes p = Some m
                        /\ m * 60 <= currentTime (video s))
          /\ video (step (SetPlan p) s) = video s
          /\ trace (step (SetPlan p) s) = trace s)).
Proof.
  intros Hr Hp. apply reachable_synced in Hr.
  rewrite (setPlan_is_planEffect s p Hr Hp).
  destruct (planEffect_frame (setCurrentPlan p s)) as [_ [_ [_ [Pp _]]]].
  split; [exact Pp|]. split; [apply planEffect_limit|].
  exact (planEffect_cases (setCurrentPlan p s)).
Qed.

(** At the free plan's limit, with the [pause] event not yet delivered,
    a change to the unlimited plan resumes. *)
Lemma plan_change_resumes_within_limit_witness :
  timeLimitReached (step (SetPlan goldPlan) atLimit) = false
  /\ paused (video (step (SetPlan goldPlan) atLimit)) = false.
Proof.
  destruct (plan_change_resumes_within_limit atLimit goldPlan)
    as [_ [Hl [[_ [_ [_ [Hp _]]]] | [[H | [H | [m [H _]]]] _]]]].
  - apply reachable_run, reach_mount.
  - vm_compute. discriminate.
  - split; assumption.
  - vm_compute in H. discriminate H.
  - vm_compute in H. discriminate H.
  - vm_compute in H. discriminate H.
Defined.

(** *** The limit flag and the element's events *)

(** On [atLimit] the delivery of the queued [pause] event clears the
    flag. *)
Lemma dispatch_flip_clears_limit_witness :
  timeLimitReached atLimit = true
  /\ timeLimitReached (step Dispatch atLimit) = false.
Proof.
  split; [vm_compute; reflexivity|].
  apply (dispatch_flip_clears_limit atLimit PauseEvent []);
    vm_compute; reflexivity.
Defined.

(** *** A change of quality on a paused player *)










End PlaybackLaws.

(* ------------------------------------------------------------------ *)
(** ** Further properties of the comment section *)

Module EngagementLaws.

Import Engagement EngagementNotions Scenario JsFacts EngagementFacts.

(** *** Trimming *)

Lemma trimStart_split (s : JsString) :
  exists w, s = w ++ Js.trimStart s /\ forallb Js.isWhiteSpace w = true.
Proof.
  induction s as [|c s [w [Hs Hw]]]; simpl.
  - exists []. auto.
  - destruct (Js.isWhiteSpace c) eqn:E.
    + exists (c :: w). simpl. rewrite E, Hw. split; [f_equal; exact Hs | reflexivity].
    + exists []. auto.
Qed.

Lemma trimStart_head (s : JsString) :
  match Js.trimStart s with
  | [] => True
  | c :: _ => Js.isWhiteSpace c = false
  end.
Proof.
  induction s as [|c s IH]; simpl; [exact I|].
  destruct (Js.isWhiteSpace c) eqn:E; [exact IH | exact E].
Qed.

Lemma trimStart_fixed (s : JsString) :
  match s with [] => True | c :: _ => Js.isWhiteSpace c = false end ->
  Js.trimStart s = s.
Proof. destruct s as [|c s]; simpl; [reflexivity|]. intros ->. reflexivity. Qed.

Lemma trimStart_idem (s : JsString) :
  Js.trimStart (Js.trimStart s) = Js.trimStart s.
Proof. apply trimStart_fixed, trimStart_head. Qed.

Lemma trimEnd_idem (s : JsString) : Js.trimEnd (Js.trimEnd s) = Js.trimEnd s.
Proof.
  unfold Js.trimEnd. rewrite rev_involutive, trimStart_idem. reflexivity.
Qed.

Lemma trimEnd_keeps_head (s : JsString) :
  match s with [] => True | c :: _ => Js.isWhiteSpace c = false end ->
  match Js.trimEnd s with [] => True | c :: _ => Js.isWhiteSpace c = false end.
Proof.
  intros Hs. unfold Js.trimEnd.
  destruct (trimStart_split (rev s)) as [w [Hr Hw]].
  set (t := Js.trimStart (rev s)) in *.
  assert (Ha : s = rev t ++ rev w).
  { rewrite <- (rev_involutive s), Hr, rev_app_distr. reflexivity. }
  destruct (rev t) as [|c r] eqn:Et; [exact I|].
  rewrite Ha in Hs. exact Hs.
Qed.

(** Trimming leaves nothing to trim. *)
Lemma trim_idem (s : JsString) : Js.trim (Js.trim s) = Js.trim s.
Proof.
  unfold Js.trim.
  rewrite (trimStart_fixed (Js.trimEnd (Js.trimStart s))).
  - apply trimEnd_idem.
  - apply trimEnd_keeps_head, trimStart_head.
Qed.

(** *** What every comment of the collection satisfies *)

Lemma withLikes_wellFormed (c : Comment) :
  wellFormed c -> wellFormed (withLikes c (likes c + 1)).
Proof.
  unfold wellFormed. simpl. intros [Ht [Hv [Hs [Hl [Hd Hx]]]]].
  repeat split; try tauto; lia.
Qed.

Lemma withTranslation_wellFormed (c : Comment) (t l : JsString) :
  wellFormed c -> wellFormed (withTranslation c t l).
Proof.
  unfold wellFormed. simpl. intros [Ht [Hv [Hs [Hl [Hd Hx]]]]].
  repeat split; try tauto; try lia; discriminate.
Qed.

Lemma dislikeOne_wellFormed (i : JsString) (c c' : Comment) :
  wellFormed c -> dislikeOne i c = Some c' -> wellFormed c'.
Proof.
  unfold dislikeOne. intros Hc.
  destruct (Js.eqb (id c) i); [|intros [= <-]; exact Hc].
  destruct (Z.leb_spec 2 (dislikes c + 1)); [discriminate|].
  intros [= <-]. unfold wellFormed in *. simpl.
  destruct Hc as [Ht [Hv [Hs [Hl [Hd Hx]]]]]. repeat split; try tauto; lia.
Qed.

Lemma clickTranslate_comments (k : nat) (lang : JsString) (s : CommentSection) :
  comments (clickTranslate k lang s) = comments s
  /\ localStorage (clickTranslate k lang s) = localStorage s.
Proof.
  unfold clickTranslate. destruct (nth_error _ _) as [c|]; [|auto].
  destruct (translateDisabled s c); [auto|].
  unfold handleTranslateClick. destruct (_ && _); [auto|].
  unfold handleTranslate. destruct (find _ _); [|auto].
  destruct (negb (ai s)); auto.
Qed.

Lemma settle_comments (k : nat) (r : ApiResult) (s : CommentSection) :
  (comments (settle k r s) = comments s
   /\ localStorage (settle k r s) = localStorage s)
  \/ exists i t l,
       comments (settle k r s)
       = map (fun c => if Js.eqb (id c) i then withTranslation c t l else c)
           (comments s)
       /\ localStorage (settle k r s) = Some (comments (settle k r s)).
Proof.
  unfold settle. destruct (nth_error _ _) as [p|]; [|left; auto].
  right. unfold handleTranslate_resume. simpl. eauto.
Qed.

Lemma step_wellFormed (e : Event) (s : CommentSection) :
  Forall wellFormed (comments s) -> Forall wellFormed (comments (step e s)).
Proof.
  intros H. destruct e as [t | nowId nowTs | i | i | k lang | k r]; simpl.
  - exact H.
  - unfold handleCommentSubmit.
    destruct (currentUser s) as [u|]; [|exact H].
    destruct (Js.falsy (Js.trim (newCommentText s))) eqn:Hf; [exact H|].
    destruct (isValidCommentText (Js.trim (newCommentText s))) eqn:Hv;
      [|exact H].
    simpl. constructor; [|exact H]. unfold wellFormed. simpl.
    split; [intros E; apply falsy_nil in E; congruence|].
    split; [exact Hv|]. split; [apply trim_idem|].
    repeat split; try lia; tauto.
  - unfold handleLike. simpl. rewrite Forall_forall in *.
    intros c' Hin. apply in_map_iff in Hin. destruct Hin as [c [<- Hin]].
    destruct (Js.eqb (id c) i); auto using withLikes_wellFormed.
  - assert (Hk : Forall wellFormed
                   (filterBoolean (map (dislikeOne i) (comments s)))).
    { induction H as [|c l Hc Hl IH]; simpl; [constructor|].
      destruct (dislikeOne i c) as [c'|] eqn:E; [|exact IH].
      constructor; [exact (dislikeOne_wellFormed i c c' Hc E) | exact IH]. }
    unfold handleDislike. destruct (existsb _ _); exact Hk.
  - destruct (clickTranslate_comments k lang s) as [-> _]. exact H.
  - destruct (settle_comments k r s) as [[-> _] | [i [t [l [-> _]]]]];
      [exact H|].
    rewrite Forall_forall in *.
    intros c' Hin. apply in_map_iff in Hin. destruct Hin as [c [<- Hin]].
    destruct (Js.eqb (id c) i); auto using withTranslation_wellFormed.
Qed.

(** Started from stored comments that are well formed (or from none),
    whatever happens to the comment section, every comment of the
    collection is well formed: its text is not empty, passed
    [isValidCommentText] and has nothing left to trim, its likes are not
    negative, and its dislikes are 0 or 1: a comment with 2 dislikes is
    never in the collection. *)
Theorem collection_stays_well_formed (aiConfigured : bool) (u : option User)
  (saved : list Comment) (es : list Event) :
  Forall wellFormed saved ->
  Forall wellFormed (comments (run es (mount aiConfigured u (Some saved)))).
Proof.
  intros H.
  assert (H0 : Forall wellFormed (comments (mount aiConfigured u (Some saved))))
    by exact H.
  revert H0. generalize (mount aiConfigured u (Some saved)).
  induction es as [|e es IH]; intros s Hs; simpl; [exact Hs|].
  apply IH, step_wellFormed, Hs.
Qed.

(** From the two stored comments of [twoComments]: a submission, a
    translation settled, and the first comment disliked away. *)
Lemma collection_stays_well_formed_witness :
  Forall wellFormed
    (comments
       (run [Typed (Js.lit "  Great video!  "); Submit 1700000000000 1700000000000;
             ClickTranslate 1 es; Settle 0 hola; Like (Js.lit "2");
             Dislike (Js.lit "1")]
          (twoComments true))).
Proof.
  apply (collection_stays_well_formed true (Some alice)
           [comment "1" "Hello" 1; comment "2" "Good morning" 0]).
  repeat constructor; try (vm_compute; congruence).
Defined.

(** *** The mount effects *)

(** In a production build the mounted section shows the stored comments
    and leaves them stored, as [mount] has it, although the save effect
    of the first render has overwritten the item with the empty array in
    between. Under [React.StrictMode] in a development build the second
    run of the load effect reads that empty array back: the section ends
    up empty, and the stored comments are lost. *)
Theorem stored_comments_survive_production_mount_only (aiConfigured : bool)
  (u : option User) (saved : option (list Comment)) :
  CommentMount.rendered (CommentMount.mountEffects false saved)
  = comments (mount aiConfigured u saved)
  /\ CommentMount.item (CommentMount.mountEffects false saved)
     = localStorage (mount aiConfigured u saved)
  /\ CommentMount.updates (CommentMount.mountEffects false saved) = []
  /\ CommentMount.item (CommentMount.runEffects (CommentMount.firstRender saved))
     = Some []
  /\ CommentMount.rendered (CommentMount.mountEffects true saved) = []
  /\ CommentMount.item (CommentMount.mountEffects true saved) = Some []
  /\ CommentMount.updates (CommentMount.mountEffects true saved) = [].
Proof.
  unfold CommentMount.mountEffects, CommentMount.runEffects,
    CommentMount.firstRender, CommentMount.loadEffect, mount.
  destruct saved as [l|]; simpl.
  - repeat split; reflexivity.
  - repeat split; reflexivity.
Qed.

(** *** Likes *)

(** [handleLike i] adds one like to every comment with id [i] and to no
    other; it removes and reorders nothing, leaves ids, texts and
    dislikes alone, raises no alert, and stores the collection. *)
Theorem like_increments_only (i : JsString) (s : CommentSection) :
  map likes (comments (handleLike i s))
  = map (fun c => if Js.eqb (id c) i then likes c + 1 else likes c)%Z
      (comments s)
  /\ map id (comments (handleLike i s)) = map id (comments s)
  /\ map text (comments (handleLike i s)) = map text (comments s)
  /\ map dislikes (comments (handleLike i s)) = map dislikes (comments s)
  /\ alerts (handleLike i s) = alerts s
  /\ error (handleLike i s) = error s
  /\ localStorage (handleLike i s) = Some (comments (handleLike i s)).
Proof.
  unfold handleLike. simpl. rewrite !map_map.
  repeat split; apply map_ext; intros c;
    destruct (Js.eqb (id c) i); reflexivity.
Qed.

(** *** A translation request and its completion *)

(** What the translation helper hands back is never empty for a text
    that is not: an empty or missing response falls back to the text. *)
Lemma settled_nonempty (t : JsString) (r : ApiResult) :
  t <> [] -> translateTextWithGemini_settled t r <> [].
Proof.
  intros Ht. destruct r as [[x|]|]; simpl; try exact Ht.
  - destruct x; simpl; [exact Ht | discriminate].
  - discriminate.
Qed.

Lemma nth_error_last (A : Type) (l : list A) (x : A) :
  nth_error (l ++ [x]) (List.length l) = Some x.
Proof. induction l as [|a l IH]; simpl; [reflexivity | exact IH]. Qed.

Lemma removeNth_last (A : Type) (l : list A) (x : A) :
  removeNth (List.length l) (l ++ [x]) = l.
Proof. induction l as [|a l IH]; simpl; [reflexivity | f_equal; exact IH]. Qed.

(** A translation request that is taken (a client is configured, the
    comment is not the one tracked and the skip test fails), for a text
    and a language that are not empty, followed by the completion of that
    request with any outcome [r]: every comment with the id gets the
    target language and a translated text, which is the response's text,
    or the original text when the response has none, or the failure text
    when the call threw, and is never empty; the tracked id is cleared,
    the request is no longer outstanding, the service was called once,
    and the collection is stored. *)
Theorem translation_request_completes (s : CommentSection) (k : nat)
  (c : Comment) (lang : JsString) (r : ApiResult) :
  ai s = true ->
  nth_error (comments s) k = Some c ->
  translatingCommentId s <> Some (id c) ->
  translatedText c <> Some (text c) \/ targetLang c <> Some lang ->
  (forall x, In x (comments s) -> id x = id c -> text x <> []) ->
  lang <> [] ->
  exists c0,
    find (fun x => Js.eqb (id x) (id c)) (comments s) = Some c0
    /\ comments (settle (List.length (pending s)) r (clickTranslate k lang s))
       = map (fun x => if Js.eqb (id x) (id c)
                       then withTranslation x
                              (translateTextWithGemini_settled (text c0) r) lang
                       else x)
           (comments s)
    /\ translateTextWithGemini_settled (text c0) r <> []
    /\ (forall x, r = ApiResponse (Some x) -> x <> [] ->
          translateTextWithGemini_settled (text c0) r = x)
    /\ (r = ApiError ->
          translateTextWithGemini_settled (text c0) r
          = Js.lit "Translation failed: " ++ text c0)
    /\ translatingCommentId
         (settle (List.length (pending s)) r (clickTranslate k lang s)) = None
    /\ pending (settle (List.length (pending s)) r (clickTranslate k lang s))
       = pending s
    /\ translatorCalls
         (settle (List.length (pending s)) r (clickTranslate k lang s))
       = translatorCalls s ++ [(text c0, lang)]
    /\ localStorage
         (settle (List.length (pending s)) r (clickTranslate k lang s))
       = Some (comments
                 (settle (List.length (pending s)) r (clickTranslate k lang s))).
Proof.
  intros Hai Hk Hnt Hnc Htext Hlang.
  destruct (find_shown _ _ _ Hk) as [c0 [Hf Hid]].
  assert (Hin : In c0 (comments s)) by (apply find_some in Hf; tauto).
  assert (Ht0 : text c0 <> []) by (apply Htext; assumption).
  assert (Hrun : translateTextWithGemini true (text c0) lang
                 = AwaitingApi (text c0) lang).
  { unfold translateTextWithGemini. simpl.
    destruct (text c0); [congruence|]. destruct lang; [congruence|].
    reflexivity. }
  assert (Hclick : clickTranslate k lang s
                   = setPending
                       (pending s
                        ++ [{| p_id := id c; p_targetLang := lang;
                               p_run := AwaitingApi (text c0) lang |}])
                       (translatorCalls s ++ [(text c0, lang)])
                       (setTranslatingCommentId (Some (id c)) s)).
  { unfold clickTranslate. rewrite Hk.
    assert (Hd : translateDisabled s c = false).
    { unfold translateDisabled, isTranslating. rewrite Hai.
      destruct (translatingCommentId s) as [j|]; [|reflexivity].
      simpl. rewrite orb_false_r. apply eqb_neq. congruence. }
    rewrite Hd. unfold handleTranslateClick.
    assert (Hc : optEqb (Some (text c)) (translatedText c)
                 && optEqb (targetLang c) (Some lang) = false).
    { apply andb_false_iff. destruct Hnc as [H | H]; [left | right].
      - destruct (optEqb (Some (text c)) (translatedText c)) eqn:E; auto.
        apply optEqb_eq in E. congruence.
      - destruct (optEqb (targetLang c) (Some lang)) eqn:E; auto.
        apply optEqb_eq in E. congruence. }
    rewrite Hc. unfold handleTranslate. rewrite Hf, Hai. simpl.
    rewrite Hrun. reflexivity. }
  exists c0. split; [exact Hf|].
  rewrite Hclick. unfold settle. simpl.
  rewrite nth_error_last, removeNth_last.
  unfold handleTranslate_resume. simpl.
  split; [reflexivity|].
  split; [apply settled_nonempty; exact Ht0|].
  split.
  { intros x -> Hx. simpl. destruct x; [congruence | reflexivity]. }
  split; [intros ->; reflexivity|].
  repeat split.
Qed.

(** On [twoComments]: the second comment is translated to Spanish. *)
Lemma translation_request_completes_witness :
  map translatedText
    (comments (settle 0 hola (clickTranslate 1 es (twoComments true))))
  = [None; Some (Js.lit "Hola")]
  /\ translatingCommentId
       (settle 0 hola (clickTranslate 1 es (twoComments true))) = None.
Proof.
  destruct (translation_request_completes (twoComments true) 1
              (comment "2" "Good morning" 0) es hola)
    as [c0 [Hf [Hc [_ [_ [_ [Ht _]]]]]]].
  - reflexivity.
  - reflexivity.
  - discriminate.
  - left. discriminate.
  - intros x [<- | [<- | []]] Hx; vm_compute; discriminate.
  - discriminate.
  - split; [|exact Ht].
    change (List.length (pending (twoComments true))) with 0%nat in Hc.
    rewrite Hc. vm_compute in Hf. injection Hf as <-. vm_compute. reflexivity.
Defined.

(** *** Ids under an advancing clock *)

Lemma dislike_ids_sublist (i : JsString) (l : list Comment) :
  (forall c', In c' (filterBoolean (map (dislikeOne i) l)) ->
     exists c, In c l /\ id c' = id c)
  /\ (NoDup (map id l) ->
      NoDup (map id (filterBoolean (map (dislikeOne i) l)))).
Proof.
  induction l as [|a l [IH1 IH2]]; simpl.
  - split; [intros c' [] | auto].
  - assert (Ha : dislikeOne i a = None
                 \/ exists a', dislikeOne i a = Some a' /\ id a' = id a).
    { unfold dislikeOne. destruct (Js.eqb (id a) i); [|right; eauto].
      destruct (2 <=? dislikes a + 1)%Z; [left; reflexivity|].
      right. eexists. split; reflexivity. }
    destruct Ha as [-> | [a' [-> Hid]]]; simpl.
    + split.
      * intros c' Hin. destruct (IH1 c' Hin) as [c [? ?]]. eauto.
      * intros Hnd. inversion Hnd; auto.
    + split.
      * intros c' [<- | Hin]; [eauto|].
        destruct (IH1 c' Hin) as [c [? ?]]. eauto.
      * intros Hnd. inversion Hnd as [|x xs Hnin Hnd']. subst.
        constructor; [|auto].
        intros Hin. apply in_map_iff in Hin. destruct Hin as [c' [Hc' Hin]].
        destruct (IH1 c' Hin) as [c [Hc Hcc]].
        apply Hnin. apply in_map_iff. exists c. split; [congruence | exact Hc].
Qed.

Lemma map_ids_kept (f : Comment -> Comment) (l : list Comment) :
  (forall c, id (f c) = id c) -> map id (map f l) = map id l.
Proof. intros H. rewrite map_map. apply map_ext. exact H. Qed.

(** A handler other than a submission adds no id and keeps distinct ids
    distinct. *)
Lemma other_step_ids (e : Event) (s : CommentSection) :
  (forall nowId nowTs, e <> Submit nowId nowTs) ->
  (forall i, In i (map id (comments (step e s))) -> In i (map id (comments s)))
  /\ (NoDup (map id (comments s)) -> NoDup (map id (comments (step e s)))).
Proof.
  intros He. destruct e as [t | nowId nowTs | i | i | k lang | k r]; simpl.
  - auto.
  - destruct (He nowId nowTs). reflexivity.
  - unfold handleLike. simpl. rewrite map_ids_kept; [auto|].
    intros c. destruct (Js.eqb (id c) i); reflexivity.
  - assert (Hc : comments (handleDislike i s)
                 = filterBoolean (map (dislikeOne i) (comments s)))
      by (unfold handleDislike; destruct (existsb _ _); reflexivity).
    rewrite Hc. destruct (dislike_ids_sublist i (comments s)) as [H1 H2].
    split; [|exact H2].
    intros j Hj. apply in_map_iff in Hj. destruct Hj as [c' [<- Hin]].
    destruct (H1 c' Hin) as [c [Hc' ->]]. apply in_map. exact Hc'.
  - destruct (clickTranslate_comments k lang s) as [-> _]. auto.
  - destruct (settle_comments k r s) as [[-> _] | [i [t [l [-> _]]]]];
      [auto|].
    rewrite map_ids_kept; [auto|].
    intros c. destruct (Js.eqb (id c) i); reflexivity.
Qed.

Lemma run_ids_distinct (es : list Event) :
  forall (s : CommentSection) (seen : list Z),
    NoDup (map id (comments s)) ->
    (forall i, In i (map id (comments s)) ->
       exists n, In n seen /\ i = Js.toString n) ->
    StronglySorted Z.lt (submitClocks es) ->
    (forall n n', In n seen -> In n' (submitClocks es) -> (n < n')%Z) ->
    NoDup (map id (comments (run es s))).
Proof.
  induction es as [|e es IH]; intros s seen Hnd Hseen Hsort Hlt;
    [exact Hnd|].
  change (run (e :: es) s) with (run es (step e s)).
  assert (Hother : (forall a b, e <> Submit a b) ->
                   submitClocks (e :: es) = submitClocks es ->
                   NoDup (map id (comments (run es (step e s))))).
  { intros Ho Hc. rewrite Hc in Hsort, Hlt.
    destruct (other_step_ids e s Ho) as [Hsub Hkeep].
    apply (IH _ seen); auto. }
  destruct e as [t | nowId nowTs | i | i | k lang | k r];
    try (apply Hother; [intros a b; discriminate | reflexivity]).
  clear Hother.
  simpl in Hsort, Hlt. inversion Hsort as [|x xs Hs' Hall]. subst.
  apply (IH _ (nowId :: seen)); auto.
  - apply submit_fresh_id; [exact Hnd|].
    intros c Hc E.
    destruct (Hseen (id c) (in_map id _ _ Hc)) as [n [Hn En]].
    rewrite En in E. apply toString_inj in E. subst n.
    specialize (Hlt nowId nowId Hn (or_introl eq_refl)). lia.
  - intros i Hi. simpl.
    unfold step, handleCommentSubmit in Hi.
    destruct (currentUser s) as [u|];
      [|destruct (Hseen i Hi) as [n [? ?]]; eauto].
    destruct (Js.falsy _);
      [destruct (Hseen i Hi) as [n [? ?]]; eauto|].
    destruct (negb _);
      [destruct (Hseen i Hi) as [n [? ?]]; eauto|].
    simpl in Hi. destruct Hi as [<- | Hi]; [eauto|].
    destruct (Hseen i Hi) as [n [? ?]]; eauto.
  - intros n n' [<- | Hn] Hn'.
    + rewrite Forall_forall in Hall. apply Hall. exact Hn'.
    + apply Hlt; [exact Hn | right; exact Hn'].
Qed.

(** Started with no stored comments, if every submission of a run reads
    a later millisecond from [Date.now()] than the submissions before
    it, the ids of the collection are pairwise distinct, whatever else
    happens in the run. *)
Theorem ids_distinct_under_advancing_clock (aiConfigured : bool)
  (u : option User) (es : list Event) :
  StronglySorted Z.lt (submitClocks es) ->
  NoDup (map id (comments (run es (mount aiConfigured u None)))).
Proof.
  intros Hs. apply (run_ids_distinct es _ []); simpl; auto.
  - constructor.
  - intros i [].
  - intros n n' [].
Qed.

(** Two submissions a millisecond apart. *)
Lemma ids_distinct_under_advancing_clock_witness :
  NoDup
    (map id
       (comments
          (run [Typed (Js.lit "first"); Submit 1700000000000 1700000000000;
                Typed (Js.lit "second"); Submit 1700000000001 1700000000001]
             (mount true (Some alice) None)))).
Proof.
  apply (ids_distinct_under_advancing_clock true (Some alice)).
  simpl. repeat constructor.
Defined.

End EngagementLaws.

(* ------------------------------------------------------------------ *)
(** ** Properties of the application shell *)

Module AppFacts.

Import App AppNotions JsFacts.

(** *** The store *)

Lemma lookup_assign_same (V : Type) (k : JsString) (v : V)
  (m : list (JsString * V)) :
  Dict.lookup k (Dict.assign k v m) = Some v.
Proof. unfold Dict.assign. simpl. rewrite eqb_refl. reflexivity. Qed.

Lemma lookup_filter_other (V : Type) (k k' : JsString)
  (m : list (JsString * V)) :
  k' <> k ->
  Dict.lookup k (filter (fun kv => negb (Js.eqb (fst kv) k')) m)
  = Dict.lookup k m.
Proof.
  intros Hk. induction m as [|[a v] m IH]; simpl; [reflexivity|].
  destruct (Js.eqb a k') eqn:E; simpl.
  - apply eqb_eq in E. subst a.
    assert (E' : Js.eqb k' k = false) by (apply eqb_neq; exact Hk).
    rewrite E'. exact IH.
  - destruct (Js.eqb a k); [reflexivity | exact IH].
Qed.

Lemma lookup_assign_other (V : Type) (k k' : JsString) (v : V)
  (m : list (JsString * V)) :
  k' <> k -> Dict.lookup k (Dict.assign k' v m) = Dict.lookup k m.
Proof.
  intros Hk. unfold Dict.assign. simpl.
  assert (E : Js.eqb k' k = false) by (apply eqb_neq; exact Hk).
  rewrite E. apply lookup_filter_other. exact Hk.
Qed.

Lemma pageEqb_eq (a b : Page) : pageEqb a b = true <-> a = b.
Proof. destruct a, b; simpl; split; congruence. Qed.

Lemma pageEqb_refl (a : Page) : pageEqb a a = true.
Proof. destruct a; reflexivity. Qed.

(** *** The plan in force *)

(** The plan handed to the player is always one of the four plans: it is
    the plan with the current id when there is one, and the free plan for
    any other id. *)
Theorem plan_falls_back_to_free (planId : JsString) :
  In (planOf planId) Playback.plans
  /\ (knownPlanId planId -> Playback.id (planOf planId) = planId)
  /\ (~ knownPlanId planId -> planOf planId = Playback.freePlan).
Proof.
  unfold planOf, knownPlanId.
  destruct (find _ Playback.plans) as [p|] eqn:Hf.
  - apply find_some in Hf. destruct Hf as [Hin He]. apply eqb_eq in He.
    split; [exact Hin|]. split; [intros _; exact He|].
    intros Hn. exfalso. apply Hn. rewrite <- He. apply in_map. exact Hin.
  - split; [left; reflexivity|]. split; [|reflexivity].
    intros Hk. apply in_map_iff in Hk. destruct Hk as [p [Hp Hin]].
    pose proof (find_none _ _ Hf p Hin) as Hn. simpl in Hn.
    rewrite Hp, eqb_refl in Hn. discriminate.
Qed.

Lemma planOf_known (planId : JsString) :
  knownPlanId planId -> Playback.id (planOf planId) = planId.
Proof.
  unfold knownPlanId. simpl.
  intros [<- | [<- | [<- | [<- | []]]]]; reflexivity.
Qed.

(** *** What the render after a handler changes *)

Lemma commit_cells (prev : App) (r : bool) (s : App) :
  isAuthenticated (commit prev r s) = isAuthenticated s
  /\ currentUser (commit prev r s) = currentUser s
  /\ currentPage (commit prev r s) = currentPage s
  /\ currentPlanId (commit prev r s) = currentPlanId s
  /\ isSouthIndiaSimulated (commit prev r s) = isSouthIndiaSimulated s
  /\ mockUserStore (commit prev r s) = mockUserStore s
  /\ hour (commit prev r s) = hour s
  /\ alerts (commit prev r s) = alerts s
  /\ item_userPlan (localStorage (commit prev r s))
     = item_userPlan (localStorage s)
  /\ loginPage (commit prev r s)
     = match renderPage s with
       | RLogin => loginPage s
       | _ => LoginPage.initial
       end
  /\ signupPage (commit prev r s)
     = match renderPage s with
       | RSignup => signupPage s
       | _ => SignupPage.initial
       end.
Proof.
  destruct s as [au cu pg pid th sim lp sp ls ms hr al].
  unfold commit.
  destruct (negb (Js.eqb (currentPlanId prev) _));
    destruct (authDepsChanged prev r _);
    destruct (negb (Bool.eqb (isSouthIndiaSimulated prev) _));
    destruct au; destruct pg; repeat split; reflexivity.
Qed.

Lemma commit_renderPage (prev : App) (r : bool) (s : App) :
  renderPage (commit prev r s) = renderPage s.
Proof.
  destruct (commit_cells prev r s) as [Ha [_ [Hp _]]].
  unfold renderPage. rewrite Ha, Hp. reflexivity.
Qed.

(** The theme after the render: computed anew when the simulation flag
    changed, else as the handler left it. *)
Lemma commit_theme (prev : App) (r : bool) (s : App) :
  theme (commit prev r s)
  = if negb (Bool.eqb (isSouthIndiaSimulated prev) (isSouthIndiaSimulated s))
    then (if isSouthIndiaSimulated s
             && ((10 <=? hour s)%Z && (hour s <? 12)%Z)
          then light else dark)
    else theme s.
Proof.
  destruct s as [au cu pg pid th sim lp sp ls ms hr al].
  unfold commit.
  destruct (negb (Js.eqb (currentPlanId prev) _));
    destruct (authDepsChanged prev r _);
    destruct (negb (Bool.eqb (isSouthIndiaSimulated prev) _));
    destruct au; destruct pg; reflexivity.
Qed.

Lemma commit_storage (prev : App) (r : bool) (s : App) :
  localStorage (commit prev r s)
  = localStorage
      (let s1 :=
         if negb (Js.eqb (currentPlanId prev) (currentPlanId s))
         then planIdEffect s else s in
       if authDepsChanged prev r s then authEffect s1 else s1).
Proof.
  destruct s as [au cu pg pid th sim lp sp ls ms hr al].
  unfold commit.
  destruct (negb (Js.eqb (currentPlanId prev) _));
    destruct (authDepsChanged prev r _);
    destruct (negb (Bool.eqb (isSouthIndiaSimulated prev) _));
    destruct au; destruct pg; reflexivity.
Qed.

(** The session items after the render, when the handler left the items
    as the previous render had them, or removed the session while signing
    out, and flagged every new user object. *)
Lemma commit_mirrored (prev : App) (r : bool) (s : App) :
  mirrored prev ->
  item_currentPlanId (localStorage s) = item_currentPlanId (localStorage prev) ->
  (item_isAuthenticated (localStorage s) = item_isAuthenticated (localStorage prev)
   /\ item_currentUser (localStorage s) = item_currentUser (localStorage prev)
   /\ item_currentPage (localStorage s) = item_currentPage (localStorage prev)
   /\ (currentUser s = currentUser prev \/ r = true))
  \/ (isAuthenticated s = false
      /\ item_isAuthenticated (localStorage s) = false
      /\ item_currentUser (localStorage s) = None
      /\ item_currentPage (localStorage s) = None) ->
  mirrored (commit prev r s).
Proof.
  intros [Ma [Mu [Mp Mi]]] Hid Hsess.
  destruct (commit_cells prev r s) as [Ca [Cu [Cp [Ci _]]]].
  unfold mirrored. rewrite Ca, Cu, Cp, Ci, commit_storage. clear Ca Cu Cp Ci.
  assert (Hplan : item_currentPlanId
                    (localStorage
                       (if negb (Js.eqb (currentPlanId prev) (currentPlanId s))
                        then planIdEffect s else s))
                  = Some (currentPlanId s)).
  { destruct (Js.eqb (currentPlanId prev) (currentPlanId s)) eqn:E; simpl.
    - apply eqb_eq in E. rewrite Hid, Mi, E. reflexivity.
    - reflexivity. }
  assert (Hkeep : forall x : App,
             x = (if negb (Js.eqb (currentPlanId prev) (currentPlanId s))
                  then planIdEffect s else s) ->
             isAuthenticated x = isAuthenticated s
             /\ currentUser x = currentUser s
             /\ currentPage x = currentPage s
             /\ item_isAuthenticated (localStorage x)
                = item_isAuthenticated (localStorage s)
             /\ item_currentUser (localStorage x)
                = item_currentUser (localStorage s)
             /\ item_currentPage (localStorage x)
                = item_currentPage (localStorage s)).
  { intros x ->. destruct (negb _); simpl; auto 10. }
  set (s1 := if negb (Js.eqb (currentPlanId prev) (currentPlanId s))
             then planIdEffect s else s) in *.
  destruct (Hkeep s1 eq_refl) as [Ka [Ku [Kp [Kia [Kiu Kip]]]]].
  clearbody s1. cbv zeta.
  destruct (authDepsChanged prev r s) eqn:Hd.
  - unfold authEffect. rewrite Ka, Ku, Kp.
    destruct (isAuthenticated s); simpl; auto.
  - rewrite Kia, Kiu, Kip, Hplan.
    unfold authDepsChanged in Hd.
    apply orb_false_iff in Hd. destruct Hd as [Hd Hpg].
    apply orb_false_iff in Hd. destruct Hd as [Hd Hsome].
    apply orb_false_iff in Hd. destruct Hd as [Hau Hr].
    apply negb_false_iff, eqb_prop in Hau.
    apply negb_false_iff, pageEqb_eq in Hpg.
    destruct Hsess as [[-> [-> [-> [Hu | Hu]]]] | [Hf [-> [-> ->]]]].
    + rewrite Ma, Mu, Mp, Hau, Hu, Hpg. auto.
    + congruence.
    + rewrite Hf. auto.
Qed.

(** *** The invariant *)

Lemma knownPlanId_nonempty (i : JsString) : knownPlanId i -> Js.falsy i = false.
Proof.
  unfold knownPlanId. simpl.
  intros [<- | [<- | [<- | [<- | []]]]]; reflexivity.
Qed.

Lemma knownPlanId_free : knownPlanId (Playback.id Playback.freePlan).
Proof. left. reflexivity. Qed.

Lemma commit_consistent (s s1 : App) (r : bool) :
  consistent s -> handled s s1 r -> consistent (commit s r s1).
Proof.
  intros [_ [_ [Mir [_ [_ [Th _]]]]]]
         [H1 [H2 [Hid [Hsess [Hk [Hup [Hth [Hst [Hl Hs]]]]]]]]].
  destruct (commit_cells s r s1)
    as [Ca [Cu [Cp [Ci [Csim [Cm [_ [_ [Cup [Clp Csp]]]]]]]]]].
  pose proof (commit_renderPage s r s1) as Cr.
  unfold consistent, otpStageSound.
  rewrite Cr, Ca, Cu, Cp, Ci, Csim, Cm, Cup, Clp, Csp.
  split; [exact H1|]. split; [exact H2|].
  split; [apply commit_mirrored; assumption|].
  split; [exact Hk|]. split; [exact Hup|].
  split.
  { rewrite commit_theme.
    destruct (Bool.eqb (isSouthIndiaSimulated s) (isSouthIndiaSimulated s1))
      eqn:E; simpl.
    - apply eqb_prop in E. rewrite Hth, <- E. exact Th.
    - destruct (isSouthIndiaSimulated s1); simpl; [auto | discriminate]. }
  split; [destruct (renderPage s1); congruence|].
  split; [destruct (renderPage s1); congruence|].
  split; [exact Hst|].
  split.
  - destruct (renderPage s1); try (simpl; discriminate). exact Hl.
  - destruct (renderPage s1); try (simpl; discriminate). exact Hs.
Qed.

Lemma mount_consistent (st : Storage) (h : Z) :
  (item_isAuthenticated st = true ->
     (exists u, item_currentUser st = Some (Some u))
     /\ exists p, item_currentPage st = Some p /\ p <> login /\ p <> signup) ->
  (item_isAuthenticated st = false -> item_currentUser st = None) ->
  (forall i, item_currentPlanId st = Some i -> knownPlanId i) ->
  (forall k i, Dict.lookup k (item_userPlan st) = Some i -> knownPlanId i) ->
  consistent (mount st h).
Proof.
  intros Hauth Hout Hid Hup.
  destruct st as [ia iu ip ii iup]. simpl in *.
  assert (Hk : knownPlanId
                 match ii with
                 | Some i => if Js.falsy i then Playback.id Playback.freePlan else i
                 | None => Playback.id Playback.freePlan
                 end).
  { destruct ii as [i|]; [|exact knownPlanId_free].
    rewrite (knownPlanId_nonempty i (Hid i eq_refl)). exact (Hid i eq_refl). }
  unfold consistent, mirrored, otpStageSound, storeSound, mount, themeEffect,
    authEffect, planIdEffect, renderPage.
  destruct ia; simpl.
  - destruct (Hauth eq_refl) as [[u ->] [p [-> [Hp1 Hp2]]]]. simpl.
    repeat split; auto; try discriminate; try congruence.
  - rewrite (Hout eq_refl). simpl.
    repeat split; auto; try discriminate; try congruence.
Qed.

Lemma consistent_storage (s : App) :
  consistent s ->
  (item_isAuthenticated (localStorage s) = true ->
     (exists u, item_currentUser (localStorage s) = Some (Some u))
     /\ exists p, item_currentPage (localStorage s) = Some p
                  /\ p <> login /\ p <> signup)
  /\ (item_isAuthenticated (localStorage s) = false ->
        item_currentUser (localStorage s) = None)
  /\ (forall i, item_currentPlanId (localStorage s) = Some i -> knownPlanId i)
  /\ (forall k i,
        Dict.lookup k (item_userPlan (localStorage s)) = Some i ->
        knownPlanId i).
Proof.
  intros [H1 [H2 [[Ma [Mu [Mp Mi]]] [Hk [Hup _]]]]].
  rewrite Ma, Mu, Mp, Mi.
  split; [|split; [|split]].
  - intros Ha. rewrite Ha. destruct (H2 Ha) as [Hp1 Hp2].
    apply H1 in Ha. destruct (currentUser s) as [u|]; [|congruence].
    split; eauto.
  - intros ->. reflexivity.
  - intros i [= <-]. exact Hk.
  - exact Hup.
Qed.

Lemma handled_frame (s s1 : App) :
  consistent s ->
  isAuthenticated s1 = isAuthenticated s ->
  currentUser s1 = currentUser s ->
  (isAuthenticated s = true ->
     currentPage s1 <> login /\ currentPage s1 <> signup) ->
  currentPlanId s1 = currentPlanId s ->
  localStorage s1 = localStorage s ->
  theme s1 = theme s ->
  storeSound (mockUserStore s1) ->
  otpStageSound s1 ->
  handled s s1 false.
Proof.
  intros [H1 [_ [_ [Hk [Hup _]]]]] Ha Hu Hp Hi Hl Ht Hst Ho.
  unfold handled. rewrite Ha, Hu, Hi, Hl.
  split; [exact H1|]. split; [exact Hp|]. split; [reflexivity|].
  split; [left; auto|].
  split; [exact Hk|]. split; [exact Hup|]. auto.
Qed.

Lemma otpStageSound_ext (s s1 : App) :
  loginPage s1 = loginPage s ->
  signupPage s1 = signupPage s ->
  mockUserStore s1 = mockUserStore s ->
  otpStageSound s -> otpStageSound s1.
Proof. unfold otpStageSound. intros -> -> ->. auto. Qed.

Lemma consistent_otp (s : App) : consistent s -> otpStageSound s.
Proof. unfold consistent. tauto. Qed.

Lemma consistent_store (s : App) : consistent s -> storeSound (mockUserStore s).
Proof. unfold consistent. tauto. Qed.

Lemma handled_setCurrentPage (s : App) (q : Page) :
  consistent s ->
  (isAuthenticated s = true -> q <> login /\ q <> signup) ->
  handled s (setCurrentPage q s) false.
Proof.
  intros Hc Hq. apply handled_frame; auto.
  - exact (consistent_store s Hc).
  - apply (otpStageSound_ext s); auto. exact (consistent_otp s Hc).
Qed.

Lemma handled_refl (s : App) : consistent s -> handled s s false.
Proof.
  intros Hc. apply handled_frame; auto.
  - unfold consistent in Hc. tauto.
  - exact (consistent_store s Hc).
  - exact (consistent_otp s Hc).
Qed.

Lemma handleNavigate_handled (s : App) (p : Page) :
  consistent s -> handled s (handleNavigate p s) false.
Proof.
  intros Hc. unfold handleNavigate.
  destruct p; try (destruct (isAuthenticated s) eqn:E);
    apply handled_setCurrentPage; auto;
    intros; split; congruence.
Qed.

Lemma handleLogout_handled (s : App) :
  consistent s -> handled s (handleLogout s) false.
Proof.
  intros Hc. pose proof (consistent_store s Hc) as Hst.
  pose proof (consistent_otp s Hc) as Ho.
  destruct Hc as [H1 [_ [_ [Hk [Hup _]]]]].
  unfold handled, handleLogout. simpl.
  split; [split; [discriminate | congruence]|].
  split; [discriminate|]. split; [reflexivity|].
  split; [right; auto|]. auto.
Qed.

Lemma renderPage_signed_out (s : App) :
  renderPage s = RLogin \/ renderPage s = RSignup -> isAuthenticated s = false.
Proof.
  unfold renderPage.
  destruct (isAuthenticated s); [|reflexivity].
  destruct (currentPage s); simpl; intros [H | H]; discriminate.
Qed.

Lemma renderPage_signed_in (s : App) :
  renderPage s = RSubscriptions -> isAuthenticated s = true.
Proof.
  unfold renderPage.
  destruct (isAuthenticated s); [reflexivity|].
  destruct (currentPage s); simpl; discriminate.
Qed.

Lemma consistent_login_hidden (s : App) :
  consistent s -> renderPage s <> RLogin -> loginPage s = LoginPage.initial.
Proof. unfold consistent. tauto. Qed.

Lemma consistent_signup_hidden (s : App) :
  consistent s -> renderPage s <> RSignup -> signupPage s = SignupPage.initial.
Proof. unfold consistent. tauto. Qed.

(** A handler of [LoginPage] that leaves the stage of the page sound. *)
Lemma handled_setLoginPage (s : App) (l : LoginPage.State) :
  consistent s ->
  (LoginPage.showOtpInput l = true ->
     exists u,
       Dict.lookup (LoginPage.email l) (mockUserStore s) = Some u
       /\ passwordHash u = LoginPage.password l) ->
  handled s (setLoginPage l s) false.
Proof.
  intros Hc Hl. apply handled_frame; auto.
  - unfold consistent in Hc. tauto.
  - exact (consistent_store s Hc).
  - destruct (consistent_otp s Hc) as [_ Hs]. split; [exact Hl | exact Hs].
Qed.

Lemma handled_setSignupPage (s : App) (l : SignupPage.State)
  (m : list (JsString * StoredUser)) :
  consistent s ->
  storeSound m ->
  (LoginPage.showOtpInput (loginPage s) = true ->
     exists u,
       Dict.lookup (LoginPage.email (loginPage s)) m = Some u
       /\ passwordHash u = LoginPage.password (loginPage s)) ->
  (SignupPage.showOtpInput l = true ->
     Dict.lookup (SignupPage.email l) m
     = Some {| userDetails :=
                 {| Engagement.username := SignupPage.username l;
                    Engagement.email := SignupPage.email l |};
               passwordHash := SignupPage.password l |}) ->
  handled s (setMockUserStore m (setSignupPage l s)) false.
Proof.
  intros Hc Hm Hl Hs. apply handled_frame; auto.
  - unfold consistent in Hc. tauto.
  - split; [exact Hl | exact Hs].
Qed.

Lemma handled_alert (s s1 : App) (r : bool) (a : Alert) :
  handled s s1 r -> handled s (alert a s1) r.
Proof. intros H. exact H. Qed.

Lemma handled_optAlert (s s1 : App) (r : bool) (o : option JsString) :
  handled s s1 r -> handled s (optAlert o s1) r.
Proof. intros H. destruct o; exact H. Qed.

Lemma loginInput_handled (s : App) (f : LoginField) (v : JsString) :
  consistent s -> handled s (fst (handle (LoginInput f v) s)) false.
Proof.
  intros Hc. pose proof (consistent_otp s Hc) as [Ho _]. simpl.
  destruct (renderPage s); try (destruct f; exact (handled_refl s Hc)).
  destruct f; destruct (LoginPage.showOtpInput (loginPage s)) eqn:E;
    try exact (handled_refl s Hc); simpl;
    apply handled_setLoginPage; auto; simpl; rewrite E; discriminate.
Qed.

Lemma loginContinue_handled (s : App) :
  consistent s -> handled s (fst (handle LoginContinue s)) false.
Proof.
  intros Hc. simpl.
  destruct (renderPage s); try exact (handled_refl s Hc).
  destruct (LoginPage.showOtpInput (loginPage s)) eqn:E; simpl;
    [exact (handled_refl s Hc)|].
  destruct (emailInputValid _ && negb _); [|exact (handled_refl s Hc)].
  unfold LoginPage.handleSubmitAttempt.
  destruct (Js.falsy _ || Js.falsy _); simpl.
  { apply handled_setLoginPage; auto. simpl. rewrite E. discriminate. }
  destruct (Dict.lookup _ (mockUserStore s)) as [u|] eqn:L; simpl.
  - destruct (Js.eqb (passwordHash u) _) eqn:P; simpl.
    + apply handled_alert, handled_setLoginPage; auto. simpl.
      intros _. exists u. split; [exact L|]. apply eqb_eq. exact P.
    + apply handled_setLoginPage; auto. simpl. rewrite E. discriminate.
  - apply handled_setLoginPage; auto. simpl. rewrite E. discriminate.
Qed.

Lemma falsy_false (v : JsString) : Js.falsy v = false -> v <> [].
Proof. destruct v; [discriminate | intros _; discriminate]. Qed.

Lemma storedPlan_known (m : list (JsString * JsString)) (k : JsString) :
  (forall k' i, Dict.lookup k' m = Some i -> knownPlanId i) ->
  knownPlanId
    match Dict.lookup k m with
    | Some i => if Js.falsy i then Playback.id Playback.freePlan else i
    | None => Playback.id Playback.freePlan
    end.
Proof.
  intros H. destruct (Dict.lookup k m) as [i|] eqn:L; [|exact knownPlanId_free].
  rewrite (knownPlanId_nonempty i (H k i L)). exact (H k i L).
Qed.

Lemma assign_known (m : list (JsString * JsString)) (k v : JsString) :
  knownPlanId v ->
  (forall k' i, Dict.lookup k' m = Some i -> knownPlanId i) ->
  forall k' i, Dict.lookup k' (Dict.assign k v m) = Some i -> knownPlanId i.
Proof.
  intros Hv H k' i.
  destruct (Js.eqb k k') eqn:E.
  - apply eqb_eq in E. subst k'. rewrite lookup_assign_same.
    intros [= <-]. exact Hv.
  - apply eqb_neq in E. rewrite lookup_assign_other by exact E. apply H.
Qed.

Lemma handleLogin_handled (s : App) (email : JsString) :
  consistent s ->
  isAuthenticated s = false ->
  handled s (handleLogin email s) (isSome (Dict.lookup email (mockUserStore s))).
Proof.
  intros Hc Ha. unfold handleLogin.
  destruct (Dict.lookup email (mockUserStore s)) as [u|] eqn:L.
  - pose proof (consistent_store s Hc) as Hst.
    pose proof (consistent_otp s Hc) as Ho.
    destruct Hc as [_ [_ [_ [_ [Hup _]]]]].
    unfold handled. simpl.
    split; [split; [discriminate | reflexivity]|].
    split; [intros _; split; discriminate|].
    split; [reflexivity|].
    split; [left; auto|].
    split; [apply storedPlan_known; exact Hup|]. auto.
  - apply handled_alert, handled_refl. exact Hc.
Qed.

Lemma handleSignup_handled (s : App) (username email : JsString) :
  consistent s ->
  isAuthenticated s = false ->
  handled s (handleSignup username email s)
    (isSome (Dict.lookup email (mockUserStore s))).
Proof.
  intros Hc Ha. unfold handleSignup.
  destruct (Dict.lookup email (mockUserStore s)) as [u|] eqn:L.
  - pose proof (consistent_store s Hc) as Hst.
    pose proof (consistent_otp s Hc) as Ho.
    destruct Hc as [_ [_ [_ [_ [Hup _]]]]].
    unfold handled. simpl.
    split; [split; [discriminate | reflexivity]|].
    split; [intros _; split; discriminate|].
    split; [reflexivity|].
    split; [left; auto|].
    split; [exact knownPlanId_free|].
    split; [apply assign_known; [exact knownPlanId_free | exact Hup]|]. auto.
  - apply handled_alert, handled_refl. exact Hc.
Qed.

Lemma handleUpgradePlan_handled (s : App) (planId : JsString) :
  consistent s ->
  isAuthenticated s = true ->
  handled s (handleUpgradePlan planId s) false.
Proof.
  intros Hc Ha. unfold handleUpgradePlan.
  destruct (find _ Playback.plans) as [p|] eqn:F;
    destruct (currentUser s) as [u|] eqn:U.
  - assert (Hk : knownPlanId planId).
    { apply find_some in F. destruct F as [Hin He]. apply eqb_eq in He.
      rewrite <- He. apply in_map. exact Hin. }
    pose proof (consistent_store s Hc) as Hst.
    pose proof (consistent_otp s Hc) as Ho.
    destruct Hc as [H1 [H2 [_ [_ [Hup _]]]]].
    unfold handled. simpl.
    split; [exact H1|]. split; [exact H2|]. split; [reflexivity|].
    split; [left; auto|]. split; [exact Hk|].
    split; [apply assign_known; [exact Hk | exact Hup]|]. auto.
  - destruct Hc as [H1 _]. apply H1 in Ha. congruence.
  - apply handled_refl. exact Hc.
  - destruct Hc as [H1 _]. apply H1 in Ha. congruence.
Qed.

Lemma loginOtpSubmit_handled (s : App) :
  consistent s ->
  handled s (fst (handle LoginOtpSubmit s)) (snd (handle LoginOtpSubmit s)).
Proof.
  intros Hc. simpl.
  destruct (renderPage s) eqn:R; try exact (handled_refl s Hc).
  destruct (LoginPage.showOtpInput (loginPage s) && negb _) eqn:G;
    [|exact (handled_refl s Hc)].
  apply andb_true_iff in G. destruct G as [G _].
  unfold LoginPage.handleOtpSubmit.
  destruct (Js.eqb _ mockOtp); simpl.
  - assert (E : setLoginPage (loginPage s) s = s) by (destruct s; reflexivity).
    rewrite E. apply handleLogin_handled; [exact Hc|].
    apply renderPage_signed_out. left. exact R.
  - apply handled_setLoginPage; [exact Hc|]. simpl.
    exact (proj1 (consistent_otp s Hc)).
Qed.

Lemma signupInput_handled (s : App) (f : SignupField) (v : JsString) :
  consistent s -> handled s (fst (handle (SignupInput f v) s)) false.
Proof.
  intros Hc. pose proof (consistent_otp s Hc) as [Ho Hs].
  pose proof (consistent_store s Hc) as Hst. simpl.
  assert (Hm : forall l, setMockUserStore (mockUserStore s) (setSignupPage l s)
                         = setSignupPage l s) by reflexivity.
  destruct (renderPage s); try (destruct f; exact (handled_refl s Hc)).
  destruct f; destruct (SignupPage.showOtpInput (signupPage s)) eqn:E;
    try exact (handled_refl s Hc); simpl;
    rewrite <- Hm; apply handled_setSignupPage; auto; simpl; rewrite E;
    discriminate.
Qed.

Lemma signupAttempt_handled (s : App) (l : SignupPage.State)
  (m : list (JsString * StoredUser)) (a : option JsString) :
  consistent s ->
  renderPage s = RSignup ->
  SignupPage.showOtpInput (signupPage s) = false ->
  Js.falsy (SignupPage.username (signupPage s)) = false ->
  emailInputValid (SignupPage.email (signupPage s)) = true ->
  Js.falsy (SignupPage.password (signupPage s)) = false ->
  SignupPage.handleSubmitAttempt (mockUserStore s) (signupPage s) = (l, m, a) ->
  handled s (setMockUserStore m (setSignupPage l s)) false.
Proof.
  intros Hc R E Fu Fe Fp H.
  pose proof (consistent_otp s Hc) as [Ho Hs].
  pose proof (consistent_store s Hc) as Hst.
  assert (Hl : loginPage s = LoginPage.initial).
  { apply (consistent_login_hidden s Hc). rewrite R. discriminate. }
  unfold SignupPage.handleSubmitAttempt in H.
  destruct (Js.falsy _ || Js.falsy _ || Js.falsy _).
  { injection H as <- <- <-.
    apply handled_setSignupPage; auto; simpl; rewrite E; discriminate. }
  destruct (Dict.lookup _ (mockUserStore s)) as [u|] eqn:L.
  { injection H as <- <- <-.
    apply handled_setSignupPage; auto; simpl; rewrite E; discriminate. }
  injection H as <- <- <-.
  apply handled_setSignupPage; auto.
  - intros k u. destruct (Js.eqb (SignupPage.email (signupPage s)) k) eqn:K.
    + apply eqb_eq in K. subst k. rewrite lookup_assign_same.
      intros [= <-]. simpl.
      split; [reflexivity|]. split; [exact Fe|].
      split; apply falsy_false; assumption.
    + apply eqb_neq in K. rewrite lookup_assign_other by exact K. apply Hst.
  - rewrite Hl. simpl. discriminate.
  - intros _. simpl. apply lookup_assign_same.
Qed.

Lemma signupSubmit_handled (s : App) :
  consistent s -> handled s (fst (handle SignupSubmit s)) false.
Proof.
  intros Hc. unfold handle.
  destruct (renderPage s) eqn:R; try exact (handled_refl s Hc).
  destruct (SignupPage.showOtpInput (signupPage s)) eqn:E;
    [exact (handled_refl s Hc)|].
  destruct (Js.falsy (SignupPage.username (signupPage s))) eqn:Fu;
    [exact (handled_refl s Hc)|].
  destruct (emailInputValid (SignupPage.email (signupPage s))) eqn:Fe;
    [|exact (handled_refl s Hc)].
  destruct (Js.falsy (SignupPage.password (signupPage s))) eqn:Fp;
    [exact (handled_refl s Hc)|].
  cbn [negb andb].
  destruct (SignupPage.handleSubmitAttempt _ _) as [[l m] a] eqn:H.
  cbn [fst]. apply handled_optAlert.
  apply (signupAttempt_handled s l m a); assumption.
Qed.

Lemma signupOtpSubmit_handled (s : App) :
  consistent s ->
  handled s (fst (handle SignupOtpSubmit s)) (snd (handle SignupOtpSubmit s)).
Proof.
  intros Hc. simpl.
  destruct (renderPage s) eqn:R; try exact (handled_refl s Hc).
  destruct (SignupPage.showOtpInput (signupPage s) && negb _) eqn:G;
    [|exact (handled_refl s Hc)].
  unfold SignupPage.handleOtpSubmit.
  destruct (Js.eqb _ mockOtp); simpl.
  - assert (E : setSignupPage (signupPage s) s = s) by (destruct s; reflexivity).
    rewrite E. apply handleSignup_handled; [exact Hc|].
    apply renderPage_signed_out. right. exact R.
  - change (setSignupPage ?l s)
      with (setMockUserStore (mockUserStore s) (setSignupPage l s)).
    apply handled_setSignupPage; [exact Hc| | |].
    + exact (consistent_store s Hc).
    + exact (proj1 (consistent_otp s Hc)).
    + simpl. exact (proj2 (consistent_otp s Hc)).
Qed.

(** Every handler leaves what the render after it needs. *)
Lemma handle_handled (e : Event) (s : App) :
  consistent s -> handled s (fst (handle e s)) (snd (handle e s)).
Proof.
  intros Hc. destruct e.
  - exact (handleNavigate_handled s _ Hc).
  - unfold handle. destruct (isAuthenticated s && _);
      [exact (handleNavigate_handled s _ Hc) | exact (handled_refl s Hc)].
  - unfold handle. destruct (isAuthenticated s && _);
      [exact (handled_refl s Hc) | exact (handleNavigate_handled s _ Hc)].
  - unfold handle. destruct (isAuthenticated s && _);
      [exact (handled_refl s Hc) | exact (handleNavigate_handled s _ Hc)].
  - unfold handle. destruct (isAuthenticated s && _);
      [exact (handleLogout_handled s Hc) | exact (handled_refl s Hc)].
  - unfold handle. cbn [fst snd]. apply handled_frame; auto.
    + unfold consistent in Hc. tauto.
    + exact (consistent_store s Hc).
    + exact (consistent_otp s Hc).
  - unfold handle. cbn [fst snd]. apply handled_frame; auto.
    + unfold consistent in Hc. tauto.
    + exact (consistent_store s Hc).
    + exact (consistent_otp s Hc).
  - replace (snd (handle (LoginInput f v) s)) with false.
    + apply loginInput_handled. exact Hc.
    + unfold handle. destruct (renderPage s), f,
        (LoginPage.showOtpInput (loginPage s)); reflexivity.
  - replace (snd (handle LoginContinue s)) with false.
    + apply loginContinue_handled. exact Hc.
    + unfold handle. destruct (renderPage s); try reflexivity.
      destruct (negb _ && _ && _); [|reflexivity].
      destruct (LoginPage.handleSubmitAttempt _ _ _). reflexivity.
  - apply loginOtpSubmit_handled. exact Hc.
  - unfold handle. destruct (renderPage s) eqn:R; try exact (handled_refl s Hc).
    cbn [fst snd]. apply handled_setCurrentPage; [exact Hc|].
    rewrite (renderPage_signed_out s (or_introl R)). discriminate.
  - replace (snd (handle (SignupInput f v) s)) with false.
    + apply signupInput_handled. exact Hc.
    + unfold handle. destruct (renderPage s), f,
        (SignupPage.showOtpInput (signupPage s)); reflexivity.
  - replace (snd (handle SignupSubmit s)) with false.
    + apply signupSubmit_handled. exact Hc.
    + unfold handle. destruct (renderPage s); try reflexivity.
      destruct (negb _ && _ && _ && _); [|reflexivity].
      destruct (SignupPage.handleSubmitAttempt _ _) as [[? ?] ?]. reflexivity.
  - apply signupOtpSubmit_handled. exact Hc.
  - unfold handle. destruct (renderPage s) eqn:R; try exact (handled_refl s Hc).
    cbn [fst snd]. apply handled_setCurrentPage; [exact Hc|].
    rewrite (renderPage_signed_out s (or_intror R)). discriminate.
  - unfold handle. destruct (renderPage s) eqn:R; try exact (handled_refl s Hc).
    destruct (existsb _ _ && _); [|exact (handled_refl s Hc)].
    cbn [fst snd]. apply handleUpgradePlan_handled; [exact Hc|].
    apply renderPage_signed_in. exact R.
  - exact (handled_refl s Hc).
Qed.

Lemma step_consistent (e : Event) (s : App) :
  consistent s -> consistent (step e s).
Proof.
  intros Hc.
  assert (Hgen : consistent (commit s (snd (handle e s)) (fst (handle e s)))).
  { apply commit_consistent; [exact Hc|]. apply handle_handled. exact Hc. }
  destruct e; try (unfold step; destruct (handle _ s); exact Hgen).
  unfold step. destruct (consistent_storage s Hc) as [A [B [C D]]].
  apply mount_consistent; assumption.
Qed.

Lemma reachable_consistent (s : App) : reachable s -> consistent s.
Proof.
  induction 1 as [h | e s _ IH].
  - apply mount_consistent; simpl; try discriminate; auto.
  - apply step_consistent. exact IH.
Qed.

Lemma Event_Reload_dec (e : Event) : e = Reload \/ e <> Reload.
Proof. destruct e; (left; reflexivity) || (right; discriminate). Qed.

Lemma shell_reachable_run (es : list Event) (s : App) :
  reachable s -> reachable (run es s).
Proof.
  revert s. induction es as [|e es IH]; intros s Hs; simpl.
  - exact Hs.
  - apply IH. apply reach_step. exact Hs.
Qed.

Lemma mount_cells (st : Storage) (h : Z) :
  isAuthenticated (mount st h) = item_isAuthenticated st
  /\ currentUser (mount st h)
     = match item_currentUser st with Some u => u | None => None end
  /\ currentPage (mount st h)
     = (if item_isAuthenticated st
        then match item_currentPage st with Some p => p | None => home end
        else login)
  /\ currentPlanId (mount st h)
     = match item_currentPlanId st with
       | Some i => if Js.falsy i then Playback.id Playback.freePlan else i
       | None => Playback.id Playback.freePlan
       end
  /\ isSouthIndiaSimulated (mount st h) = false
  /\ theme (mount st h) = dark
  /\ mockUserStore (mount st h) = []
  /\ alerts (mount st h) = []
  /\ item_userPlan (localStorage (mount st h)) = item_userPlan st.
Proof.
  destruct st as [ia iu ip ii iup].
  unfold mount, themeEffect, authEffect, planIdEffect.
  destruct ia; simpl; repeat split; reflexivity.
Qed.

(** *** What holds in every state of the application *)

(** In every state the application reaches, the session flag is set
    exactly when a user record is held, a signed-in session is never on
    the login or signup page, the plan handed to the player is the plan
    with the current plan id and not a fallback, and the theme is light
    only while the South India simulation is on. *)
Theorem session_flag_matches_user (s : App) :
  reachable s ->
  (isAuthenticated s = true <-> currentUser s <> None)
  /\ (isAuthenticated s = true ->
        currentPage s <> login /\ currentPage s <> signup)
  /\ Playback.id (currentPlan s) = currentPlanId s
  /\ (theme s = light -> isSouthIndiaSimulated s = true).
Proof.
  intros Hr. apply reachable_consistent in Hr.
  destruct Hr as [H1 [H2 [_ [Hk [_ [Hth _]]]]]].
  split; [exact H1|]. split; [exact H2|]. split; [|exact Hth].
  unfold currentPlan. apply planOf_known. exact Hk.
Qed.

Lemma session_flag_matches_user_witness :
  reachable AppScenario.upgraded
  /\ isAuthenticated AppScenario.upgraded = true
  /\ Playback.id (currentPlan AppScenario.upgraded) = Js.lit "gold".
Proof.
  assert (Hr : reachable AppScenario.upgraded).
  { unfold AppScenario.upgraded, AppScenario.signedUp, AppScenario.registering.
    apply shell_reachable_run, reach_step, shell_reachable_run, reach_first. }
  split; [exact Hr|]. split; [vm_compute; reflexivity|].
  destruct (session_flag_matches_user AppScenario.upgraded Hr)
    as [_ [_ [H _]]].
  rewrite H. vm_compute. reflexivity.
Defined.

(** In every state the application reaches, [localStorage] holds the
    session as the state has it: the flag, the user and the page while
    signed in and none of the three while signed out, and always the
    current plan id. *)
Theorem storage_mirrors_session (s : App) :
  reachable s ->
  item_isAuthenticated (localStorage s) = isAuthenticated s
  /\ item_currentUser (localStorage s)
     = (if isAuthenticated s then Some (currentUser s) else None)
  /\ item_currentPage (localStorage s)
     = (if isAuthenticated s then Some (currentPage s) else None)
  /\ item_currentPlanId (localStorage s) = Some (currentPlanId s).
Proof.
  intros Hr. apply reachable_consistent in Hr.
  destruct Hr as [_ [_ [Hm _]]]. exact Hm.
Qed.

Lemma storage_mirrors_session_witness :
  reachable AppScenario.returning
  /\ item_currentUser (localStorage AppScenario.returning) = None
  /\ item_currentPlanId (localStorage AppScenario.returning)
     = Some (Js.lit "gold").
Proof.
  assert (Hr : reachable AppScenario.returning).
  { unfold AppScenario.returning, AppScenario.upgraded, AppScenario.signedUp,
      AppScenario.registering.
    apply shell_reachable_run, shell_reachable_run, reach_step,
      shell_reachable_run, reach_first. }
  split; [exact Hr|].
  destruct (storage_mirrors_session AppScenario.returning Hr)
    as [_ [Hu [_ Hp]]].
  rewrite Hu, Hp. split; vm_compute; reflexivity.
Defined.

Lemma reload_cells (s : App) :
  consistent s ->
  isAuthenticated (step Reload s) = isAuthenticated s
  /\ currentUser (step Reload s) = currentUser s
  /\ currentPlanId (step Reload s) = currentPlanId s
  /\ currentPage (step Reload s)
     = (if isAuthenticated s then currentPage s else login)
  /\ mockUserStore (step Reload s) = []
  /\ isSouthIndiaSimulated (step Reload s) = false
  /\ theme (step Reload s) = dark.
Proof.
  intros Hr.
  destruct Hr as [H1 [_ [[Ma [Mu [Mp Mi]]] [Hk _]]]].
  unfold step.
  destruct (mount_cells (localStorage s) (hour s))
    as [Ca [Cu [Cp [Ci [Cs [Ct [Cm _]]]]]]].
  rewrite Ca, Cu, Cp, Ci, Cs, Ct, Cm, Ma, Mu, Mp, Mi.
  rewrite (knownPlanId_nonempty _ Hk).
  destruct (isAuthenticated s) eqn:E; repeat split; try reflexivity.
  destruct (currentUser s) as [u|]; [|reflexivity].
  exfalso. assert (Hn : Some u <> None) by discriminate.
  apply H1 in Hn. discriminate.
Qed.

(** A reload of the page keeps the session: the flag, the user and the
    plan id are as before, a signed-in session is on the page it was on
    and a signed-out one on the login page. The registered users are
    gone, and the simulation is off with the dark theme. *)
Theorem reload_restores_session (s : App) :
  reachable s ->
  isAuthenticated (step Reload s) = isAuthenticated s
  /\ currentUser (step Reload s) = currentUser s
  /\ currentPlanId (step Reload s) = currentPlanId s
  /\ currentPage (step Reload s)
     = (if isAuthenticated s then currentPage s else login)
  /\ mockUserStore (step Reload s) = []
  /\ isSouthIndiaSimulated (step Reload s) = false
  /\ theme (step Reload s) = dark.
Proof.
  intros Hr. apply reload_cells. apply reachable_consistent. exact Hr.
Qed.

Lemma reload_restores_session_witness :
  reachable AppScenario.upgraded
  /\ renderPage (step Reload AppScenario.upgraded) = RSubscriptions
  /\ currentPlanId (step Reload AppScenario.upgraded) = Js.lit "gold".
Proof.
  assert (Hr : reachable AppScenario.upgraded).
  { unfold AppScenario.upgraded, AppScenario.signedUp, AppScenario.registering.
    apply shell_reachable_run, reach_step, shell_reachable_run, reach_first. }
  split; [exact Hr|].
  destruct (reload_restores_session AppScenario.upgraded Hr)
    as [_ [_ [Hp _]]].
  rewrite Hp. split; vm_compute; reflexivity.
Defined.

(** *** What a handler does to the session *)

Lemma handleNavigate_cells (p : Page) (s : App) :
  handleNavigate p s = setCurrentPage (currentPage (handleNavigate p s)) s.
Proof.
  unfold handleNavigate.
  destruct p; try destruct (isAuthenticated s); reflexivity.
Qed.

(** The handler of an event either leaves the session, the plan and the
    stored plans alone, showing at most the text of a page, or it is one
    of four: a sign-out, a sign-in after the login OTP, a sign-in after
    the signup OTP, or an upgrade. *)
Lemma handle_cases (e : Event) (s : App) :
  consistent s ->
  (isAuthenticated (fst (handle e s)) = isAuthenticated s
   /\ currentUser (fst (handle e s)) = currentUser s
   /\ currentPlanId (fst (handle e s)) = currentPlanId s
   /\ item_userPlan (localStorage (fst (handle e s)))
      = item_userPlan (localStorage s)
   /\ (alerts (fst (handle e s)) = alerts s
       \/ exists m, alerts (fst (handle e s)) = alerts s ++ [AlertText m]))
  \/ (e = ClickLogout
      /\ isAuthenticated (fst (handle e s)) = false
      /\ currentUser (fst (handle e s)) = None
      /\ currentPlanId (fst (handle e s)) = currentPlanId s
      /\ item_userPlan (localStorage (fst (handle e s)))
         = item_userPlan (localStorage s)
      /\ alerts (fst (handle e s)) = alerts s ++ [LoggedOut])
  \/ (e = LoginOtpSubmit
      /\ isAuthenticated s = false
      /\ LoginPage.otp (loginPage s) = mockOtp
      /\ exists u,
           Dict.lookup (LoginPage.email (loginPage s)) (mockUserStore s) = Some u
           /\ passwordHash u = LoginPage.password (loginPage s)
           /\ isAuthenticated (fst (handle e s)) = true
           /\ currentUser (fst (handle e s)) = Some (userDetails u)
           /\ currentPlanId (fst (handle e s))
              = storedPlanOr (LoginPage.email (loginPage s)) s
           /\ item_userPlan (localStorage (fst (handle e s)))
              = item_userPlan (localStorage s)
           /\ alerts (fst (handle e s))
              = alerts s
                ++ [LoginWelcome (Engagement.username (userDetails u))])
  \/ (e = SignupOtpSubmit
      /\ isAuthenticated s = false
      /\ SignupPage.otp (signupPage s) = mockOtp
      /\ isAuthenticated (fst (handle e s)) = true
      /\ currentUser (fst (handle e s))
         = Some {| Engagement.username := SignupPage.username (signupPage s);
                   Engagement.email := SignupPage.email (signupPage s) |}
      /\ currentPlanId (fst (handle e s)) = Playback.id Playback.freePlan
      /\ item_userPlan (localStorage (fst (handle e s)))
         = Dict.assign (SignupPage.email (signupPage s))
             (Playback.id Playback.freePlan) (item_userPlan (localStorage s))
      /\ alerts (fst (handle e s))
         = alerts s ++ [SignupWelcome (SignupPage.username (signupPage s))])
  \/ (exists planId u p,
        e = ClickUpgrade planId
        /\ knownPlanId planId
        /\ isAuthenticated s = true
        /\ currentUser s = Some u
        /\ isAuthenticated (fst (handle e s)) = true
        /\ currentUser (fst (handle e s)) = Some u
        /\ currentPlanId (fst (handle e s)) = planId
        /\ item_userPlan (localStorage (fst (handle e s)))
           = Dict.assign (Engagement.email u) planId
               (item_userPlan (localStorage s))
        /\ alerts (fst (handle e s)) = alerts s ++ [PaymentDone p]).
Proof.
  intros Hc.
  assert (Hq : forall x : App,
             isAuthenticated x = isAuthenticated s ->
             currentUser x = currentUser s ->
             currentPlanId x = currentPlanId s ->
             localStorage x = localStorage s ->
             alerts x = alerts s ->
             isAuthenticated x = isAuthenticated s
             /\ currentUser x = currentUser s
             /\ currentPlanId x = currentPlanId s
             /\ item_userPlan (localStorage x) = item_userPlan (localStorage s)
             /\ (alerts x = alerts s
                 \/ exists m, alerts x = alerts s ++ [AlertText m])).
  { intros x Ha Hu Hp Hl Hal. rewrite Hl. auto 10. }
  assert (Hnav : forall p, isAuthenticated (handleNavigate p s) = isAuthenticated s
                           /\ currentUser (handleNavigate p s) = currentUser s
                           /\ currentPlanId (handleNavigate p s) = currentPlanId s
                           /\ localStorage (handleNavigate p s) = localStorage s
                           /\ alerts (handleNavigate p s) = alerts s).
  { intros p. rewrite handleNavigate_cells. repeat split; reflexivity. }
  assert (Hnav' : forall p,
             isAuthenticated (handleNavigate p s) = isAuthenticated s
             /\ currentUser (handleNavigate p s) = currentUser s
             /\ currentPlanId (handleNavigate p s) = currentPlanId s
             /\ item_userPlan (localStorage (handleNavigate p s))
                = item_userPlan (localStorage s)
             /\ (alerts (handleNavigate p s) = alerts s
                 \/ exists m, alerts (handleNavigate p s)
                              = alerts s ++ [AlertText m])).
  { intros p. destruct (Hnav p) as [A [B [C [D E]]]]. apply Hq; assumption. }
  destruct e.
  - left. apply Hnav'.
  - left. unfold handle. destruct (isAuthenticated s && _);
      [apply Hnav' | apply Hq; reflexivity].
  - left. unfold handle. destruct (isAuthenticated s && _);
      [apply Hq; reflexivity | apply Hnav'].
  - left. unfold handle. destruct (isAuthenticated s && _);
      [apply Hq; reflexivity | apply Hnav'].
  - unfold handle. destruct (isAuthenticated s && _);
      [|left; apply Hq; reflexivity].
    right. left. cbn [fst]. unfold handleLogout. simpl.
    repeat split; reflexivity.
  - left. apply Hq; reflexivity.
  - left. apply Hq; reflexivity.
  - left. unfold handle.
    destruct (renderPage s), f, (LoginPage.showOtpInput (loginPage s));
      apply Hq; reflexivity.
  - left. unfold handle. destruct (renderPage s); try (apply Hq; reflexivity).
    destruct (negb _ && _ && _); [|apply Hq; reflexivity].
    destruct (LoginPage.handleSubmitAttempt _ _ _) as [l [m|]]; cbn [fst].
    + simpl. do 4 (split; [reflexivity|]). right. eexists. reflexivity.
    + apply Hq; reflexivity.
  - unfold handle. destruct (renderPage s) eqn:R;
      try (left; apply Hq; reflexivity).
    destruct (LoginPage.showOtpInput (loginPage s) && negb _) eqn:G;
      [|left; apply Hq; reflexivity].
    apply andb_true_iff in G. destruct G as [G _].
    unfold LoginPage.handleOtpSubmit.
    destruct (Js.eqb (LoginPage.otp (loginPage s)) mockOtp) eqn:O;
      [|left; apply Hq; reflexivity].
    apply eqb_eq in O.
    destruct (proj1 (consistent_otp s Hc) G) as [u [L P]].
    right. right. left.
    split; [reflexivity|].
    split; [apply renderPage_signed_out; left; exact R|].
    split; [exact O|]. exists u.
    split; [exact L|]. split; [exact P|].
    cbn [fst]. unfold handleLogin. cbn [mockUserStore setLoginPage].
    rewrite L. simpl. repeat split; reflexivity.
  - left. unfold handle. destruct (renderPage s); apply Hq; reflexivity.
  - left. unfold handle.
    destruct (renderPage s), f, (SignupPage.showOtpInput (signupPage s));
      apply Hq; reflexivity.
  - left. unfold handle. destruct (renderPage s); try (apply Hq; reflexivity).
    destruct (negb _ && _ && _ && _); [|apply Hq; reflexivity].
    destruct (SignupPage.handleSubmitAttempt _ _) as [[l m] [a|]]; cbn [fst].
    + simpl. do 4 (split; [reflexivity|]). right. eexists. reflexivity.
    + apply Hq; reflexivity.
  - unfold handle. destruct (renderPage s) eqn:R;
      try (left; apply Hq; reflexivity).
    destruct (SignupPage.showOtpInput (signupPage s) && negb _) eqn:G;
      [|left; apply Hq; reflexivity].
    apply andb_true_iff in G. destruct G as [G _].
    unfold SignupPage.handleOtpSubmit.
    destruct (Js.eqb (SignupPage.otp (signupPage s)) mockOtp) eqn:O;
      [|left; apply Hq; reflexivity].
    apply eqb_eq in O.
    pose proof (proj2 (consistent_otp s Hc) G) as L.
    right. right. right. left.
    split; [reflexivity|].
    split; [apply renderPage_signed_out; right; exact R|].
    split; [exact O|].
    cbn [fst]. unfold handleSignup. cbn [mockUserStore setSignupPage].
    rewrite L. simpl. repeat split; reflexivity.
  - left. unfold handle. destruct (renderPage s); apply Hq; reflexivity.
  - unfold handle. destruct (renderPage s) eqn:R;
      try (left; apply Hq; reflexivity).
    destruct (existsb _ _ && _); [|left; apply Hq; reflexivity].
    cbn [fst]. unfold handleUpgradePlan.
    pose proof (renderPage_signed_in s R) as Ha.
    destruct (find _ Playback.plans) as [p|] eqn:F;
      destruct (currentUser s) as [u|] eqn:U.
    + right. right. right. right. exists planId, u, p.
      split; [reflexivity|]. split.
      { apply find_some in F. destruct F as [Hin He]. apply eqb_eq in He.
        rewrite <- He. apply in_map. exact Hin. }
      simpl. rewrite U. repeat split; auto.
    + destruct Hc as [H1 _]. apply H1 in Ha. congruence.
    + left. apply Hq; auto.
    + destruct Hc as [H1 _]. apply H1 in Ha. congruence.
  - left. apply Hq; reflexivity.
Qed.

Lemma step_handle (e : Event) (s : App) :
  e <> Reload -> step e s = commit s (snd (handle e s)) (fst (handle e s)).
Proof.
  intros He. destruct e; try congruence;
    unfold step; destruct (handle _ s); reflexivity.
Qed.

Lemma storedPlanOr_ext (k : JsString) (x s : App) :
  item_userPlan (localStorage x) = item_userPlan (localStorage s) ->
  storedPlanOr k x = storedPlanOr k s.
Proof. unfold storedPlanOr. intros ->. reflexivity. Qed.

Lemma storedPlanOr_assigned (k v : JsString) (x s : App) :
  knownPlanId v ->
  item_userPlan (localStorage x)
  = Dict.assign k v (item_userPlan (localStorage s)) ->
  storedPlanOr k x = v.
Proof.
  intros Hv H. unfold storedPlanOr. rewrite H, lookup_assign_same.
  rewrite (knownPlanId_nonempty v Hv). reflexivity.
Qed.

(** *** Alerts that are never shown *)

(** The three alerts of branches that guard against a missing user are
    never shown: the login and the signup completion always find the user
    in the store, and an upgrade is only ever asked for by a signed-in
    user. *)
Theorem guard_alerts_never_shown (s : App) (a : Alert) :
  reachable s ->
  In a (alerts s) ->
  a <> LoginFailed /\ a <> SignupFailed /\ a <> PleaseLogin.
Proof.
  intros Hr. induction Hr as [h | e s Hr IH].
  - destruct (mount_cells emptyStorage h) as [_ [_ [_ [_ [_ [_ [_ [Hal _]]]]]]]].
    rewrite Hal. intros [].
  - destruct (Event_Reload_dec e) as [-> | He].
    + unfold step.
      destruct (mount_cells (localStorage s) (hour s))
        as [_ [_ [_ [_ [_ [_ [_ [Hal _]]]]]]]].
      rewrite Hal. intros [].
    + rewrite (step_handle e s He).
      destruct (commit_cells s (snd (handle e s)) (fst (handle e s)))
        as [_ [_ [_ [_ [_ [_ [_ [Hal _]]]]]]]].
      rewrite Hal. clear Hal.
      assert (Hnew : forall x, In a (alerts s ++ [x]) ->
                a <> x \/ (x <> LoginFailed /\ x <> SignupFailed
                           /\ x <> PleaseLogin) ->
                a <> LoginFailed /\ a <> SignupFailed /\ a <> PleaseLogin).
      { intros x Hin Hx. apply in_app_or in Hin.
        destruct Hin as [Hin | [<- | []]]; [exact (IH Hin)|].
        destruct Hx as [Hx | Hx]; [congruence | exact Hx]. }
      destruct (handle_cases e s (reachable_consistent s Hr))
        as [[_ [_ [_ [_ [Hq | [m Hq]]]]]]
           | [[_ [_ [_ [_ [_ Hq]]]]]
             | [[_ [_ [_ [u [_ [_ [_ [_ [_ [_ Hq]]]]]]]]]]
               | [[_ [_ [_ [_ [_ [_ [_ Hq]]]]]]]
                 | [pid [u [p [_ [_ [_ [_ [_ [_ [_ [_ Hq]]]]]]]]]]]]]]];
        rewrite Hq; try exact IH;
        intros Hin; apply (Hnew _ Hin); right;
        repeat split; discriminate.
Qed.

Lemma guard_alerts_never_shown_witness :
  reachable (step LoginOtpSubmit AppScenario.returning)
  /\ In LoggedOut (alerts (step LoginOtpSubmit AppScenario.returning))
  /\ LoggedOut <> LoginFailed.
Proof.
  assert (Hr : reachable (step LoginOtpSubmit AppScenario.returning)).
  { unfold AppScenario.returning, AppScenario.upgraded, AppScenario.signedUp,
      AppScenario.registering.
    apply reach_step, shell_reachable_run, shell_reachable_run, reach_step,
      shell_reachable_run, reach_first. }
  assert (Hin : In LoggedOut (alerts (step LoginOtpSubmit AppScenario.returning))).
  { vm_compute. do 3 right. left. reflexivity. }
  split; [exact Hr|]. split; [exact Hin|].
  exact (proj1 (guard_alerts_never_shown _ _ Hr Hin)).
Defined.

(** *** Signing in *)

(** A signed-out session becomes signed in only by the OTP form of the
    login page, with the OTP 123456 and for a stored user whose email and
    password are the ones typed, who becomes the current user; or by the
    OTP form of the signup page, with the OTP 123456, for the user typed
    there. Nothing else signs in, a reload included. *)
Theorem sign_in_needs_credentials (e : Event) (s : App) :
  reachable s ->
  isAuthenticated s = false ->
  isAuthenticated (step e s) = true ->
  (e = LoginOtpSubmit
   /\ LoginPage.otp (loginPage s) = mockOtp
   /\ exists u,
        Dict.lookup (LoginPage.email (loginPage s)) (mockUserStore s) = Some u
        /\ passwordHash u = LoginPage.password (loginPage s)
        /\ currentUser (step e s) = Some (userDetails u))
  \/ (e = SignupOtpSubmit
      /\ SignupPage.otp (signupPage s) = mockOtp
      /\ currentUser (step e s)
         = Some {| Engagement.username := SignupPage.username (signupPage s);
                   Engagement.email := SignupPage.email (signupPage s) |}).
Proof.
  intros Hr Hout Hin. pose proof (reachable_consistent s Hr) as Hc.
  destruct (Event_Reload_dec e) as [-> | He].
  - exfalso. unfold step in Hin.
    destruct (mount_cells (localStorage s) (hour s)) as [Ha _].
    destruct Hc as [_ [_ [[Ma _] _]]]. congruence.
  - rewrite (step_handle e s He) in *.
    destruct (commit_cells s (snd (handle e s)) (fst (handle e s)))
      as [Ca [Cu _]].
    rewrite Ca in Hin. rewrite Cu. clear Ca Cu.
    destruct (handle_cases e s Hc)
      as [[Hq _]
         | [[_ [Hq _]]
           | [[E [_ [Ho [u [L [P [_ [Hu _]]]]]]]]
             | [[E [_ [Ho [_ [Hu _]]]]]
               | [pid [u [p [_ [_ [Ha _]]]]]]]]]].
    + congruence.
    + congruence.
    + left. split; [exact E|]. split; [exact Ho|]. exists u. auto.
    + right. auto.
    + congruence.
Qed.

Lemma sign_in_needs_credentials_witness :
  reachable AppScenario.returning
  /\ isAuthenticated AppScenario.returning = false
  /\ isAuthenticated (step LoginOtpSubmit AppScenario.returning) = true
  /\ exists u,
       Dict.lookup AppScenario.aliceEmail (mockUserStore AppScenario.returning)
       = Some u
       /\ passwordHash u = AppScenario.alicePassword.
Proof.
  assert (Hr : reachable AppScenario.returning).
  { unfold AppScenario.returning, AppScenario.upgraded, AppScenario.signedUp,
      AppScenario.registering.
    apply shell_reachable_run, shell_reachable_run, reach_step,
      shell_reachable_run, reach_first. }
  assert (Hout : isAuthenticated AppScenario.returning = false)
    by (vm_compute; reflexivity).
  assert (Hin : isAuthenticated (step LoginOtpSubmit AppScenario.returning)
                = true) by (vm_compute; reflexivity).
  split; [exact Hr|]. split; [exact Hout|]. split; [exact Hin|].
  destruct (sign_in_needs_credentials LoginOtpSubmit AppScenario.returning
              Hr Hout Hin) as [[_ [_ [u [L [P _]]]]] | [E _]].
  - exists u. split; [exact L | exact P].
  - discriminate E.
Defined.

(** *** The plan of the user *)

Lemma plan_follows_user_aux (s : App) (u : Engagement.User) :
  reachable s ->
  currentUser s = Some u ->
  currentPlanId s = storedPlanOr (Engagement.email u) s.
Proof.
  intros Hr. revert u. induction Hr as [h | e s Hr IH]; intros u Hu.
  - destruct (mount_cells emptyStorage h) as [_ [Cu _]].
    rewrite Cu in Hu. discriminate.
  - pose proof (reachable_consistent s Hr) as Hc.
    destruct (Event_Reload_dec e) as [-> | He].
    + unfold step in *.
      destruct (mount_cells (localStorage s) (hour s))
        as [_ [Cu [_ [Ci [_ [_ [_ [_ Cup]]]]]]]].
      rewrite Ci, (storedPlanOr_ext _ _ s Cup). rewrite Cu in Hu.
      destruct Hc as [H1 [_ [[Ma [Mu [Mp Mi]]] [Hk _]]]].
      rewrite Mi, (knownPlanId_nonempty _ Hk). apply IH.
      rewrite Mu in Hu. destruct (isAuthenticated s); [exact Hu | discriminate].
    + rewrite (step_handle e s He) in *.
      destruct (commit_cells s (snd (handle e s)) (fst (handle e s)))
        as [_ [Cu [_ [Ci [_ [_ [_ [_ [Cup _]]]]]]]]].
      rewrite Ci, (storedPlanOr_ext _ _ _ Cup). rewrite Cu in Hu.
      clear Cu Ci Cup.
      destruct (handle_cases e s Hc)
        as [[_ [Qu [Qi [Qp _]]]]
           | [[_ [_ [Qu _]]]
             | [[_ [_ [_ [v [L [_ [_ [Qu [Qi [Qp _]]]]]]]]]]
               | [[_ [_ [_ [_ [Qu [Qi [Qp _]]]]]]]
                 | [pid [v [p [_ [Hk [_ [_ [_ [Qu [Qi [Qp _]]]]]]]]]]]]]]].
      * rewrite Qi, (storedPlanOr_ext _ _ s Qp). apply IH. congruence.
      * congruence.
      * rewrite Qi, (storedPlanOr_ext _ _ s Qp).
        destruct (consistent_store s Hc _ _ L) as [Hem _].
        assert (u = userDetails v) by congruence. subst u.
        rewrite Hem. reflexivity.
      * rewrite Qi. rewrite Qu in Hu. injection Hu as <-. simpl.
        symmetry. apply (storedPlanOr_assigned _ _ _ s knownPlanId_free Qp).
      * rewrite Qi. assert (u = v) by congruence. subst v.
        symmetry. apply (storedPlanOr_assigned _ _ _ s Hk Qp).
Qed.

(** The plan in force for a signed-in user is always the plan stored for
    the email of that user, or the free plan when none is stored: through
    signup, upgrade, logout, login and reload. *)
Theorem plan_follows_user (s : App) (u : Engagement.User) :
  reachable s ->
  currentUser s = Some u ->
  currentPlanId s = storedPlanOr (Engagement.email u) s
  /\ Playback.id (currentPlan s) = storedPlanOr (Engagement.email u) s.
Proof.
  intros Hr Hu. pose proof (plan_follows_user_aux s u Hr Hu) as H.
  split; [exact H|]. rewrite <- H. unfold currentPlan.
  apply planOf_known. pose proof (reachable_consistent s Hr) as Hc.
  unfold consistent in Hc. tauto.
Qed.

Lemma plan_follows_user_witness :
  reachable (step LoginOtpSubmit AppScenario.returning)
  /\ currentPlanId (step LoginOtpSubmit AppScenario.returning) = Js.lit "gold".
Proof.
  assert (Hr : reachable (step LoginOtpSubmit AppScenario.returning)).
  { unfold AppScenario.returning, AppScenario.upgraded, AppScenario.signedUp,
      AppScenario.registering.
    apply reach_step, shell_reachable_run, shell_reachable_run, reach_step,
      shell_reachable_run, reach_first. }
  split; [exact Hr|].
  assert (Hu : currentUser (step LoginOtpSubmit AppScenario.returning)
               = Some {| Engagement.username := Js.lit "alice";
                         Engagement.email := AppScenario.aliceEmail |})
    by (vm_compute; reflexivity).
  rewrite (proj1 (plan_follows_user _ _ Hr Hu)). vm_compute. reflexivity.
Defined.

(** *** The theme and the store *)

Lemma handleLogin_world (email : JsString) (s : App) :
  isSouthIndiaSimulated (handleLogin email s) = isSouthIndiaSimulated s
  /\ theme (handleLogin email s) = theme s
  /\ mockUserStore (handleLogin email s) = mockUserStore s.
Proof.
  unfold handleLogin. destruct (Dict.lookup email (mockUserStore s));
    repeat split; reflexivity.
Qed.

Lemma handleSignup_world (username email : JsString) (s : App) :
  isSouthIndiaSimulated (handleSignup username email s) = isSouthIndiaSimulated s
  /\ theme (handleSignup username email s) = theme s
  /\ mockUserStore (handleSignup username email s) = mockUserStore s.
Proof.
  unfold handleSignup. destruct (Dict.lookup email (mockUserStore s));
    repeat split; reflexivity.
Qed.

Lemma handleUpgradePlan_world (planId : JsString) (s : App) :
  isSouthIndiaSimulated (handleUpgradePlan planId s) = isSouthIndiaSimulated s
  /\ theme (handleUpgradePlan planId s) = theme s
  /\ mockUserStore (handleUpgradePlan planId s) = mockUserStore s.
Proof.
  unfold handleUpgradePlan.
  destruct (find _ Playback.plans); destruct (currentUser s);
    repeat split; reflexivity.
Qed.

Lemma handleSubmitAttempt_keeps (m : list (JsString * StoredUser))
  (l : SignupPage.State) (k : JsString) (u : StoredUser) :
  Dict.lookup k m = Some u ->
  Dict.lookup k (snd (fst (SignupPage.handleSubmitAttempt m l))) = Some u.
Proof.
  intros H. unfold SignupPage.handleSubmitAttempt.
  destruct (Js.falsy _ || Js.falsy _ || Js.falsy _); [exact H|].
  destruct (Dict.lookup (SignupPage.email l) m) eqn:L; [exact H|].
  cbn [fst snd]. rewrite lookup_assign_other; [exact H|].
  intros E. rewrite E in L. congruence.
Qed.

(** What a handler does to the simulation flag, the theme and the user
    store. *)
Lemma handle_world (e : Event) (s : App) :
  (e = ToggleSouthIndia
   \/ isSouthIndiaSimulated (fst (handle e s)) = isSouthIndiaSimulated s)
  /\ theme (fst (handle e s)) = theme s
  /\ (forall k u,
        Dict.lookup k (mockUserStore s) = Some u ->
        Dict.lookup k (mockUserStore (fst (handle e s))) = Some u).
Proof.
  assert (Hq : forall x : App,
             isSouthIndiaSimulated x = isSouthIndiaSimulated s ->
             theme x = theme s ->
             mockUserStore x = mockUserStore s ->
             (e = ToggleSouthIndia
              \/ isSouthIndiaSimulated x = isSouthIndiaSimulated s)
             /\ theme x = theme s
             /\ (forall k u,
                   Dict.lookup k (mockUserStore s) = Some u ->
                   Dict.lookup k (mockUserStore x) = Some u)).
  { intros x H1 H2 H3. rewrite H3. auto. }
  assert (Hnav : forall p,
             (e = ToggleSouthIndia
              \/ isSouthIndiaSimulated (handleNavigate p s)
                 = isSouthIndiaSimulated s)
             /\ theme (handleNavigate p s) = theme s
             /\ (forall k u,
                   Dict.lookup k (mockUserStore s) = Some u ->
                   Dict.lookup k (mockUserStore (handleNavigate p s)) = Some u)).
  { intros p. rewrite handleNavigate_cells. apply Hq; reflexivity. }
  destruct e; unfold handle.
  - apply Hnav.
  - destruct (isAuthenticated s && _); [apply Hnav | apply Hq; reflexivity].
  - destruct (isAuthenticated s && _); [apply Hq; reflexivity | apply Hnav].
  - destruct (isAuthenticated s && _); [apply Hq; reflexivity | apply Hnav].
  - destruct (isAuthenticated s && _); apply Hq; reflexivity.
  - cbn [fst]. split; [left; reflexivity|]. split; [reflexivity|]. auto.
  - apply Hq; reflexivity.
  - destruct (renderPage s), f, (LoginPage.showOtpInput (loginPage s));
      apply Hq; reflexivity.
  - destruct (renderPage s); try (apply Hq; reflexivity).
    destruct (negb _ && _ && _); [|apply Hq; reflexivity].
    destruct (LoginPage.handleSubmitAttempt _ _ _) as [l [m|]];
      apply Hq; reflexivity.
  - destruct (renderPage s); try (apply Hq; reflexivity).
    destruct (LoginPage.showOtpInput (loginPage s) && negb _);
      [|apply Hq; reflexivity].
    destruct (LoginPage.handleOtpSubmit (loginPage s)) as [l [[em o]|]];
      [|apply Hq; reflexivity].
    cbn [fst].
    destruct (handleLogin_world em (setLoginPage l s)) as [A [B C]].
    apply Hq; assumption.
  - destruct (renderPage s); apply Hq; reflexivity.
  - destruct (renderPage s), f, (SignupPage.showOtpInput (signupPage s));
      apply Hq; reflexivity.
  - destruct (renderPage s); try (apply Hq; reflexivity).
    destruct (negb _ && _ && _ && _); [|apply Hq; reflexivity].
    pose proof (handleSubmitAttempt_keeps (mockUserStore s) (signupPage s))
      as Hk.
    destruct (SignupPage.handleSubmitAttempt _ _) as [[l m] a].
    cbn [fst snd] in *.
    split; [right; destruct a; reflexivity|].
    split; [destruct a; reflexivity|].
    intros k u H. destruct a; exact (Hk k u H).
  - destruct (renderPage s); try (apply Hq; reflexivity).
    destruct (SignupPage.showOtpInput (signupPage s) && negb _);
      [|apply Hq; reflexivity].
    destruct (SignupPage.handleOtpSubmit (signupPage s)) as [l [[[un em] o]|]];
      [|apply Hq; reflexivity].
    cbn [fst].
    destruct (handleSignup_world un em (setSignupPage l s)) as [A [B C]].
    apply Hq; assumption.
  - destruct (renderPage s); apply Hq; reflexivity.
  - destruct (renderPage s); try (apply Hq; reflexivity).
    destruct (existsb _ _ && _); [|apply Hq; reflexivity].
    cbn [fst]. destruct (handleUpgradePlan_world planId s) as [A [B C]].
    apply Hq; assumption.
  - apply Hq; reflexivity.
Qed.

(** The theme is computed only when the simulation checkbox is toggled,
    from the hour at that moment: light when the simulation was switched
    on between ten and twelve, dark otherwise. Every other event but a
    reload leaves the theme as it is, a change of the hour included. *)
Theorem theme_follows_toggle_only (e : Event) (s : App) :
  e <> Reload ->
  theme (step e s)
  = match e with
    | ToggleSouthIndia =>
        if negb (isSouthIndiaSimulated s)
           && ((10 <=? hour s)%Z && (hour s <? 12)%Z)
        then light else dark
    | _ => theme s
    end.
Proof.
  intros He. rewrite (step_handle e s He), commit_theme.
  destruct (handle_world e s) as [Hs [Ht _]].
  destruct e; try congruence;
    try (destruct Hs as [Hs | Hs]; [discriminate Hs|];
         rewrite Hs, Ht, eqb_reflx; reflexivity).
  unfold handle. cbn [fst isSouthIndiaSimulated setIsSouthIndiaSimulated hour].
  destruct (isSouthIndiaSimulated s); reflexivity.
Qed.

Lemma theme_follows_toggle_only_witness :
  theme (step ToggleSouthIndia AppScenario.firstVisit) = light
  /\ theme (run [ToggleSouthIndia; HourIs 13] AppScenario.firstVisit) = light.
Proof.
  split.
  - rewrite (theme_follows_toggle_only ToggleSouthIndia AppScenario.firstVisit)
      by discriminate.
    vm_compute. reflexivity.
  - change (run [ToggleSouthIndia; HourIs 13] AppScenario.firstVisit)
      with (step (HourIs 13) (step ToggleSouthIndia AppScenario.firstVisit)).
    rewrite (theme_follows_toggle_only (HourIs 13)) by discriminate.
    vm_compute. reflexivity.
Defined.

(** A registered user stays registered, with the same name and password,
    until the page is reloaded: a signup with an email that is already
    stored does not replace the entry. *)
Theorem registered_user_is_kept (e : Event) (s : App)
  (k : JsString) (u : StoredUser) :
  e <> Reload ->
  Dict.lookup k (mockUserStore s) = Some u ->
  Dict.lookup k (mockUserStore (step e s)) = Some u.
Proof.
  intros He H. rewrite (step_handle e s He).
  destruct (commit_cells s (snd (handle e s)) (fst (handle e s)))
    as [_ [_ [_ [_ [_ [Cm _]]]]]].
  rewrite Cm. destruct (handle_world e s) as [_ [_ Hk]]. exact (Hk k u H).
Qed.

(** A second signup with the email of alice, under another name and with
    another password, is refused and leaves her entry as it is. *)
Lemma registered_user_is_kept_witness :
  renderPage AppScenario.duplicateSignup = RSignup
  /\ SignupPage.showOtpInput (signupPage AppScenario.duplicateSignup) = false
  /\ SignupPage.email (signupPage AppScenario.duplicateSignup)
     = AppScenario.aliceEmail
  /\ SignupPage.password (signupPage AppScenario.duplicateSignup)
     = Js.lit "other"
  /\ SignupPage.signupError
       (signupPage (step SignupSubmit AppScenario.duplicateSignup))
     = SignupPage.msgExists
  /\ Dict.lookup AppScenario.aliceEmail
       (mockUserStore (step SignupSubmit AppScenario.duplicateSignup))
     = Some {| userDetails :=
                 {| Engagement.username := Js.lit "alice";
                    Engagement.email := AppScenario.aliceEmail |};
               passwordHash := AppScenario.alicePassword |}.
Proof.
  split; [vm_compute; reflexivity|]. split; [vm_compute; reflexivity|].
  split; [vm_compute; reflexivity|]. split; [vm_compute; reflexivity|].
  split; [vm_compute; reflexivity|].
  apply registered_user_is_kept; [discriminate|].
  vm_compute. reflexivity.
Defined.

End AppFacts.

(* ------------------------------------------------------------------ *)
(** ** Properties of the call section *)

Module VoIPFacts.

Import VoIP.

Lemma call_reachable_run (es : list Event) (s : VoIPSection) :
  reachable s -> reachable (run es s).
Proof.
  revert s. induction es as [|e es IH]; intros s Hs; simpl.
  - exact Hs.
  - apply IH. apply reach_step. exact Hs.
Qed.

Lemma in_snoc (A : Type) (x y : A) (l : list A) :
  In x (l ++ [y]) -> In x l \/ x = y.
Proof.
  intros H. apply in_app_or in H.
  destruct H as [H | [H | []]]; [left; exact H | right; symmetry; exact H].
Qed.

(** What holds in every state of the section. *)
Lemma reachable_sound (s : VoIPSection) :
  reachable s ->
  (isCallActive s = true <-> localStream s <> None)
  /\ localSrcObject s = localStream s
  /\ remoteSrcObject s = None
  /\ forall a, In a (alerts s) -> a <> CannotRecord /\ a <> StartCallFirst.
Proof.
  induction 1 as [|e s Hr [Hact [Hsrc [Hrem Hal]]]].
  - simpl. repeat split; try congruence; try discriminate; contradiction.
  - destruct e; simpl.
    + unfold handleStartCall. destruct (isCallActive s) eqn:E; simpl;
        rewrite ?E; auto.
    + destruct (isCallActive s) eqn:E; simpl; [|rewrite E; auto].
      split; [split; [discriminate | congruence]|].
      split; [reflexivity|]. split; [reflexivity|].
      intros a Ha. apply in_snoc in Ha.
      destruct Ha as [Ha | ->]; [exact (Hal a Ha) | split; discriminate].
    + destruct (isCallActive s) eqn:E; [|rewrite E; auto].
      unfold handleScreenShare. rewrite E. simpl. rewrite E.
      split; [exact Hact|]. split; [exact Hsrc|]. split; [exact Hrem|].
      intros a Ha. apply in_snoc in Ha.
      destruct Ha as [Ha | ->]; [exact (Hal a Ha) | split; discriminate].
    + destruct (isCallActive s) eqn:E; [|rewrite E; auto].
      unfold handleRecordSession. simpl. rewrite E, andb_false_r. simpl.
      rewrite E.
      split; [exact Hact|]. split; [exact Hsrc|]. split; [exact Hrem|].
      intros a Ha. apply in_snoc in Ha.
      destruct Ha as [Ha | ->]; [exact (Hal a Ha) | split; discriminate].
    + unfold handleStartCall_resume.
      destruct (pendingUserMedia s); [auto|].
      destruct r as [stream|]; simpl.
      * split; [split; [discriminate | reflexivity]|].
        split; [reflexivity|]. split; [exact Hrem|].
        intros a Ha. apply in_snoc in Ha.
        destruct Ha as [Ha | ->]; [exact (Hal a Ha) | split; discriminate].
      * split; [exact Hact|]. split; [exact Hsrc|]. split; [exact Hrem|].
        intros a Ha. apply in_snoc in Ha.
        destruct Ha as [Ha | ->]; [exact (Hal a Ha) | split; discriminate].
    + unfold handleScreenShare_resume.
      destruct (pendingDisplayMedia s); [auto|]. simpl.
      split; [exact Hact|]. split; [exact Hsrc|]. split; [exact Hrem|].
      intros a Ha. apply in_snoc in Ha.
      destruct Ha as [Ha | ->]; [exact (Hal a Ha)|].
      destruct acquired; split; discriminate.
Qed.

(** In every state of the call section, also when clicks and the
    answers of the browser interleave, a call is active exactly when a
    local stream is held, and the local video element shows that
    stream. *)
Theorem call_active_iff_stream_held (s : VoIPSection) :
  reachable s ->
  (isCallActive s = true <-> localStream s <> None)
  /\ localSrcObject s = localStream s.
Proof.
  intros Hr. destruct (reachable_sound s Hr) as [H1 [H2 _]].
  split; [exact H1 | exact H2].
Qed.

Lemma call_active_iff_stream_held_witness :
  reachable twoGrants /\ localSrcObject twoGrants = Some 2%N.
Proof.
  assert (Hr : reachable twoGrants)
    by (unfold twoGrants; apply call_reachable_run, reach_mount).
  split; [exact Hr|].
  rewrite (proj2 (call_active_iff_stream_held twoGrants Hr)).
  vm_compute. reflexivity.
Defined.

(** The alerts of the two guards are never shown: the buttons that could
    raise them are disabled while no call is active, and a call that is
    active holds a stream. *)
Theorem call_guard_alerts_never_shown (s : VoIPSection) (a : Alert) :
  reachable s ->
  In a (alerts s) ->
  a <> CannotRecord /\ a <> StartCallFirst.
Proof.
  intros Hr Ha. destruct (reachable_sound s Hr) as [_ [_ [_ H]]].
  exact (H a Ha).
Qed.

Lemma call_guard_alerts_never_shown_witness :
  reachable (step ClickRecord twoGrants)
  /\ In Recording (alerts (step ClickRecord twoGrants))
  /\ Recording <> CannotRecord.
Proof.
  assert (Hr : reachable (step ClickRecord twoGrants))
    by (unfold twoGrants; apply reach_step, call_reachable_run, reach_mount).
  assert (Ha : In Recording (alerts (step ClickRecord twoGrants)))
    by (vm_compute; auto).
  split; [exact Hr|]. split; [exact Ha|].
  exact (proj1 (call_guard_alerts_never_shown _ _ Hr Ha)).
Defined.

Lemma step_keeps_unheld (e : Event) (s : VoIPSection) (stream : N) :
  e <> UserMedia (Some stream) ->
  ~ In stream (stopped s) /\ localStream s <> Some stream ->
  ~ In stream (stopped (step e s)) /\ localStream (step e s) <> Some stream.
Proof.
  intros He [Hs Hl]. destruct e; simpl.
  - unfold handleStartCall. destruct (isCallActive s); simpl; auto.
  - destruct (isCallActive s); simpl; [|auto].
    split; [|discriminate].
    destruct (localStream s) as [held|]; [|exact Hs].
    intros Hin. apply in_snoc in Hin.
    destruct Hin as [Hin | ->]; [exact (Hs Hin) | exact (Hl eq_refl)].
  - unfold handleScreenShare.
    destruct (isCallActive s); simpl; auto.
  - unfold handleRecordSession. destruct (isCallActive s); simpl; [|auto].
    destruct (negb _ && negb _); simpl; auto.
  - unfold handleStartCall_resume.
    destruct (pendingUserMedia s); [auto|].
    destruct r as [granted|]; simpl; [|auto].
    split; [exact Hs|]. congruence.
  - unfold handleScreenShare_resume.
    destruct (pendingDisplayMedia s); simpl; auto.
Qed.

(** Only the stream that is held is ever stopped: a stream that is
    neither held nor stopped, such as one replaced by the grant of a
    second request, is not stopped by anything that happens later. *)
Theorem unheld_stream_is_never_stopped (es : list Event) (s : VoIPSection)
  (stream : N) :
  ~ In stream (stopped s) ->
  localStream s <> Some stream ->
  ~ In (UserMedia (Some stream)) es ->
  ~ In stream (stopped (run es s)).
Proof.
  intros Hs Hl Hes.
  assert (H : ~ In stream (stopped (run es s))
              /\ localStream (run es s) <> Some stream).
  { revert s Hs Hl. induction es as [|e es IH]; intros s Hs Hl; simpl.
    - split; assumption.
    - assert (He : e <> UserMedia (Some stream)).
      { intros ->. apply Hes. left. reflexivity. }
      destruct (step_keeps_unheld e s stream He (conj Hs Hl)) as [Hs' Hl'].
      apply IH; [|exact Hs' | exact Hl'].
      intros Hin. apply Hes. right. exact Hin. }
  exact (proj1 H).
Qed.

Lemma unheld_stream_is_never_stopped_witness :
  localStream twoGrants = Some 2%N
  /\ ~ In 1%N (stopped (run [ClickShare; ClickEnd; ClickStart] twoGrants)).
Proof.
  split; [vm_compute; reflexivity|].
  apply unheld_stream_is_never_stopped.
  - vm_compute. intros [].
  - vm_compute. discriminate.
  - simpl. intros [H | [H | [H | []]]]; discriminate H.
Defined.

End VoIPFacts.

(* ------------------------------------------------------------------ *)
(** ** Properties of the home page inside the application *)

Module HomePageFacts.

Import App AppNotions JsFacts AppFacts.

Lemma renderPage_home (s : App) :
  renderPage s = RHome -> isAuthenticated s = true.
Proof.
  unfold renderPage. destruct (isAuthenticated s); [reflexivity|].
  destruct (currentPage s); simpl; discriminate.
Qed.

Lemma upgrade_elsewhere (planId : JsString) (s : App) :
  renderPage s <> RSubscriptions -> handle (ClickUpgrade planId) s = (s, false).
Proof.
  intros H. unfold handle. destruct (renderPage s); congruence.
Qed.

(** While the home page stays on screen, what it hands to the player and
    to the comment section does not change: an event after which the
    home page is still rendered leaves the plan in force and the current
    user as they were, and there is a current user. So the player of the
    home page never sees a change of plan. *)
Theorem home_page_props_are_fixed (e : Event) (s : App) :
  reachable s ->
  renderPage s = RHome ->
  renderPage (step e s) = RHome ->
  currentPlan (step e s) = currentPlan s
  /\ currentUser (step e s) = currentUser s
  /\ exists u, currentUser s = Some u.
Proof.
  intros Hr Rh Rh'. pose proof (reachable_consistent s Hr) as Hc.
  pose proof (renderPage_home s Rh) as Ha.
  assert (Hu : exists u, currentUser s = Some u).
  { destruct Hc as [H1 _]. apply H1 in Ha.
    destruct (currentUser s) as [u|]; [eauto | congruence]. }
  split; [|split; [|exact Hu]].
  - unfold currentPlan. f_equal.
    destruct (Event_Reload_dec e) as [-> | He].
    + destruct (reload_cells s Hc) as [_ [_ [Hi _]]]. exact Hi.
    + rewrite (step_handle e s He) in *.
      rewrite commit_renderPage in Rh'. apply renderPage_home in Rh'.
      destruct (commit_cells s (snd (handle e s)) (fst (handle e s)))
        as [_ [_ [_ [Ci _]]]].
      rewrite Ci. clear Ci.
      destruct (handle_cases e s Hc)
        as [[_ [_ [Qi _]]]
           | [[_ [Qa _]]
             | [[_ [Qa _]]
               | [[_ [Qa _]]
                 | [pid [u [p [E _]]]]]]]]; try congruence.
      subst e. rewrite upgrade_elsewhere by (rewrite Rh; discriminate).
      reflexivity.
  - destruct (Event_Reload_dec e) as [-> | He].
    + destruct (reload_cells s Hc) as [_ [Hi _]]. exact Hi.
    + rewrite (step_handle e s He) in *.
      rewrite commit_renderPage in Rh'. apply renderPage_home in Rh'.
      destruct (commit_cells s (snd (handle e s)) (fst (handle e s)))
        as [_ [Cu _]].
      rewrite Cu. clear Cu.
      destruct (handle_cases e s Hc)
        as [[_ [Qu _]]
           | [[_ [Qa _]]
             | [[_ [Qa _]]
               | [[_ [Qa _]]
                 | [pid [u [p Hup]]]]]]]; try congruence.
      destruct Hup as [_ [_ [_ [U [_ [Qu _]]]]]]. congruence.
Qed.

Lemma home_page_props_are_fixed_witness :
  reachable AppScenario.signedUp
  /\ currentPlan (step ToggleSouthIndia AppScenario.signedUp)
     = Playback.freePlan.
Proof.
  assert (Hr : reachable AppScenario.signedUp).
  { unfold AppScenario.signedUp, AppScenario.registering.
    apply reach_step, shell_reachable_run, reach_first. }
  split; [exact Hr|].
  destruct (home_page_props_are_fixed ToggleSouthIndia AppScenario.signedUp Hr)
    as [Hp _].
  - vm_compute. reflexivity.
  - vm_compute. reflexivity.
  - rewrite Hp. vm_compute. reflexivity.
Defined.

(** *** The comment section of the home page *)

Lemma dislike_authors (Q : JsString -> Prop) (i : JsString)
  (l : list Engagement.Comment) :
  Forall (fun c => Q (Engagement.user c)) l ->
  Forall (fun c => Q (Engagement.user c))
    (Engagement.filterBoolean (map (Engagement.dislikeOne i) l)).
Proof.
  induction 1 as [|a l Ha Hl IH]; simpl; [constructor|].
  unfold Engagement.dislikeOne at 1.
  destruct (Js.eqb (Engagement.id a) i); [|constructor; assumption].
  destruct (2 <=? Engagement.dislikes a + 1)%Z; [exact IH|].
  constructor; assumption.
Qed.

Lemma map_authors (Q : JsString -> Prop)
  (f : Engagement.Comment -> Engagement.Comment)
  (l : list Engagement.Comment) :
  (forall c, Engagement.user (f c) = Engagement.user c) ->
  Forall (fun c => Q (Engagement.user c)) l ->
  Forall (fun c => Q (Engagement.user c)) (map f l).
Proof.
  intros Hf H. induction H as [|a l Ha Hl IH]; simpl; constructor;
    [rewrite Hf; exact Ha | exact IH].
Qed.

(** One event on a comment section that is given a user. *)
Lemma step_signed_in (Q : JsString -> Prop) (u : Engagement.User)
  (e : Engagement.Event) (s : Engagement.CommentSection) :
  Q (Engagement.username u) ->
  Engagement.currentUser s = Some u
  /\ (Engagement.error s = []
      \/ Engagement.error s = Engagement.msgEmpty
      \/ Engagement.error s = Engagement.msgDisallowed)
  /\ Forall (fun c => Q (Engagement.user c)) (Engagement.comments s) ->
  Engagement.currentUser (Engagement.step e s) = Some u
  /\ (Engagement.error (Engagement.step e s) = []
      \/ Engagement.error (Engagement.step e s) = Engagement.msgEmpty
      \/ Engagement.error (Engagement.step e s) = Engagement.msgDisallowed)
  /\ Forall (fun c => Q (Engagement.user c))
       (Engagement.comments (Engagement.step e s)).
Proof.
  intros Hq [Hu [He Hc]].
  destruct e as [t | nowId nowTs | i | i | k lang | k r]; simpl.
  - auto.
  - unfold Engagement.handleCommentSubmit. rewrite Hu.
    destruct (Js.falsy _); [simpl; auto|].
    destruct (negb _); simpl; auto.
  - split; [exact Hu|]. split; [exact He|].
    apply map_authors; [|exact Hc].
    intros c. destruct (Js.eqb _ _); reflexivity.
  - unfold Engagement.handleDislike.
    destruct (existsb _ _); simpl;
      (split; [exact Hu|]; split; [exact He|]; apply dislike_authors; exact Hc).
  - unfold Engagement.clickTranslate.
    destruct (nth_error _ _) as [c|]; [|auto].
    destruct (Engagement.translateDisabled s c); [auto|].
    unfold Engagement.handleTranslateClick. destruct (_ && _); [auto|].
    unfold Engagement.handleTranslate. destruct (find _ _); [|auto].
    destruct (negb (Engagement.ai s)); simpl; auto.
  - unfold Engagement.settle. destruct (nth_error _ _) as [p|]; [|auto].
    unfold Engagement.handleTranslate_resume. simpl.
    split; [exact Hu|]. split; [exact He|].
    apply map_authors; [|exact Hc].
    intros c. destruct (Js.eqb _ _); reflexivity.
Qed.

(** Inside the application the comment section of the home page always
    has a user: whatever happens to it, the error shown is never the
    request to log in (it is empty, or one of the two validation
    messages), and every comment of the collection carries the name of
    the signed-in user or the name on a comment that was stored
    before. *)
Theorem home_comments_have_a_user (s : App) (aiConfigured : bool)
  (saved : list Engagement.Comment) (es : list Engagement.Event) :
  reachable s ->
  renderPage s = RHome ->
  exists u,
    currentUser s = Some u
    /\ (Engagement.error
          (Engagement.run es (HomePage.commentSection aiConfigured (Some saved) s))
        = []
        \/ Engagement.error
             (Engagement.run es
                (HomePage.commentSection aiConfigured (Some saved) s))
           = Engagement.msgEmpty
        \/ Engagement.error
             (Engagement.run es
                (HomePage.commentSection aiConfigured (Some saved) s))
           = Engagement.msgDisallowed)
    /\ Forall (fun c => Engagement.user c = Engagement.username u
                        \/ In (Engagement.user c) (map Engagement.user saved))
         (Engagement.comments
            (Engagement.run es
               (HomePage.commentSection aiConfigured (Some saved) s))).
Proof.
  intros Hr Rh. pose proof (reachable_consistent s Hr) as Hc.
  pose proof (renderPage_home s Rh) as Ha.
  destruct Hc as [H1 _]. apply H1 in Ha.
  destruct (currentUser s) as [u|] eqn:U; [|congruence].
  exists u. split; [reflexivity|].
  set (Q := fun x => x = Engagement.username u
                     \/ In x (map Engagement.user saved)).
  assert (Hgen : forall cs,
             Engagement.currentUser cs = Some u
             /\ (Engagement.error cs = []
                 \/ Engagement.error cs = Engagement.msgEmpty
                 \/ Engagement.error cs = Engagement.msgDisallowed)
             /\ Forall (fun c => Q (Engagement.user c)) (Engagement.comments cs) ->
             Engagement.currentUser (Engagement.run es cs) = Some u
             /\ (Engagement.error (Engagement.run es cs) = []
                 \/ Engagement.error (Engagement.run es cs) = Engagement.msgEmpty
                 \/ Engagement.error (Engagement.run es cs)
                    = Engagement.msgDisallowed)
             /\ Forall (fun c => Q (Engagement.user c))
                  (Engagement.comments (Engagement.run es cs))).
  { induction es as [|e es IH]; intros cs H; [exact H|].
    change (Engagement.run (e :: es) cs)
      with (Engagement.run es (Engagement.step e cs)).
    apply IH. apply step_signed_in; [left; reflexivity | exact H]. }
  destruct (Hgen (HomePage.commentSection aiConfigured (Some saved) s))
    as [_ [He Hf]].
  - unfold HomePage.commentSection, Engagement.mount. simpl.
    split; [exact U|]. split; [left; reflexivity|].
    apply Forall_forall. intros c Hin. right. apply in_map. exact Hin.
  - split; [exact He | exact Hf].
Qed.

Lemma home_comments_have_a_user_witness :
  reachable AppScenario.signedUp
  /\ Engagement.error
       (Engagement.run [Engagement.Submit 1 1]
          (HomePage.commentSection true (Some []) AppScenario.signedUp))
     = Engagement.msgEmpty.
Proof.
  assert (Hr : reachable AppScenario.signedUp).
  { unfold AppScenario.signedUp, AppScenario.registering.
    apply reach_step, shell_reachable_run, reach_first. }
  split; [exact Hr|].
  destruct (home_comments_have_a_user AppScenario.signedUp true []
              [Engagement.Submit 1 1] Hr) as [u [_ [He _]]].
  - vm_compute. reflexivity.
  - vm_compute. reflexivity.
Defined.

End HomePageFacts.
